(** * Voyager main process: the gateway supervisor of [app/src/main/index.js]

    A shallow embedding of the Electron main process that launches, verifies
    and reconnects the Gaia REST server (LCD).  Pure helpers are Rocq
    functions; the asynchronous control flow (promises, event listeners, IPC)
    is an event-driven transition system over the module-level variables of
    the source file. *)

From Stdlib Require Import String Ascii List Bool Arith ZArith QArith Qround Lia.
Import ListNotations.
Close Scope Q_scope.
Open Scope string_scope.

(** ** JavaScript strings

    Strings and Buffers are modelled as [string]: a sequence of one-byte code
    units. *)

Definition newline : string := String (ascii_of_nat 10) EmptyString.

(** [s.split(sep)] for a one-character separator. The result is never empty. *)
Fixpoint split (sep : ascii) (s : string) : list string :=
  match s with
  | EmptyString => [EmptyString]
  | String c rest =>
      if Ascii.eqb c sep then EmptyString :: split sep rest
      else match split sep rest with
           | [] => [String c EmptyString]
           | h :: t => String c h :: t
           end
  end.

(** [s.includes(pat)] *)
Fixpoint includes (s pat : string) : bool :=
  if prefix pat s then true
  else match s with
       | EmptyString => false
       | String _ rest => includes rest pat
       end.

(** White space removed by [String.prototype.trim], restricted to the code
    units below 256: TAB, LF, VT, FF, CR, SP and NBSP. *)
Definition is_space (c : ascii) : bool :=
  let n := nat_of_ascii c in
  (((9 <=? n) && (n <=? 13)) || (n =? 32) || (n =? 160))%nat.

Fixpoint trim_start (s : string) : string :=
  match s with
  | EmptyString => EmptyString
  | String c rest => if is_space c then trim_start rest else s
  end.

Fixpoint trim_end (s : string) : string :=
  match s with
  | EmptyString => EmptyString
  | String c rest =>
      let rest' := trim_end rest in
      if is_space c && (rest' =? EmptyString) then EmptyString
      else String c rest'
  end.

Definition trim (s : string) : string := trim_end (trim_start s).

(** The character class [\w]. *)
Definition is_word (c : ascii) : bool :=
  let n := nat_of_ascii c in
  (((48 <=? n) && (n <=? 57)) || ((65 <=? n) && (n <=? 90))
   || ((97 <=? n) && (n <=? 122)) || (n =? 95))%nat.

(** [n] word characters at the head of [s]. *)
Fixpoint take_word (n : nat) (s : string) : option string :=
  match n with
  | O => Some EmptyString
  | S n' =>
      match s with
      | EmptyString => None
      | String c rest =>
          if is_word c then option_map (String c) (take_word n' rest) else None
      end
  end.

(** [/\w{40}/g.exec(data)]: the leftmost run of forty word characters.  The
    regular expression literal is evaluated afresh on every call, so
    [lastIndex] is always 0. *)
Fixpoint hash_exec (data : string) : option string :=
  match take_word 40 data with
  | Some h => Some h
  | None =>
      match data with
      | EmptyString => None
      | String _ rest => hash_exec rest
      end
  end.

(** ** JSON values, as returned by [JSON.parse] *)

#[local] Unset Elimination Schemes.
Inductive Json :=
| JNull
| JBool (b : bool)
| JNumber (n : Z)
| JString (s : string)
| JArray (items : list Json)
| JObject (fields : list (string * Json)).
#[local] Set Elimination Schemes.

(** The value of a property read, [j.key]. *)
Inductive JsProperty :=
| PropThrows                  (* TypeError: property of null *)
| PropUndefined
| PropValue (v : Json).

(** Later duplicates of a key override earlier ones in [JSON.parse]. *)
Fixpoint lookup_field (key : string) (fields : list (string * Json))
  : option Json :=
  match fields with
  | [] => None
  | (k, v) :: rest =>
      match lookup_field key rest with
      | Some v' => Some v'
      | None => if (k =? key)%string then Some v else None
      end
  end.

Definition get_prop (j : Json) (key : string) : JsProperty :=
  match j with
  | JNull => PropThrows
  | JObject fields =>
      match lookup_field key fields with
      | Some v => PropValue v
      | None => PropUndefined
      end
  | _ => PropUndefined
  end.

(** [v !== "local"] *)
Definition is_string_value (v : JsProperty) (lit : string) : bool :=
  match v with
  | PropValue (JString s) => (s =? lit)%string
  | _ => false
  end.

(** ** Configuration taken from the environment and [package.json]

    The npm packages [semver] and [toml] and the built-in [JSON.parse] are not
    part of the repository; the model is parametric in them.  [None] always
    stands for a thrown exception. *)

Record Config := {
  NODE : option string;        (* process.env.COSMOS_NODE *)
  TEST : bool;                 (* NODE_ENV === "testing" *)
  LCD_PORT : Z;
  root : string;               (* require("../root.js") *)
  lcdHome : string;            (* join(root, "lcd") *)
  pkg_version : string;        (* pkg.version *)
  Math_random : nat -> Q;      (* the successive results of Math.random() *)
  spawn_throws : nat -> bool;  (* whether the n-th call of spawn throws *)
  JSON_parse : string -> option Json;
  (* semver.diff(a, b): null (inner None) or the release type of the
     difference, "major", "minor", "patch", ... *)
  semver_diff : string -> string -> option (option string);
  (* toml.parse(text).p2p.seeds, a string *)
  toml_p2p_seeds : string -> option string
}.

(** ** pickNode *)

(** [seeds[Math.floor(r * seeds.length)]]; [None] stands for the [TypeError]
    raised on [null.length], and for [undefined] when the index is out of
    range. *)
Definition random_seed (r : Q) (seeds : option (list string)) : option string :=
  match seeds with
  | None => None
  | Some l =>
      let i := Qfloor (r * inject_Z (Z.of_nat (List.length l)))%Q in
      if (i <? 0)%Z then None else nth_error l (Z.to_nat i)
  end.

(** [NODE || x]: an unset or empty override is falsy. *)
Definition node_override (cfg : Config) : option string :=
  match NODE cfg with
  | Some n => if (n =? EmptyString)%string then None else Some n
  | None => None
  end.

Definition rpc_address (nodeIP : string) : string :=
  hd EmptyString (split ":" nodeIP) ++ ":46657".

(** [pickNode(seeds)], with [r] the value [Math.random()] returns if it is
    called.  [None] is a thrown [TypeError] ([undefined.split]). *)
Definition pickNode (cfg : Config) (r : Q) (seeds : option (list string))
  : option string :=
  let nodeIP :=
    match node_override cfg with
    | Some n => Some n
    | None => random_seed r seeds
    end in
  option_map rpc_address nodeIP.

(** ** The data directory *)

Inductive Artifact :=
| app_version | genesis_json | config_toml | gaiaversion_txt.

(** The files of the data directory [root] and of the network directory
    [networkPath] shipped with the application.  The log files and the lcd
    sub-directory, which belongs to the gaia binary, are not modelled. *)
Record Disk := {
  root_exists : bool;
  root_file : Artifact -> option string;
  network_exists : bool;
  network_file : Artifact -> option string
}.

Inductive JsError :=
| Error (message : string)
| TypeError
| SyntaxError
| ENOENT
| SpawnFailed                 (* whatever [spawn] throws *)
| ChildError                  (* the payload of a child's "error" event *)
| Reason (text : string).     (* a promise rejected with a plain string *)

Inductive Result (A : Type) :=
| Ok (a : A)
| Throw (e : JsError).
Arguments Ok {A} a.
Arguments Throw {A} e.

Definition exists_ (d : Disk) (a : Artifact) : bool :=
  match root_file d a with Some _ => true | None => false end.

Definition consistentConfigDir (d : Disk) : bool :=
  exists_ d genesis_json && exists_ d app_version
  && exists_ d config_toml && exists_ d gaiaversion_txt.

(** [fs.readFileSync(path, "utf8")] *)
Definition readFileSync (file : option string) : Result string :=
  match file with
  | Some text => Ok text
  | None => Throw ENOENT
  end.

(** [fs.ensureDir(root)] *)
Definition ensureDir (d : Disk) : Disk :=
  if root_exists d then d
  else {| root_exists := true; root_file := root_file d;
          network_exists := network_exists d; network_file := network_file d |}.

Definition incompatible_message (existingVersion current : string) : string :=
  "Data was created with an incompatible app version" ++ newline
  ++ "        data=" ++ existingVersion ++ " app=" ++ current.

Definition missing_files_message (cfg : Config) : string :=
  "The data directory (" ++ root cfg ++ ") has missing files".

(** Lines 508-529 of [main]: the value of [init] afterwards, or the error. *)
Definition check_app_version (cfg : Config) (d : Disk) : Result bool :=
  if consistentConfigDir d then
    match readFileSync (root_file d app_version) with
    | Throw e => Throw e
    | Ok text =>
        let existingVersion := trim text in
        match semver_diff cfg existingVersion (pkg_version cfg) with
        | None => Throw TypeError
        | Some diff =>
            let compatible :=
              negb (match diff with
                    | Some kind => (kind =? "major")%string
                    | None => false
                    end) in
            if compatible then Ok false
            else Throw (Error (incompatible_message existingVersion
                                 (pkg_version cfg)))
        end
    end
  else Throw (Error (missing_files_message cfg)).

(** Lines 533-546 of [main], the body of [if (!init)]. *)
Definition check_genesis (cfg : Config) (d : Disk) : Result unit :=
  match readFileSync (root_file d genesis_json) with
  | Throw e => Throw e
  | Ok existingGenesis =>
      match JSON_parse cfg existingGenesis with
      | None => Throw SyntaxError
      | Some genesisJSON =>
          match get_prop genesisJSON "chain_id" with
          | PropThrows => Throw TypeError
          | chain_id =>
              if negb (is_string_value chain_id "local") then
                match readFileSync (network_file d genesis_json) with
                | Throw e => Throw e
                | Ok specifiedGenesis =>
                    if (trim existingGenesis =? trim specifiedGenesis)%string
                    then Ok tt
                    else Throw (Error "Genesis has changed")
                end
              else Ok tt
          end
      end
  end.

(** Lines 549-558 of [main]: [fs.copySync(networkPath, root)] followed by
    writing [app_version]. *)
Definition initialize_directory (cfg : Config) (d : Disk) : Result Disk :=
  if network_exists d then
    Ok {| root_exists := true;
          root_file := fun a =>
            match a with
            | app_version => Some (pkg_version cfg)
            | _ => match network_file d a with
                   | Some text => Some text
                   | None => root_file d a
                   end
            end;
          network_exists := network_exists d;
          network_file := network_file d |}
  else Throw ENOENT.

(** Lines 488-558 of [main]: the value of [init] and the disk afterwards. *)
Definition prepare_directory (cfg : Config) (d : Disk) : Result bool * Disk :=
  let rootExists := root_exists d in
  let d := ensureDir d in
  let checked :=
    if rootExists then
      match check_app_version cfg d with
      | Throw e => Throw e
      | Ok init =>
          if negb init then
            match check_genesis cfg d with
            | Throw e => Throw e
            | Ok _ => Ok init
            end
          else Ok init
      end
    else Ok true in
  match checked with
  | Throw e => (Throw e, d)
  | Ok init =>
      if init then
        match initialize_directory cfg d with
        | Throw e => (Throw e, d)
        | Ok d' => (Ok init, d')
        end
      else (Ok init, d)
  end.

(** ** The supervisor as a transition system

    Every child process gets a number when it is spawned; the commands are the
    four argument lists passed to [startProcess]. *)

Definition pid := nat.

Inductive Command :=
| CmdVersion                              (* getGaiaVersion: version *)
| CmdInitCheck (home : string)            (* lcdInitialized: client init *)
| CmdInit (home : string) (chainId : JsProperty) (node : option string)
                                          (* initLCD: client init ... --node *)
| CmdRestServer (port : Z) (home : string) (node : option string).
                                          (* startLCD: rest-server ... --node *)

Inductive Signal := SIGKILL | SIGTERM.

(** Messages for the renderer: [mainWindow.webContents.send(channel, x)]. *)
Inductive UiMessage :=
| MsgError (e : JsError)
| MsgConnected (node : option string)
| MsgApproveHash (hash : string).

(** What the main process does to the outside world. *)
Inductive Action :=
| ASpawn (p : pid) (cmd : Command)
| AKill (p : pid) (sig : Signal)
| AStdinWrite (p : pid) (data : string)
| ASend (m : UiMessage)
| AGet (url : string) (timeout : Z)       (* axios.get(url, { timeout }) *)
| ASleep (ms : Z)                         (* sleep(ms) *)
| AUncaught (e : JsError).                (* nobody handles this exception *)

Inductive Window := WinUndefined | WinNull | WinOpen.

Inductive LcdProcess := LcdUndefined | LcdNull | LcdChild (p : pid).

(** An outstanding [handleHashVerification(hash)] together with what its
    continuation in [initLCD] closes over.  The "hash-approved" and
    "hash-disapproved" listeners are always registered in pairs and each event
    retires both lists, so one list stands for both. *)
Record TrustRequest := {
  tr_child : pid;
  tr_hash : string;
  tr_chainId : JsProperty;
  tr_home : string
}.

(** The [await] at which [main] is suspended. *)
Inductive MainTask :=
| MainAwaitDir                                    (* fs.ensureDir(root) *)
| MainAwaitVersion (p : pid) (init : bool)        (* getGaiaVersion() *)
| MainAwaitInitCheck (p : pid) (init : bool) (chainId : JsProperty)
                                                  (* lcdInitialized(...) *)
| MainAwaitInitLCD                                (* initLCD(...) *)
| MainAwaitConnect (p : pid) (node : option string)  (* startLCD in connect *)
| MainDone
| MainFailed (e : JsError).

(** The [await] at which a call of [reconnect] is suspended, with the
    argument [seeds] it was called with. *)
Inductive ReconnectTask :=
| RcProbing (sd : option (list string)) (node : string)   (* axios.get *)
| RcSleeping (sd : option (list string))                  (* sleep(2000) *)
| RcConnecting (p : pid) (node : option string).  (* startLCD in connect *)

Record State := {
  (* the module-level variables of index.js *)
  shuttingDown : bool;
  mainWindow : Window;
  lcdProcess : LcdProcess;
  nodeIP : option string;
  connecting : bool;
  seeds : option (list string);
  booted : bool;
  (* the run-time structures behind the promises and listeners *)
  ipc_ready : bool;  (* handleIPC() has run *)
  booted_queue : list UiMessage;  (* callbacks queued by afterBooted *)
  trust_requests : list TrustRequest;  (* listeners of handleHashVerification *)
  exit_waits : list pid;  (* children watched by expectCleanExit *)
  children : list (pid * Command);  (* children spawned so far *)
  next_pid : pid;
  rand_ix : nat;  (* calls of Math.random() so far *)
  main_task : MainTask;  (* where main() is suspended *)
  reconnects : list ReconnectTask;  (* suspended calls of reconnect() *)
  disk : Disk
}.

Definition set_shuttingDown (v : bool) (s : State) : State :=
  {| shuttingDown := v; mainWindow := mainWindow s;
     lcdProcess := lcdProcess s; nodeIP := nodeIP s;
     connecting := connecting s; seeds := seeds s; booted := booted s;
     ipc_ready := ipc_ready s; booted_queue := booted_queue s;
     trust_requests := trust_requests s; exit_waits := exit_waits s;
     children := children s; next_pid := next_pid s; rand_ix := rand_ix s;
     main_task := main_task s; reconnects := reconnects s; disk := disk s |}.

Definition set_mainWindow (v : Window) (s : State) : State :=
  {| shuttingDown := shuttingDown s; mainWindow := v;
     lcdProcess := lcdProcess s; nodeIP := nodeIP s;
     connecting := connecting s; seeds := seeds s; booted := booted s;
     ipc_ready := ipc_ready s; booted_queue := booted_queue s;
     trust_requests := trust_requests s; exit_waits := exit_waits s;
     children := children s; next_pid := next_pid s; rand_ix := rand_ix s;
     main_task := main_task s; reconnects := reconnects s; disk := disk s |}.

Definition set_lcdProcess (v : LcdProcess) (s : State) : State :=
  {| shuttingDown := shuttingDown s; mainWindow := mainWindow s;
     lcdProcess := v; nodeIP := nodeIP s; connecting := connecting s;
     seeds := seeds s; booted := booted s; ipc_ready := ipc_ready s;
     booted_queue := booted_queue s; trust_requests := trust_requests s;
     exit_waits := exit_waits s; children := children s;
     next_pid := next_pid s; rand_ix := rand_ix s; main_task := main_task s;
     reconnects := reconnects s; disk := disk s |}.

Definition set_nodeIP (v : option string) (s : State) : State :=
  {| shuttingDown := shuttingDown s; mainWindow := mainWindow s;
     lcdProcess := lcdProcess s; nodeIP := v; connecting := connecting s;
     seeds := seeds s; booted := booted s; ipc_ready := ipc_ready s;
     booted_queue := booted_queue s; trust_requests := trust_requests s;
     exit_waits := exit_waits s; children := children s;
     next_pid := next_pid s; rand_ix := rand_ix s; main_task := main_task s;
     reconnects := reconnects s; disk := disk s |}.

Definition set_connecting (v : bool) (s : State) : State :=
  {| shuttingDown := shuttingDown s; mainWindow := mainWindow s;
     lcdProcess := lcdProcess s; nodeIP := nodeIP s; connecting := v;
     seeds := seeds s; booted := booted s; ipc_ready := ipc_ready s;
     booted_queue := booted_queue s; trust_requests := trust_requests s;
     exit_waits := exit_waits s; children := children s;
     next_pid := next_pid s; rand_ix := rand_ix s; main_task := main_task s;
     reconnects := reconnects s; disk := disk s |}.

Definition set_seeds (v : option (list string)) (s : State) : State :=
  {| shuttingDown := shuttingDown s; mainWindow := mainWindow s;
     lcdProcess := lcdProcess s; nodeIP := nodeIP s;
     connecting := connecting s; seeds := v; booted := booted s;
     ipc_ready := ipc_ready s; booted_queue := booted_queue s;
     trust_requests := trust_requests s; exit_waits := exit_waits s;
     children := children s; next_pid := next_pid s; rand_ix := rand_ix s;
     main_task := main_task s; reconnects := reconnects s; disk := disk s |}.

Definition set_booted (v : bool) (s : State) : State :=
  {| shuttingDown := shuttingDown s; mainWindow := mainWindow s;
     lcdProcess := lcdProcess s; nodeIP := nodeIP s;
     connecting := connecting s; seeds := seeds s; booted := v;
     ipc_ready := ipc_ready s; booted_queue := booted_queue s;
     trust_requests := trust_requests s; exit_waits := exit_waits s;
     children := children s; next_pid := next_pid s; rand_ix := rand_ix s;
     main_task := main_task s; reconnects := reconnects s; disk := disk s |}.

Definition set_ipc_ready (v : bool) (s : State) : State :=
  {| shuttingDown := shuttingDown s; mainWindow := mainWindow s;
     lcdProcess := lcdProcess s; nodeIP := nodeIP s;
     connecting := connecting s; seeds := seeds s; booted := booted s;
     ipc_ready := v; booted_queue := booted_queue s;
     trust_requests := trust_requests s; exit_waits := exit_waits s;
     children := children s; next_pid := next_pid s; rand_ix := rand_ix s;
     main_task := main_task s; reconnects := reconnects s; disk := disk s |}.

Definition set_booted_queue (v : list UiMessage) (s : State) : State :=
  {| shuttingDown := shuttingDown s; mainWindow := mainWindow s;
     lcdProcess := lcdProcess s; nodeIP := nodeIP s;
     connecting := connecting s; seeds := seeds s; booted := booted s;
     ipc_ready := ipc_ready s; booted_queue := v;
     trust_requests := trust_requests s; exit_waits := exit_waits s;
     children := children s; next_pid := next_pid s; rand_ix := rand_ix s;
     main_task := main_task s; reconnects := reconnects s; disk := disk s |}.

Definition set_trust_requests (v : list TrustRequest) (s : State) : State :=
  {| shuttingDown := shuttingDown s; mainWindow := mainWindow s;
     lcdProcess := lcdProcess s; nodeIP := nodeIP s;
     connecting := connecting s; seeds := seeds s; booted := booted s;
     ipc_ready := ipc_ready s; booted_queue := booted_queue s;
     trust_requests := v; exit_waits := exit_waits s; children := children s;
     next_pid := next_pid s; rand_ix := rand_ix s; main_task := main_task s;
     reconnects := reconnects s; disk := disk s |}.

Definition set_exit_waits (v : list pid) (s : State) : State :=
  {| shuttingDown := shuttingDown s; mainWindow := mainWindow s;
     lcdProcess := lcdProcess s; nodeIP := nodeIP s;
     connecting := connecting s; seeds := seeds s; booted := booted s;
     ipc_ready := ipc_ready s; booted_queue := booted_queue s;
     trust_requests := trust_requests s; exit_waits := v;
     children := children s; next_pid := next_pid s; rand_ix := rand_ix s;
     main_task := main_task s; reconnects := reconnects s; disk := disk s |}.

Definition set_children (v : list (pid * Command)) (s : State) : State :=
  {| shuttingDown := shuttingDown s; mainWindow := mainWindow s;
     lcdProcess := lcdProcess s; nodeIP := nodeIP s;
     connecting := connecting s; seeds := seeds s; booted := booted s;
     ipc_ready := ipc_ready s; booted_queue := booted_queue s;
     trust_requests := trust_requests s; exit_waits := exit_waits s;
     children := v; next_pid := next_pid s; rand_ix := rand_ix s;
     main_task := main_task s; reconnects := reconnects s; disk := disk s |}.

Definition set_next_pid (v : pid) (s : State) : State :=
  {| shuttingDown := shuttingDown s; mainWindow := mainWindow s;
     lcdProcess := lcdProcess s; nodeIP := nodeIP s;
     connecting := connecting s; seeds := seeds s; booted := booted s;
     ipc_ready := ipc_ready s; booted_queue := booted_queue s;
     trust_requests := trust_requests s; exit_waits := exit_waits s;
     children := children s; next_pid := v; rand_ix := rand_ix s;
     main_task := main_task s; reconnects := reconnects s; disk := disk s |}.

Definition set_rand_ix (v : nat) (s : State) : State :=
  {| shuttingDown := shuttingDown s; mainWindow := mainWindow s;
     lcdProcess := lcdProcess s; nodeIP := nodeIP s;
     connecting := connecting s; seeds := seeds s; booted := booted s;
     ipc_ready := ipc_ready s; booted_queue := booted_queue s;
     trust_requests := trust_requests s; exit_waits := exit_waits s;
     children := children s; next_pid := next_pid s; rand_ix := v;
     main_task := main_task s; reconnects := reconnects s; disk := disk s |}.

Definition set_main_task (v : MainTask) (s : State) : State :=
  {| shuttingDown := shuttingDown s; mainWindow := mainWindow s;
     lcdProcess := lcdProcess s; nodeIP := nodeIP s;
     connecting := connecting s; seeds := seeds s; booted := booted s;
     ipc_ready := ipc_ready s; booted_queue := booted_queue s;
     trust_requests := trust_requests s; exit_waits := exit_waits s;
     children := children s; next_pid := next_pid s; rand_ix := rand_ix s;
     main_task := v; reconnects := reconnects s; disk := disk s |}.

Definition set_reconnects (v : list ReconnectTask) (s : State) : State :=
  {| shuttingDown := shuttingDown s; mainWindow := mainWindow s;
     lcdProcess := lcdProcess s; nodeIP := nodeIP s;
     connecting := connecting s; seeds := seeds s; booted := booted s;
     ipc_ready := ipc_ready s; booted_queue := booted_queue s;
     trust_requests := trust_requests s; exit_waits := exit_waits s;
     children := children s; next_pid := next_pid s; rand_ix := rand_ix s;
     main_task := main_task s; reconnects := v; disk := disk s |}.

Definition set_disk (v : Disk) (s : State) : State :=
  {| shuttingDown := shuttingDown s; mainWindow := mainWindow s;
     lcdProcess := lcdProcess s; nodeIP := nodeIP s;
     connecting := connecting s; seeds := seeds s; booted := booted s;
     ipc_ready := ipc_ready s; booted_queue := booted_queue s;
     trust_requests := trust_requests s; exit_waits := exit_waits s;
     children := children s; next_pid := next_pid s; rand_ix := rand_ix s;
     main_task := main_task s; reconnects := reconnects s; disk := v |}.

Definition initial_state (d : Disk) : State :=
  {| shuttingDown := false; mainWindow := WinUndefined;
     lcdProcess := LcdUndefined; nodeIP := None; connecting := true;
     seeds := None; booted := false; ipc_ready := false; booted_queue := [];
     trust_requests := []; exit_waits := []; children := []; next_pid := 0;
     rand_ix := 0; main_task := MainAwaitDir; reconnects := []; disk := d |}.

(** ** Handler bodies

    A piece of JavaScript that runs without suspending reads and writes the
    module state, acts on the outside world, and returns or throws. *)

Definition M (A : Type) : Type := State -> State * list Action * Result A.

Definition ret {A} (a : A) : M A := fun s => (s, [], Ok a).

Definition throw {A} (e : JsError) : M A := fun s => (s, [], Throw e).

Definition bind {A B} (m : M A) (k : A -> M B) : M B :=
  fun s =>
    match m s with
    | (s1, a1, Ok a) =>
        match k a s1 with
        | (s2, a2, r) => (s2, (a1 ++ a2)%list, r)
        end
    | (s1, a1, Throw e) => (s1, a1, Throw e)
    end.

Definition get {A} (f : State -> A) : M A := fun s => (s, [], Ok (f s)).

Definition modify (f : State -> State) : M unit := fun s => (f s, [], Ok tt).

Definition emit (a : Action) : M unit := fun s => (s, [a], Ok tt).

Definition lift {A} (r : Result A) : M A := fun s => (s, [], r).

(** [try { m } catch (e) { h(e) }], also [promise.catch(h)] *)
Definition catch {A} (m : M A) (h : JsError -> M A) : M A :=
  fun s =>
    match m s with
    | (s1, a1, Ok a) => (s1, a1, Ok a)
    | (s1, a1, Throw e) =>
        match h e s1 with
        | (s2, a2, r) => (s2, (a1 ++ a2)%list, r)
        end
    end.

Declare Scope js_scope.
Delimit Scope js_scope with js.
Notation "x <- m ;; k" := (bind m (fun x => k))
  (at level 61, m at next level, right associativity) : js_scope.
Notation "m ;; k" := (bind m (fun _ => k))
  (at level 61, right associativity) : js_scope.
Open Scope js_scope.

Definition option_eqb_ascii (a b : option ascii) : bool :=
  match a, b with
  | Some x, Some y => Ascii.eqb x y
  | None, None => true
  | _, _ => false
  end.

Definition dquote : string := String (ascii_of_nat 34) EmptyString.

Definition gaia_version_message (expected got : string) : string :=
  "Requires gaia " ++ expected ++ ", but got " ++ got ++ "." ++ newline
  ++ "    Please update your gaia installation or build with a newer binary.".

Definition lcd_exited : JsError :=
  Error "The Gaia REST-server (LCD) exited unplanned".

Definition no_seeds : JsError := Error "No seeds specified in config.toml".

Section Supervisor.

Variable cfg : Config.

(** [mainWindow.webContents.send(...)]: a [TypeError] unless a window is
    open. *)
Definition send (m : UiMessage) : M unit :=
  w <- get mainWindow ;;
  match w with
  | WinOpen => emit (ASend m)
  | _ => throw TypeError
  end.

(** [afterBooted(() => mainWindow.webContents.send(...))] *)
Definition afterBooted (m : UiMessage) : M unit :=
  b <- get booted ;;
  if b then send m
  else modify (fun s => set_booted_queue (booted_queue s ++ [m])%list s).

Definition handleCrash (e : JsError) : M unit := afterBooted (MsgError e).

(** [startProcess(name, args, env)]; the listeners it installs only log,
    except the one for "error" (see [on_child_error]). *)
Definition startProcess (cmd : Command) : M pid :=
  p <- get next_pid ;;
  modify (set_next_pid (S p)) ;;
  if spawn_throws cfg p then throw SpawnFailed
  else
    modify (fun s => set_children (children s ++ [(p, cmd)])%list s) ;;
    emit (ASpawn p cmd) ;;
    ret p.

(** [startLCD(home, nodeIP)] up to the promise it returns: the spawn of the
    gateway.  The promise resolves with the child when its stdout contains
    "Serving on" (see [on_stdout]); nothing rejects it but a throwing [spawn],
    and the "exit" listener only reports to the renderer (see [on_exit]). *)
Definition startLCD (home : string) (node : option string) : M pid :=
  startProcess (CmdRestServer (LCD_PORT cfg) home node).

(** [getGaiaVersion()] up to its [await]; the first stdout chunk of the child
    resolves it. *)
Definition getGaiaVersion : M pid := startProcess CmdVersion.

(** [lcdInitialized(home)] up to the promise it returns. *)
Definition lcdInitialized (home : string) : M pid :=
  startProcess (CmdInitCheck home).

(** The stderr listener of [lcdInitialized]: how the promise settles. *)
Definition lcdInitialized_settles (data : string) : Result bool :=
  if includes data "already is initialized" then Ok true
  else if includes data (dquote ++ "--chain-id" ++ dquote ++ " required")
       then Ok false
       else Throw (Reason ("Unknown state for Gaia initialization: " ++ data)).

(** [initLCD(chainId, home, node)] up to the promise it returns: the spawn of
    the init child, whose stdout listener is [on_init_stdout]. *)
Definition initLCD (chainId : JsProperty) (home : string) (node : option string)
  : M pid :=
  startProcess (CmdInit home chainId node).

(** The "exit" listener of [expectCleanExit(process, errorMessage)]: how the
    promise settles. *)
Definition expectCleanExit (errorMessage : string) (code : Z)
    (shuttingDown : bool) : Result unit :=
  if negb (code =? 0)%Z && negb shuttingDown
  then Throw (Error errorMessage)
  else Ok tt.

(** [pickNode(sd)] inside a handler: draws from [Math.random] unless the
    override short-circuits. *)
Definition pick (sd : option (list string)) : M string :=
  i <- get rand_ix ;;
  match node_override cfg with
  | Some _ => ret tt
  | None => modify (set_rand_ix (S i))
  end ;;
  match pickNode cfg (Math_random cfg i) sd with
  | Some n => ret n
  | None => throw TypeError
  end.

(** [shutdown()] *)
Definition shutdown : M unit :=
  sd <- get shuttingDown ;;
  if sd then ret tt
  else
    modify (set_mainWindow WinNull) ;;
    modify (set_shuttingDown true) ;;
    lcd <- get lcdProcess ;;
    match lcd with
    | LcdChild p => emit (AKill p SIGKILL) ;; modify (set_lcdProcess LcdNull)
    | _ => ret tt
    end.

(** *** connect *)

(** [connect] after its [await]: [child] is what [startLCD(...).catch(...)]
    produced. *)
Definition connect_finish (child : LcdProcess) (node : option string)
  : M unit :=
  modify (set_lcdProcess child) ;;
  afterBooted (MsgConnected node) ;;
  modify (set_connecting false).

(** [connect(seeds, nodeIP)] up to its suspension.  [startLCD] spawns the
    gateway; if [spawn] throws, the promise is rejected, [.catch(console.error)]
    turns that into [undefined] and [connect] runs on.  The result is the
    child whose "Serving on" line is awaited, or [None] when [connect] has
    already returned. *)
Definition connect (node : option string) : M (option pid) :=
  started <- catch (p <- startLCD (lcdHome cfg) node ;; ret (Some p))
                   (fun _ => ret None) ;;
  match started with
  | Some p => ret (Some p)
  | None => connect_finish LcdUndefined node ;; ret None
  end.

(** *** reconnect *)

(** One turn of the [while] loop up to [await axios.get(...)]. *)
Definition reconnect_probe (sd : option (list string)) : M ReconnectTask :=
  node <- pick sd ;;
  emit (AGet ("http://" ++ node) 3000) ;;
  ret (RcProbing sd node).

(** Lines 471-476, after the loop.  The loop's [let nodeIP] is out of scope
    here: [nodeIP] is the module-level variable. *)
Definition reconnect_after_loop : M (option ReconnectTask) :=
  lcd <- get lcdProcess ;;
  match lcd with
  | LcdChild p => emit (AKill p SIGKILL)
  | _ => throw TypeError
  end ;;
  node <- get nodeIP ;;
  awaited <- connect node ;;
  match awaited with
  | Some p => ret (Some (RcConnecting p node))
  | None => ret None
  end.

(** [reconnect(seeds)] up to its first suspension; [None] when it returns at
    once. *)
Definition reconnect : M (option ReconnectTask) :=
  c <- get connecting ;;
  if c then ret None
  else
    modify (set_connecting true) ;;
    sd <- get seeds ;;
    t <- reconnect_probe sd ;;
    ret (Some t).

(** *** main *)

(** From the first [await] to [getGaiaVersion()]: lines 491-564. *)
Definition main_after_ensureDir : M MainTask :=
  modify (set_ipc_ready true) ;;
  d <- get disk ;;
  match prepare_directory cfg d with
  | (r, d') =>
      modify (set_disk d') ;;
      init <- lift r ;;
      p <- getGaiaVersion ;;
      ret (MainAwaitVersion p init)
  end.

(** [configTOML.p2p.seeds.split(",")] without the empty strings *)
Definition parse_seeds (seedsText : string) : list string :=
  filter (fun x => negb (x =? EmptyString)%string) (split "," seedsText).

Definition lift_option {A} (e : JsError) (o : option A) : M A :=
  match o with
  | Some a => ret a
  | None => throw e
  end.

(** Lines 564-590: from the output of [gaia version] to [lcdInitialized]. *)
Definition main_after_version (init : bool) (data : string) : M MainTask :=
  let gaiaVersion := trim data in
  d <- get disk ;;
  expectedText <- lift (readFileSync (root_file d gaiaversion_txt)) ;;
  let expectedGaiaVersion := trim expectedText in
  if negb (gaiaVersion =? expectedGaiaVersion)%string
  then throw (Error (gaia_version_message expectedGaiaVersion gaiaVersion))
  else
    genesisText <- lift (readFileSync (root_file d genesis_json)) ;;
    genesis <- lift_option SyntaxError (JSON_parse cfg genesisText) ;;
    chainId <- match get_prop genesis "chain_id" with
               | PropThrows => throw TypeError
               | v => ret v
               end ;;
    configText <- lift (readFileSync (root_file d config_toml)) ;;
    seedsText <- lift_option TypeError (toml_p2p_seeds cfg configText) ;;
    let sd := parse_seeds seedsText in
    modify (set_seeds (Some sd)) ;;
    if (List.length sd =? 0)%nat then throw no_seeds
    else
      node <- pick (Some sd) ;;
      modify (set_nodeIP (Some node)) ;;
      p <- lcdInitialized (lcdHome cfg) ;;
      ret (MainAwaitInitCheck p init chainId).

(** [await connect(seeds, nodeIP)], the last statement of [main]. *)
Definition main_connect : M MainTask :=
  node <- get nodeIP ;;
  awaited <- connect node ;;
  match awaited with
  | Some p => ret (MainAwaitConnect p node)
  | None => ret MainDone
  end.

(** Lines 590-596: from the first stderr output of the [lcdInitialized] child
    on. *)
Definition main_after_initcheck (init : bool) (chainId : JsProperty)
    (data : string) : M MainTask :=
  initialized <- lift (lcdInitialized_settles data) ;;
  if init || negb initialized then
    node <- get nodeIP ;;
    initLCD chainId (lcdHome cfg) node ;;
    ret MainAwaitInitLCD
  else main_connect.

(** *** The trust handshake of initLCD *)

(** The "data" listener on the stdout of an [initLCD] child. *)
Definition on_init_stdout (p : pid) (home : string) (chainId : JsProperty)
    (data : string) : M unit :=
  match hash_exec data with
  | Some hash =>
      afterBooted (MsgApproveHash hash) ;;
      modify (fun s =>
        set_trust_requests
          (trust_requests s
           ++ [ {| tr_child := p; tr_hash := hash;
                   tr_chainId := chainId; tr_home := home |} ])%list
          s)
  | None => ret tt
  end.

(** Lines 294-304: the hash was approved. *)
Definition on_trust_approved (req : TrustRequest) : M unit :=
  sd <- get shuttingDown ;;
  if sd then ret tt
  else
    emit (AStdinWrite (tr_child req) ("y" ++ newline)) ;;
    modify (fun s => set_exit_waits (exit_waits s ++ [tr_child req])%list s).

(** Lines 305-315: the verification promise was rejected. *)
Definition on_trust_rejected (req : TrustRequest) : M unit :=
  emit (AKill (tr_child req) SIGTERM) ;;
  sd <- get shuttingDown ;;
  if sd then ret tt
  else
    pool <- get seeds ;;
    node <- pick pool ;;
    modify (set_nodeIP (Some node)) ;;
    initLCD (tr_chainId req) (tr_home req) (Some node) ;;
    ret tt.

(** [handleHashVerification(nodeHash)]: whether the promise resolves.
    "hash-approved" carries a hash and resolves only if it equals the
    requested one; "hash-disapproved" ([None]) rejects. *)
Definition handleHashVerification (nodeHash : string) (signal : option string)
  : bool :=
  match signal with
  | Some hash => (hash =? nodeHash)%string
  | None => false
  end.

(** ** Running handlers to completion *)

Definition Step : Type := State -> State * list Action.

Definition done : Step := fun s => (s, []).

Definition and_then (f g : Step) : Step :=
  fun s =>
    match f s with
    | (s1, a1) => match g s1 with (s2, a2) => (s2, (a1 ++ a2)%list) end
    end.

Definition run {A} (m : M A) (on_return : A -> Step)
    (on_throw : JsError -> Step) : Step :=
  fun s =>
    match m s with
    | (s1, a1, Ok a) =>
        match on_return a s1 with (s2, a2) => (s2, (a1 ++ a2)%list) end
    | (s1, a1, Throw e) =>
        match on_throw e s1 with (s2, a2) => (s2, (a1 ++ a2)%list) end
    end.

(** The process-level hooks for "uncaughtException" and "unhandledRejection"
    (lines 357-370).  What the runtime does when a hook itself throws is not
    modelled beyond recording it. *)
Definition uncaught (e : JsError) : Step :=
  fun s =>
    if TEST cfg then (s, [AUncaught e])
    else
      match handleCrash e s with
      | (s1, a1, Ok _) => (s1, AUncaught e :: a1)
      | (s1, a1, Throw e') => (s1, AUncaught e :: a1 ++ [AUncaught e'])%list
      end.

(** An event listener, or an async call whose promise is dropped. *)
Definition listener (m : M unit) : Step := run m (fun _ => done) uncaught.

(** [main().catch(err => { logError(err); handleCrash(err) })] *)
Definition main_failed (e : JsError) : Step :=
  fun s => listener (handleCrash e) (set_main_task (MainFailed e) s).

(** Resuming [main] with the code up to its next [await]. *)
Definition run_main (m : M MainTask) : Step :=
  run m (fun t s => (set_main_task t s, [])) main_failed.

(** The promise of the outermost [initLCD] settles: every nested [initLCD]
    and [expectCleanExit] forwards to it with [.then(resolve, reject)], and
    only the first settlement counts. *)
Definition settle_init (r : Result unit) : Step :=
  fun s =>
    match main_task s with
    | MainAwaitInitLCD =>
        match r with
        | Ok _ => run_main main_connect s
        | Throw e => main_failed e s
        end
    | _ => (s, [])
    end.

Fixpoint for_each {A} (f : A -> Step) (l : list A) : Step :=
  match l with
  | [] => done
  | x :: rest => and_then (f x) (for_each f rest)
  end.

(** One outstanding request settles; an exception in either continuation
    goes to [.catch(reject)]. *)
Definition settle_trust (signal : option string) (req : TrustRequest) : Step :=
  run (if handleHashVerification (tr_hash req) signal
       then on_trust_approved req
       else on_trust_rejected req)
      (fun _ => done)
      (fun e => settle_init (Throw e)).

(** "hash-approved" ([Some hash]) or "hash-disapproved" ([None]) arrives:
    all listeners are retired, then each request settles. *)
Definition on_trust_signal (signal : option string) : Step :=
  fun s =>
    for_each (settle_trust signal) (trust_requests s) (set_trust_requests [] s).

(** *** Children *)

Fixpoint lookup_child (p : pid) (l : list (pid * Command)) : option Command :=
  match l with
  | [] => None
  | (q, cmd) :: rest => if (q =? p)%nat then Some cmd else lookup_child p rest
  end.

Fixpoint replace_nth {A} (i : nat) (x : option A) (l : list A) : list A :=
  match l, i with
  | [], _ => []
  | _ :: rest, O => match x with Some y => y :: rest | None => rest end
  | h :: rest, S j => h :: replace_nth j x rest
  end.

(** Resuming the [i]-th suspended [reconnect] with the code up to its next
    [await]; a rejection of its promise is handled by nobody. *)
Definition resume (i : nat) (m : M (option ReconnectTask)) : Step :=
  run m
      (fun t s => (set_reconnects (replace_nth i t (reconnects s)) s, []))
      (fun e s =>
         uncaught e (set_reconnects (replace_nth i None (reconnects s)) s)).

Fixpoint find_connecting (p : pid) (l : list ReconnectTask)
  : option (nat * option string) :=
  match l with
  | [] => None
  | RcConnecting q node :: rest =>
      if (q =? p)%nat then Some (O, node)
      else option_map (fun r => (S (fst r), snd r)) (find_connecting p rest)
  | _ :: rest =>
      option_map (fun r => (S (fst r), snd r)) (find_connecting p rest)
  end.

(** The gateway printed "Serving on": [startLCD] resolves with the child and
    whoever called [connect] runs on. *)
Definition on_serving (p : pid) : Step :=
  fun s =>
    let in_reconnect : Step := fun s =>
      match find_connecting p (reconnects s) with
      | Some (i, node) =>
          resume i (connect_finish (LcdChild p) node ;; ret None) s
      | None => (s, [])
      end in
    match main_task s with
    | MainAwaitConnect q node =>
        if (q =? p)%nat
        then run_main (connect_finish (LcdChild p) node ;; ret MainDone) s
        else in_reconnect s
    | _ => in_reconnect s
    end.

Definition on_stdout (p : pid) (data : string) : Step :=
  fun s =>
    match lookup_child p (children s) with
    | Some CmdVersion =>
        match main_task s with
        | MainAwaitVersion q init =>
            if (q =? p)%nat then run_main (main_after_version init data) s
            else (s, [])
        | _ => (s, [])
        end
    | Some (CmdInit home chainId _) =>
        listener (on_init_stdout p home chainId data) s
    | Some (CmdRestServer _ _ _) =>
        if includes data "Serving on" then on_serving p s else (s, [])
    | _ => (s, [])
    end.

Definition on_stderr (p : pid) (data : string) : Step :=
  fun s =>
    match lookup_child p (children s), main_task s with
    | Some (CmdInitCheck _), MainAwaitInitCheck q init chainId =>
        if (q =? p)%nat then run_main (main_after_initcheck init chainId data) s
        else (s, [])
    | _, _ => (s, [])
    end.

(** A child exits: the listener of [startLCD] reports it, the promise of
    [expectCleanExit] settles. *)
Definition on_exit (p : pid) (code : Z) : Step :=
  fun s =>
    match lookup_child p (children s) with
    | None => (s, [])
    | Some cmd =>
        let reported : Step :=
          match cmd with
          | CmdRestServer _ _ _ => listener (afterBooted (MsgError lcd_exited))
          | _ => done
          end in
        let expected : Step := fun s =>
          if existsb (Nat.eqb p) (exit_waits s) then
            settle_init
              (expectCleanExit "gaia init exited unplanned" code
                 (shuttingDown s))
              (set_exit_waits
                 (filter (fun q => negb (q =? p)%nat) (exit_waits s)) s)
          else (s, []) in
        and_then reported expected s
    end.

(** The "error" listener installed by [startProcess]. *)
Definition on_child_error (p : pid) (econnreset : bool) : Step :=
  fun s =>
    match lookup_child p (children s) with
    | None => (s, [])
    | Some _ =>
        if negb (shuttingDown s && econnreset)
        then listener (handleCrash ChildError) s
        else (s, [])
    end.

(** *** IPC and timers *)

(** The callbacks queued by [afterBooted], in order; each [once] listener is
    removed before it runs. *)
Fixpoint flush (q : list UiMessage) : M unit :=
  match q with
  | [] => ret tt
  | m :: rest => modify (set_booted_queue rest) ;; send m ;; flush rest
  end.

Definition on_booted : Step :=
  fun s =>
    listener ((if ipc_ready s then modify (set_booted true) else ret tt) ;;
              q <- get booted_queue ;;
              flush q) s.

Definition on_reconnect : Step :=
  fun s =>
    if ipc_ready s then
      run reconnect
          (fun t s =>
             match t with
             | Some t => (set_reconnects (reconnects s ++ [t])%list s, [])
             | None => (s, [])
             end)
          uncaught s
    else (s, []).

(** The promise of [axios.get] of the [i]-th suspended [reconnect] settles. *)
Definition on_probe (i : nat) (nodeAlive : bool) : Step :=
  fun s =>
    match nth_error (reconnects s) i with
    | Some (RcProbing sd _) =>
        resume i (if negb nodeAlive
                  then emit (ASleep 2000) ;; ret (Some (RcSleeping sd))
                  else reconnect_after_loop) s
    | _ => (s, [])
    end.

(** [sleep(2000)] of the [i]-th suspended [reconnect] is over. *)
Definition on_timer (i : nat) : Step :=
  fun s =>
    match nth_error (reconnects s) i with
    | Some (RcSleeping sd) =>
        resume i (t <- reconnect_probe sd ;; ret (Some t)) s
    | _ => (s, [])
    end.

(** ** Events and the step function *)

Inductive Event :=
| EvAppReady                                (* app "ready" *)
| EvActivate                                (* app "activate" *)
| EvWindowClosed                            (* mainWindow "closed" *)
| EvProcessExit                             (* process "exit" *)
| EvDirReady                                (* main's first await resolves *)
| EvStdout (p : pid) (data : string)
| EvStderr (p : pid) (data : string)
| EvExit (p : pid) (code : Z)
| EvChildError (p : pid) (econnreset : bool)
| EvBooted                                  (* ipc "booted" *)
| EvReconnect                               (* ipc "reconnect" *)
| EvHashApproved (hash : string)            (* ipc "hash-approved" *)
| EvHashDisapproved                         (* ipc "hash-disapproved" *)
| EvProbe (i : nat) (nodeAlive : bool)
| EvTimer (i : nat).

Definition step (e : Event) : Step :=
  fun s =>
    match e with
    | EvAppReady => (set_mainWindow WinOpen s, [])
    | EvActivate =>
        match mainWindow s with
        | WinNull => (set_mainWindow WinOpen s, [])
        | _ => (s, [])
        end
    | EvWindowClosed =>
        match mainWindow s with
        | WinOpen => listener shutdown s
        | _ => (s, [])
        end
    | EvProcessExit => if TEST cfg then (s, []) else listener shutdown s
    | EvDirReady =>
        match main_task s with
        | MainAwaitDir => run_main main_after_ensureDir s
        | _ => (s, [])
        end
    | EvStdout p data => on_stdout p data s
    | EvStderr p data => on_stderr p data s
    | EvExit p code => on_exit p code s
    | EvChildError p econnreset => on_child_error p econnreset s
    | EvBooted => on_booted s
    | EvReconnect => on_reconnect s
    | EvHashApproved hash => on_trust_signal (Some hash) s
    | EvHashDisapproved => on_trust_signal None s
    | EvProbe i nodeAlive => on_probe i nodeAlive s
    | EvTimer i => on_timer i s
    end.

(** The state and the actions after a sequence of events. *)
Fixpoint steps (es : list Event) : Step :=
  match es with
  | [] => done
  | e :: rest => and_then (step e) (steps rest)
  end.

End Supervisor.

(** States the main process can be in: those reached from the initial state
    by some sequence of events. *)
Definition reachable (cfg : Config) (d : Disk) (s : State) : Prop :=
  exists es, fst (steps cfg es (initial_state d)) = s.

(** ** Concrete configurations

    Stand-ins for the library functions, enough for the files below, and a few
    disks and configurations on which the model can be run. *)

Module Sample.

(** Versions of the form digit.digit.digit. *)
Definition diff (a b : string) : option (option string) :=
  Some (if (a =? b)%string then None
        else if negb (option_eqb_ascii (String.get 0 a) (String.get 0 b))
             then Some "major"
             else if negb (option_eqb_ascii (String.get 2 a) (String.get 2 b))
                  then Some "minor"
                  else Some "patch").

(** Genesis files are recognised by the chain id they mention. *)
Definition parse (text : string) : option Json :=
  if includes text "chain_id: local"
  then Some (JObject [("chain_id", JString "local")])
  else if includes text "chain_id: gaia-6002"
       then Some (JObject [("chain_id", JString "gaia-6002")])
       else None.

(** A one-line config file, "seeds = a,b,c". *)
Definition p2p_seeds (text : string) : option string :=
  if prefix "seeds = " text
  then Some (substring 8 (String.length text - 8) text)
  else None.

Definition make (node : option string) (random : nat -> Q) : Config :=
  {| NODE := node; TEST := false; LCD_PORT := 8998;
     root := "/home/user/.cosmos-voyager";
     lcdHome := "/home/user/.cosmos-voyager/lcd";
     pkg_version := "0.6.2";
     Math_random := random;
     spawn_throws := fun _ => false;
     JSON_parse := parse; semver_diff := diff; toml_p2p_seeds := p2p_seeds |}.

(** No override; Math.random() yields 0, 1/2, 0, 1/2, ... *)
Definition cfg : Config :=
  make None (fun n => (Z.of_nat (n mod 2) # 2)%Q).

(** No override; Math.random() always yields 0. *)
Definition cfg_zero : Config := make None (fun _ => 0%Q).

(** COSMOS_NODE is set. *)
Definition cfg_pinned : Config :=
  make (Some "10.0.0.1:1234") (fun _ => 0%Q).

Definition files (version genesis config gaia : string) (a : Artifact)
  : option string :=
  Some match a with
       | app_version => version
       | genesis_json => genesis
       | config_toml => config
       | gaiaversion_txt => gaia
       end.

Definition network : Artifact -> option string :=
  fun a =>
    match a with
    | app_version => None
    | _ => files EmptyString "{ chain_id: gaia-6002 }"
                 "seeds = a.example:46656,b.example:46656" "0.17.0" a
    end.

(** An initialised data directory of the current app version. *)
Definition disk : Disk :=
  {| root_exists := true;
     root_file := files ("0.6.1" ++ newline) "{ chain_id: gaia-6002 } "
                        "seeds = a.example:46656,b.example:46656" "0.17.0";
     network_exists := true; network_file := network |}.

(** The same with an empty seed list in config.toml. *)
Definition disk_no_seeds : Disk :=
  {| root_exists := true;
     root_file := files "0.6.1" "{ chain_id: gaia-6002 }" "seeds = " "0.17.0";
     network_exists := true; network_file := network |}.

(** A data directory written by another major version. *)
Definition disk_old : Disk :=
  {| root_exists := true;
     root_file := files "1.0.0" "{ chain_id: gaia-6002 }" "seeds = a.example:46656"
                        "0.17.0";
     network_exists := true; network_file := network |}.

(** A local testnet whose genesis differs from the shipped one. *)
Definition disk_local : Disk :=
  {| root_exists := true;
     root_file := files "0.6.2" "{ chain_id: local }" "seeds = localhost:46656"
                        "0.17.0";
     network_exists := true; network_file := network |}.

Definition hash : string := "0123456789abcdef0123456789abcdef01234567".

Definition node_a : string := "a.example:46657".
Definition node_b : string := "b.example:46657".

(** Start-up on an initialised directory, with the renderer booted: [main]
    ends up waiting for the gateway, child 2. *)
Definition startup : list Event :=
  [EvDirReady; EvStdout 0 "0.17.0";
   EvStderr 1 "ERROR: already is initialized"; EvAppReady; EvBooted].

Definition serving : Event := EvStdout 2 "Serving on 127.0.0.1:8998".

Definition awaiting_gateway : State :=
  fst (steps cfg startup (initial_state disk)).

Definition connected : State :=
  fst (steps cfg (startup ++ [serving]) (initial_state disk)).

Definition connected_zero : State :=
  fst (steps cfg_zero (startup ++ [serving]) (initial_state disk)).

(** A reconnect request in the connected state. *)
Definition reconnecting : State := fst (step cfg EvReconnect connected).

(** The gateway prints something else and exits before it serves. *)
Definition early_exit : State * list Action :=
  steps cfg (startup ++ [EvStdout 2 "starting"; EvExit 2 1])
    (initial_state disk).

(** Start-up with an empty seed list, up to the answer of [gaia version]. *)
Definition no_seeds_run : State * list Action :=
  steps cfg [EvDirReady; EvStdout 0 "0.17.0"] (initial_state disk_no_seeds).

(** Start-up with an lcd directory that is not initialised yet: the init
    child, child 2, prints the hash of the node and [main] waits for the
    verdict. *)
Definition handshake : list Event :=
  [EvDirReady; EvStdout 0 "0.17.0";
   EvStderr 1 ("ERROR: " ++ dquote ++ "--chain-id" ++ dquote ++ " required");
   EvStdout 2 ("hash: " ++ hash)].

Definition awaiting_trust : State :=
  fst (steps cfg_zero handshake (initial_state disk)).

Definition init_cmd (node : string) : Command :=
  CmdInit (lcdHome cfg) (PropValue (JString "gaia-6002")) (Some node).

Definition request : TrustRequest :=
  {| tr_child := 2; tr_hash := hash;
     tr_chainId := PropValue (JString "gaia-6002"); tr_home := lcdHome cfg |}.

End Sample.

(** * Vocabulary of the properties *)

Definition has_colon (s : string) : bool := includes s ":".

(** The same disk with another network directory. *)
Definition with_network (ne : bool) (nf : Artifact -> option string) (d : Disk)
  : Disk :=
  {| root_exists := root_exists d; root_file := root_file d;
     network_exists := ne; network_file := nf |}.

(** A handler body, or a step, that leaves the part [proj] of the state as it
    is. *)
Definition keeps {X A} (proj : State -> X) (m : M A) : Prop :=
  forall s, proj (fst (fst (m s))) = proj s.

Definition step_keeps {X} (proj : State -> X) (f : Step) : Prop :=
  forall s, proj (fst (f s)) = proj s.

(** A handler body, or a step, all of whose actions satisfy [P]. *)
Definition emits {A} (P : Action -> Prop) (m : M A) : Prop :=
  forall s, Forall P (snd (fst (m s))).

Definition step_emits (P : Action -> Prop) (f : Step) : Prop :=
  forall s, Forall P (snd (f s)).

Definition no_stdin_write (a : Action) : Prop :=
  match a with
  | AStdinWrite _ _ => False
  | _ => True
  end.

(** The control state of the supervisor: the [connecting] flag and who is
    suspended where. *)
Definition control (s : State) : bool * list ReconnectTask * MainTask :=
  (connecting s, reconnects s, main_task s).

(** Who is suspended: the calls of [reconnect] and [main]. *)
Definition pending (s : State) : list ReconnectTask * MainTask :=
  (reconnects s, main_task s).

(** Before [main] has returned from [connect] the flag is set and nobody is
    reconnecting; afterwards at most one call of [reconnect] is suspended, and
    none while the flag is clear. *)
Definition Inv (s : State) : Prop :=
  (List.length (reconnects s) <= 1)%nat
  /\ (connecting s = false -> reconnects s = [])
  /\ (main_task s <> MainDone -> connecting s = true /\ reconnects s = []).

(** A stretch of [main]: it leaves the suspended reconnects alone and clears
    the flag only by returning from [connect]. *)
Definition main_ok (m : M MainTask) : Prop :=
  forall s,
    match m s with
    | (s', _, r) =>
        reconnects s' = reconnects s
        /\ (connecting s' = connecting s
            \/ (connecting s' = false /\ r = Ok MainDone))
    end.

(** A stretch of [reconnect]: it leaves the other suspended calls alone, and
    if it suspends again the flag is as before. *)
Definition reconnect_ok (m : M (option ReconnectTask)) : Prop :=
  forall s,
    match m s with
    | (s', _, r) =>
        pending s' = pending s
        /\ (forall t, r = Ok (Some t) -> connecting s' = connecting s)
    end.

(** The state after a call of [pickNode]. *)
Definition drawn (cfg : Config) (s : State) : State :=
  match node_override cfg with
  | Some _ => s
  | None => set_rand_ix (S (rand_ix s)) s
  end.

(** The index into [Math.random] after [j] calls of [pickNode]. *)
Definition draw_ix (cfg : Config) (i j : nat) : nat :=
  match node_override cfg with
  | Some _ => i
  | None => i + j
  end.

(** [j] failed probes, each followed by the end of the back-off. *)
Fixpoint retries (j : nat) : list Event :=
  match j with
  | O => []
  | S j' => EvProbe 0 false :: EvTimer 0 :: retries j'
  end.

(** What the loop does for the probes [from], ..., [from + j - 1]. *)
Fixpoint retry_actions (node : nat -> string) (from j : nat) : list Action :=
  match j with
  | O => []
  | S j' =>
      ASleep 2000 :: AGet ("http://" ++ node from) 3000
      :: retry_actions node (S from) j'
  end.

(** The supervisor is connected and idle, the renderer is up. *)
Definition connected_idle (s : State) (gateway : pid) : Prop :=
  ipc_ready s = true /\ connecting s = false /\ reconnects s = []
  /\ main_task s = MainDone /\ lcdProcess s = LcdChild gateway
  /\ booted s = true /\ mainWindow s = WinOpen
  /\ lookup_child (next_pid s) (children s) = None.

(** The states of a reconnect started in [s], after [j] calls of [pickNode]:
    in the loop, waiting for the new gateway, and done. *)
Definition looping (cfg : Config) (s : State) (tasks : list ReconnectTask)
    (j : nat) : State :=
  set_reconnects tasks
    (set_rand_ix (draw_ix cfg (rand_ix s) j) (set_connecting true s)).

Definition gateway_cmd (cfg : Config) (s : State) : Command :=
  CmdRestServer (LCD_PORT cfg) (lcdHome cfg) (nodeIP s).

Definition restarting (cfg : Config) (s : State) (j : nat) : State :=
  set_children (children s ++ [(next_pid s, gateway_cmd cfg s)])%list
    (set_next_pid (S (next_pid s))
       (looping cfg s [RcConnecting (next_pid s) (nodeIP s)] j)).

Definition reconnected (cfg : Config) (s : State) (j : nat) : State :=
  set_reconnects []
    (set_connecting false
       (set_lcdProcess (LcdChild (next_pid s)) (restarting cfg s j))).

(** Every event but a stdout chunk of child [p] that holds the marker. *)
Definition quiet (p : pid) (e : Event) : bool :=
  match e with
  | EvStdout q data => negb ((q =? p)%nat && includes data "Serving on")
  | _ => true
  end.

(** [main] is suspended in [connect], waiting for the gateway [p]. *)
Definition waiting (p : pid) (node : option string) (s : State) : Prop :=
  main_task s = MainAwaitConnect p node.

(** ** Further vocabulary *)

(** Every character of [s] is a word character. *)
Fixpoint all_word (s : string) : bool :=
  match s with
  | EmptyString => true
  | String c rest => is_word c && all_word rest
  end.

(** [l.join(",")] *)
Fixpoint join_commas (l : list string) : string :=
  match l with
  | [] => EmptyString
  | [x] => x
  | x :: rest => x ++ String "," (join_commas rest)
  end.

Definition has_comma (s : string) : bool := includes s ",".

(** A seed as [parse_seeds] keeps it: not empty, without a comma. *)
Definition plain_seed (x : string) : Prop :=
  x <> EmptyString /\ has_comma x = false.

(** [s] contains the character [c]. *)
Definition has_char (c : ascii) (s : string) : bool :=
  includes s (String c EmptyString).

(** The supervisor can no longer connect: the flag is set, no call of
    [reconnect] is suspended, and [main] has returned or failed. *)
Definition locked (s : State) : Prop :=
  connecting s = true /\ reconnects s = []
  /\ (main_task s = MainDone \/ exists e, main_task s = MainFailed e).

Definition no_gateway_spawn (a : Action) : Prop :=
  match a with
  | ASpawn _ (CmdRestServer _ _ _) => False
  | _ => True
  end.

(** A predicate on actions that holds of every message to the renderer and of
    every unhandled exception. *)
Definition admits_reports (P : Action -> Prop) : Prop :=
  (forall m, P (ASend m)) /\ (forall e, P (AUncaught e)).

(** A step that leaves the control state alone and spawns no gateway. *)
Definition quiet_step (f : Step) (s : State) : Prop :=
  control (fst (f s)) = control s /\ Forall no_gateway_spawn (snd (f s)).

Definition no_spawn (a : Action) : Prop :=
  match a with
  | ASpawn _ _ => False
  | _ => True
  end.

(** A handler body that leaves [shuttingDown] alone and writes to no child. *)
Definition tame {A} (m : M A) : Prop :=
  keeps shuttingDown m /\ emits no_stdin_write m.

Definition step_tame (f : Step) : Prop :=
  step_keeps shuttingDown f /\ step_emits no_stdin_write f.

(** The app is shutting down after the step and nothing was written to a
    child. *)
Definition shut_step (f : Step) (s : State) : Prop :=
  shuttingDown (fst (f s)) = true /\ Forall no_stdin_write (snd (f s)).

(** The answer of the renderer to "approve-hash": the approved hash, or
    [None] for a disapproval. *)
Definition verdict (answer : option string) : Event :=
  match answer with
  | Some hash => EvHashApproved hash
  | None => EvHashDisapproved
  end.

(** [n] is the address [pickNode] builds from the override or from a member
    of [pool]. *)
Definition from_pool (cfg : Config) (pool : option (list string))
    (n : option string) : Prop :=
  exists x, n = Some (rpc_address x)
            /\ (node_override cfg = Some x
                \/ exists l, pool = Some l /\ In x l).

(** A gateway is spawned only with the configured port and home and a node
    from the pool. *)
Definition gateway_ok (cfg : Config) (pool : option (list string))
    (a : Action) : Prop :=
  match a with
  | ASpawn _ (CmdRestServer port home node) =>
      port = LCD_PORT cfg /\ home = lcdHome cfg /\ from_pool cfg pool node
  | _ => True
  end.

(** [main] has not picked a node yet, or has failed. *)
Definition early (t : MainTask) : Prop :=
  match t with
  | MainAwaitDir | MainAwaitVersion _ _ | MainFailed _ => True
  | _ => False
  end.

Definition node_known (cfg : Config) (s : State) : Prop :=
  from_pool cfg (seeds s) (nodeIP s) \/ early (main_task s).

Definition picking (s : State) : option string * option (list string) :=
  (nodeIP s, seeds s).

Definition heading (s : State)
  : option string * option (list string) * MainTask :=
  (nodeIP s, seeds s, main_task s).

Definition offspring (s : State) : list (pid * Command) * list TrustRequest :=
  (children s, trust_requests s).

(** A supervisor that failed before it spawned anything. *)
Definition dormant (s : State) : Prop :=
  locked s /\ children s = [] /\ trust_requests s = [].

(** A step that leaves the control state and the children alone and spawns
    nothing. *)
Definition still_step (f : Step) (s : State) : Prop :=
  control (fst (f s)) = control s
  /\ offspring (fst (f s)) = offspring s
  /\ Forall no_spawn (snd (f s)).

(** ** Further configurations and states *)

Module Cases.

(** A data directory that lost its app_version file. *)
Definition disk_missing : Disk :=
  {| root_exists := true;
     root_file := fun a =>
       match a with
       | app_version => None
       | _ => root_file Sample.disk a
       end;
     network_exists := true; network_file := Sample.network |}.

(** No data directory yet. *)
Definition disk_fresh : Disk :=
  {| root_exists := false; root_file := fun _ => None;
     network_exists := true; network_file := Sample.network |}.

Definition pool : list string := ["a.example:46656"; "b.example:46656"].

(** The third spawn, the one of the gateway, throws. *)
Definition cfg_no_gateway : Config :=
  {| NODE := None; TEST := false; LCD_PORT := 8998;
     root := root Sample.cfg; lcdHome := lcdHome Sample.cfg;
     pkg_version := pkg_version Sample.cfg;
     Math_random := fun _ => 0%Q;
     spawn_throws := fun p => (p =? 2)%nat;
     JSON_parse := Sample.parse; semver_diff := Sample.diff;
     toml_p2p_seeds := Sample.p2p_seeds |}.

(** [main] waits for the output of [gaia version], child 0. *)
Definition awaiting_version : State :=
  fst (steps Sample.cfg [EvDirReady] (initial_state Sample.disk)).

(** [main] waits for the stderr output of [lcdInitialized], child 1. *)
Definition awaiting_initcheck : State :=
  fst (steps Sample.cfg [EvDirReady; EvStdout 0 "0.17.0"]
         (initial_state Sample.disk)).

(** The same with a booted renderer, where the gateway cannot be spawned. *)
Definition awaiting_initcheck_no_gateway : State :=
  fst (steps cfg_no_gateway
         [EvDirReady; EvStdout 0 "0.17.0"; EvAppReady; EvBooted]
         (initial_state Sample.disk)).

(** The start-up failed on an empty seed list. *)
Definition failed : State := fst Sample.no_seeds_run.

(** The gateway served and exited before the renderer has booted. *)
Definition unbooted : State :=
  fst (steps Sample.cfg
         [EvDirReady; EvStdout 0 "0.17.0";
          EvStderr 1 "ERROR: already is initialized"; EvAppReady;
          Sample.serving; EvExit 2 1]
         (initial_state Sample.disk)).

(** The gateway could not be spawned, [connect] returned all the same, and
    the renderer asked for a reconnect: the probe is under way and no gateway
    is held. *)
Definition reconnecting_no_gateway : State :=
  fst (steps cfg_no_gateway
         [EvDirReady; EvStdout 0 "0.17.0"; EvAppReady; EvBooted;
          EvStderr 1 "ERROR: already is initialized"; EvReconnect]
         (initial_state Sample.disk)).

(** The hash was approved, then the app began to shut down: [main] still
    waits for the init child, child 2, to exit. *)
Definition approved_shutting_down : State :=
  fst (steps Sample.cfg_zero
         (Sample.handshake ++ [EvHashApproved Sample.hash; EvProcessExit])
         (initial_state Sample.disk)).

End Cases.

(** * Properties *)

(** ** pickNode *)

Lemma split_head_no_sep (host rest : string) :
  has_colon host = false ->
  hd EmptyString (split ":" (host ++ String ":" rest)) = host.
Proof.
  induction host as [|c host IH]; intro Hc.
  - reflexivity.
  - cbn [append split].
    unfold has_colon in Hc. cbn [includes prefix] in Hc.
    destruct (ascii_dec ":" c) as [Heq|Hne].
    + destruct host; discriminate Hc.
    + assert (Hcs : Ascii.eqb c ":" = false)
        by (apply Ascii.eqb_neq; congruence).
      rewrite Hcs.
      assert (Hh : has_colon host = false).
      { unfold has_colon. destruct host; [reflexivity | exact Hc]. }
      specialize (IH Hh).
      destruct (split ":" (host ++ String ":" rest)) as [|h t]; cbn in *;
        congruence.
Qed.

Lemma rpc_address_replaces_port (host port : string) :
  has_colon host = false ->
  rpc_address (host ++ ":" ++ port) = host ++ ":46657".
Proof.
  intro Hc. unfold rpc_address.
  change (host ++ ":" ++ port) with (host ++ String ":" port).
  now rewrite split_head_no_sep.
Qed.

Lemma random_seed_member (r : Q) (pool : list string) :
  pool <> [] -> (0 <= r)%Q -> (r < 1)%Q ->
  exists s, In s pool /\ random_seed r (Some pool) = Some s.
Proof.
  intros Hne H0 H1. unfold random_seed.
  set (n := Z.of_nat (List.length pool)).
  assert (Hn : (0 < n)%Z).
  { destruct pool; [congruence | subst n; cbn [List.length]; lia]. }
  set (i := Qfloor (r * inject_Z n)).
  assert (Hlo : (0 <= i)%Z).
  { subst i. rewrite <- (Qfloor_Z 0). apply Qfloor_resp_le.
    apply Qmult_le_0_compat; [exact H0 |].
    change 0%Q with (inject_Z 0). rewrite <- Zle_Qle. lia. }
  assert (Hhi : (i < n)%Z).
  { rewrite Zlt_Qlt. apply Qle_lt_trans with (r * inject_Z n)%Q.
    - subst i. apply Qfloor_le.
    - rewrite <- (Qmult_1_l (inject_Z n)) at 2.
      apply Qmult_lt_compat_r; [| exact H1].
      change 0%Q with (inject_Z 0). rewrite <- Zlt_Qlt. exact Hn. }
  destruct (i <? 0)%Z eqn:Hneg; [apply Z.ltb_lt in Hneg; lia |].
  destruct (nth_error pool (Z.to_nat i)) as [s|] eqn:Hnth.
  - exists s. split; [eapply nth_error_In; eassumption | reflexivity].
  - apply nth_error_None in Hnth. subst n. lia.
Qed.

Lemma node_override_some (cfg : Config) (n : string) :
  NODE cfg = Some n -> n <> EmptyString -> node_override cfg = Some n.
Proof.
  intros HN Hne. unfold node_override. rewrite HN.
  destruct (String.eqb_spec n EmptyString); congruence.
Qed.

(** C5.  With a forced node override (a non-empty COSMOS_NODE), [pickNode]
    returns that node whatever the pool and the random draw are; without one
    it returns a member of the (non-empty) pool.  In both cases what follows
    the first colon of the chosen address is replaced by the RPC port 46657. *)
Theorem pickNode_override_or_member
    (cfg : Config) (r : Q) (pool : list string) :
  pool <> [] -> (0 <= r)%Q -> (r < 1)%Q ->
  (forall n, NODE cfg = Some n -> n <> EmptyString ->
     forall any_r any_pool, pickNode cfg any_r any_pool = Some (rpc_address n))
  /\ (node_override cfg = None ->
      exists s, In s pool /\ pickNode cfg r (Some pool) = Some (rpc_address s))
  /\ (forall host port, has_colon host = false ->
      rpc_address (host ++ ":" ++ port) = host ++ ":46657").
Proof.
  intros Hne H0 H1. split; [| split].
  - intros n HN Hn any_r any_pool. unfold pickNode.
    now rewrite (node_override_some cfg n HN Hn).
  - intro Hov. unfold pickNode. rewrite Hov.
    destruct (random_seed_member r pool Hne H0 H1) as (s & Hin & Hs).
    exists s. split; [exact Hin | now rewrite Hs].
  - intros host port. apply rpc_address_replaces_port.
Qed.

(** ** The data directory checks of main *)

Lemma ensureDir_existing (d : Disk) : root_exists d = true -> ensureDir d = d.
Proof. intro H. unfold ensureDir. now rewrite H. Qed.

Lemma check_app_version_network (cfg : Config) ne nf (d : Disk) :
  check_app_version cfg (with_network ne nf d) = check_app_version cfg d.
Proof. reflexivity. Qed.

(** When the root exists and the version block passes, only the genesis
    block decides. *)
Lemma prepare_directory_existing (cfg : Config) (d : Disk) :
  root_exists d = true ->
  check_app_version cfg d = Ok false ->
  prepare_directory cfg d =
    (match check_genesis cfg d with Ok _ => Ok false | Throw e => Throw e end, d).
Proof.
  intros Hroot Hver. unfold prepare_directory.
  rewrite (ensureDir_existing d Hroot), Hroot, Hver. cbn.
  now destruct (check_genesis cfg d).
Qed.

Lemma prepare_directory_version_error (cfg : Config) (d : Disk) (e : JsError) :
  root_exists d = true ->
  check_app_version cfg d = Throw e ->
  prepare_directory cfg d = (Throw e, d).
Proof.
  intros Hroot Hver. unfold prepare_directory.
  now rewrite (ensureDir_existing d Hroot), Hroot, Hver.
Qed.


(** C6.  In an existing data directory that passed the version block, with a
    stored genesis that parses: if its chain id is "local" the directory check
    succeeds whatever the network directory holds (the canonical genesis is
    not even read); for any other chain id the check succeeds when the stored
    and the canonical genesis are equal after [trim], and throws "Genesis has
    changed" when they differ. *)
Theorem genesis_check
    (cfg : Config) (d : Disk) (existing : string) (genesisJSON : Json) :
  root_exists d = true ->
  check_app_version cfg d = Ok false ->
  root_file d genesis_json = Some existing ->
  JSON_parse cfg existing = Some genesisJSON ->
  get_prop genesisJSON "chain_id" <> PropThrows ->
  (is_string_value (get_prop genesisJSON "chain_id") "local" = true ->
   forall ne nf,
     prepare_directory cfg (with_network ne nf d) = (Ok false, with_network ne nf d))
  /\ (is_string_value (get_prop genesisJSON "chain_id") "local" = false ->
      forall canonical,
        network_file d genesis_json = Some canonical ->
        (trim existing = trim canonical ->
         prepare_directory cfg d = (Ok false, d))
        /\ (trim existing <> trim canonical ->
            prepare_directory cfg d = (Throw (Error "Genesis has changed"), d))).
Proof.
  intros Hroot Hver Hgen Hparse Hprop. split.
  - intros Hlocal ne nf.
    rewrite prepare_directory_existing;
      [| exact Hroot | now rewrite check_app_version_network].
    unfold check_genesis, readFileSync. cbn [with_network root_file].
    rewrite Hgen, Hparse.
    destruct (get_prop genesisJSON "chain_id") eqn:E;
      [congruence | discriminate Hlocal |].
    now rewrite Hlocal.
  - intros Hother canonical Hcanon.
    rewrite (prepare_directory_existing cfg d Hroot Hver).
    unfold check_genesis, readFileSync. rewrite Hgen, Hparse, Hcanon.
    destruct (get_prop genesisJSON "chain_id") eqn:E; [congruence | |];
      rewrite Hother; cbn [negb];
      (split; intro Hcmp;
       [ apply String.eqb_eq in Hcmp | apply String.eqb_neq in Hcmp ];
       now rewrite Hcmp).
Qed.


(** ** Startup: from the directory check to the seed list *)

(** [main] resumed after its first await: handleIPC, the directory checks and
    the spawn of [gaia version]. *)
Lemma step_dir_ready (cfg : Config) (d d' : Disk) (init : bool) :
  prepare_directory cfg d = (Ok init, d') ->
  spawn_throws cfg 0 = false ->
  step cfg EvDirReady (initial_state d) =
    (set_main_task (MainAwaitVersion 0 init)
       (set_children [(0, CmdVersion)]
          (set_next_pid 1 (set_disk d' (set_ipc_ready true (initial_state d))))),
     [ASpawn 0 CmdVersion]).
Proof.
  intros Hprep Hspawn.
  unfold step. cbn [initial_state main_task].
  unfold run_main, run, main_after_ensureDir, bind, modify, get, lift,
    startProcess, ret, emit.
  cbn [initial_state main_task disk set_ipc_ready].
  rewrite Hprep. cbn. now rewrite Hspawn.
Qed.

(** With an empty seed list [main] throws right after assigning [seeds]. *)
Lemma main_after_version_no_seeds
    (cfg : Config) (s : State) (init : bool)
    (data expected genesisText configText seedsText : string) (genesis : Json) :
  root_file (disk s) gaiaversion_txt = Some expected ->
  trim data = trim expected ->
  root_file (disk s) genesis_json = Some genesisText ->
  JSON_parse cfg genesisText = Some genesis ->
  get_prop genesis "chain_id" <> PropThrows ->
  root_file (disk s) config_toml = Some configText ->
  toml_p2p_seeds cfg configText = Some seedsText ->
  parse_seeds seedsText = [] ->
  main_after_version cfg init data s = (set_seeds (Some []) s, [], Throw no_seeds).
Proof.
  intros Hgv Hdata Hgen Hparse Hcid Hconf Htoml Hseeds.
  unfold main_after_version, bind, get, lift, lift_option, modify, throw, ret,
    readFileSync.
  rewrite Hgv, Hdata, String.eqb_refl. cbn [negb].
  rewrite Hgen, Hparse.
  destruct (get_prop genesis "chain_id") eqn:E; [congruence | |];
    rewrite Hconf, Htoml, Hseeds; reflexivity.
Qed.

(** C4 (amended).  If the directory check passes, [spawn] works, the gateway
    binary reports the expected version, the genesis parses, and the seed list
    of config.toml is empty, then [main] fails with "No seeds specified in
    config.toml" (queued for the renderer) after exactly one child has been
    spawned, the [gaia version] query, and before any init or gateway child
    is. *)
Theorem empty_seeds_fail_after_version_query
    (cfg : Config) (d d' : Disk) (init : bool)
    (data expected genesisText configText seedsText : string) (genesis : Json) :
  prepare_directory cfg d = (Ok init, d') ->
  spawn_throws cfg 0 = false ->
  root_file d' gaiaversion_txt = Some expected ->
  trim data = trim expected ->
  root_file d' genesis_json = Some genesisText ->
  JSON_parse cfg genesisText = Some genesis ->
  get_prop genesis "chain_id" <> PropThrows ->
  root_file d' config_toml = Some configText ->
  toml_p2p_seeds cfg configText = Some seedsText ->
  parse_seeds seedsText = [] ->
  snd (step cfg EvDirReady (initial_state d)) = [ASpawn 0 CmdVersion]
  /\ main_task (fst (step cfg EvDirReady (initial_state d))) = MainAwaitVersion 0 init
  /\ let r := steps cfg [EvDirReady; EvStdout 0 data] (initial_state d) in
     main_task (fst r) = MainFailed no_seeds
     /\ snd r = [ASpawn 0 CmdVersion]
     /\ children (fst r) = [(0, CmdVersion)]
     /\ booted_queue (fst r) = [MsgError no_seeds].
Proof.
  intros Hprep Hspawn Hgv Hdata Hgen Hparse Hcid Hconf Htoml Hseeds.
  rewrite (step_dir_ready cfg d d' init Hprep Hspawn).
  split; [reflexivity | split; [reflexivity |]].
  unfold steps, and_then.
  rewrite (step_dir_ready cfg d d' init Hprep Hspawn).
  unfold step, on_stdout.
  cbn [children set_main_task set_children lookup_child Nat.eqb main_task].
  unfold run_main, run.
  erewrite main_after_version_no_seeds by (cbn; eassumption).
  cbn. repeat split.
Qed.


(** ** Frame conditions: what a handler leaves alone *)

Section Frames.

Context {X : Type} (proj : State -> X).

Lemma keeps_ret {A} (a : A) : keeps proj (ret a).
Proof. now intro s. Qed.

Lemma keeps_throw {A} (e : JsError) : keeps proj (@throw A e).
Proof. now intro s. Qed.

Lemma keeps_get {A} (f : State -> A) : keeps proj (get f).
Proof. now intro s. Qed.

Lemma keeps_emit (a : Action) : keeps proj (emit a).
Proof. now intro s. Qed.

Lemma keeps_lift {A} (r : Result A) : keeps proj (lift r).
Proof. now intro s. Qed.

Lemma keeps_lift_option {A} (e : JsError) (o : option A) : keeps proj (lift_option e o).
Proof. destruct o; now intro s. Qed.

Lemma keeps_modify (f : State -> State) :
  (forall s, proj (f s) = proj s) -> keeps proj (modify f).
Proof. intros H s. apply H. Qed.

Lemma keeps_bind {A B} (m : M A) (k : A -> M B) :
  keeps proj m -> (forall a, keeps proj (k a)) -> keeps proj (bind m k).
Proof.
  intros Hm Hk s. unfold bind. specialize (Hm s).
  destruct (m s) as [[s1 a1] [a|e]]; cbn in *; [| exact Hm].
  specialize (Hk a s1). destruct (k a s1) as [[s2 a2] r]; cbn in *. congruence.
Qed.

Lemma keeps_catch {A} (m : M A) (h : JsError -> M A) :
  keeps proj m -> (forall e, keeps proj (h e)) -> keeps proj (catch m h).
Proof.
  intros Hm Hh s. unfold catch. specialize (Hm s).
  destruct (m s) as [[s1 a1] [a|e]]; cbn in *; [exact Hm |].
  specialize (Hh e s1). destruct (h e s1) as [[s2 a2] r]; cbn in *. congruence.
Qed.

Lemma step_keeps_done : step_keeps proj done.
Proof. now intro s. Qed.

Lemma step_keeps_and_then (f g : Step) :
  step_keeps proj f -> step_keeps proj g -> step_keeps proj (and_then f g).
Proof.
  intros Hf Hg s. unfold and_then. specialize (Hf s).
  destruct (f s) as [s1 a1]. specialize (Hg s1).
  destruct (g s1) as [s2 a2]. cbn in *. congruence.
Qed.

Lemma step_keeps_run {A} (m : M A) (k : A -> Step) (h : JsError -> Step) :
  keeps proj m ->
  (forall a, step_keeps proj (k a)) -> (forall e, step_keeps proj (h e)) ->
  step_keeps proj (run m k h).
Proof.
  intros Hm Hk Hh s. unfold run. specialize (Hm s).
  destruct (m s) as [[s1 a1] [a|e]]; cbn in *.
  - specialize (Hk a s1). destruct (k a s1). cbn in *. congruence.
  - specialize (Hh e s1). destruct (h e s1). cbn in *. congruence.
Qed.

Lemma step_keeps_for_each {A} (f : A -> Step) (l : list A) :
  (forall a, step_keeps proj (f a)) -> step_keeps proj (for_each f l).
Proof.
  intro Hf. induction l as [|a l IH]; cbn [for_each].
  - apply step_keeps_done.
  - apply step_keeps_and_then; auto.
Qed.

End Frames.

(** Solves [keeps proj m] for handler bodies built from the primitives, once
    the setters involved are seen not to touch [proj]. *)
Ltac frame :=
  repeat first
    [ apply keeps_ret | apply keeps_throw | apply keeps_get | apply keeps_emit
    | apply keeps_lift | apply keeps_lift_option
    | apply keeps_modify; intro; reflexivity
    | apply keeps_bind; [| intro]
    | apply keeps_catch; [| intro]
    | match goal with
      | |- keeps _ (match ?x with _ => _ end) => destruct x
      | |- keeps _ (if ?x then _ else _) => destruct x
      end ].

Section ControlFrames.

Variable cfg : Config.

Lemma keeps_send {X} (proj : State -> X) (m : UiMessage) : keeps proj (send m).
Proof. unfold send. frame. Qed.

Lemma keeps_afterBooted (m : UiMessage) : keeps control (afterBooted m).
Proof. unfold afterBooted. frame. Qed.

Lemma keeps_handleCrash (e : JsError) : keeps control (handleCrash e).
Proof. apply keeps_afterBooted. Qed.

Lemma keeps_startProcess (cmd : Command) : keeps control (startProcess cfg cmd).
Proof. unfold startProcess. frame. Qed.

Lemma keeps_pick (sd : option (list string)) : keeps control (pick cfg sd).
Proof. unfold pick. frame. Qed.

Lemma keeps_shutdown : keeps control shutdown.
Proof. unfold shutdown. frame. Qed.

Lemma keeps_on_init_stdout p home chainId data :
  keeps control (on_init_stdout p home chainId data).
Proof. unfold on_init_stdout. frame. Qed.

Lemma keeps_on_trust_approved req : keeps control (on_trust_approved req).
Proof. unfold on_trust_approved. frame. Qed.

Lemma keeps_on_trust_rejected req : keeps control (on_trust_rejected cfg req).
Proof.
  unfold on_trust_rejected. frame.
Qed.

Lemma keeps_flush q : keeps control (flush q).
Proof.
  induction q as [|m q IH]; cbn [flush]; frame; exact IH.
Qed.

Lemma step_keeps_uncaught e : step_keeps control (uncaught cfg e).
Proof.
  intro s. unfold uncaught. destruct (TEST cfg); [reflexivity |].
  pose proof (keeps_handleCrash e s) as H.
  destruct (handleCrash e s) as [[s1 a1] [u|e']]; exact H.
Qed.

Lemma step_keeps_listener (m : M unit) :
  keeps control m -> step_keeps control (listener cfg m).
Proof.
  intro Hm. unfold listener. apply step_keeps_run; [exact Hm | |].
  - intro. apply step_keeps_done.
  - apply step_keeps_uncaught.
Qed.

End ControlFrames.


(** ** The single-reconnect invariant *)

Lemma Inv_initial (d : Disk) : Inv (initial_state d).
Proof. repeat split; cbn; auto; discriminate. Qed.

Lemma Inv_control (s s' : State) : control s' = control s -> Inv s -> Inv s'.
Proof.
  unfold control, Inv. intros H. injection H as Hc Hr Hm.
  now rewrite Hc, Hr, Hm.
Qed.

Lemma Inv_waiting (s : State) :
  connecting s = true -> reconnects s = [] -> Inv s.
Proof. intros Hc Hr. repeat split; rewrite ?Hr; cbn; auto; congruence. Qed.

Lemma Inv_done (s : State) :
  main_task s = MainDone ->
  (List.length (reconnects s) <= 1)%nat ->
  (connecting s = false -> reconnects s = []) ->
  Inv s.
Proof. intros Hm Hl Hc. repeat split; auto; congruence. Qed.

Section Invariant.

Variable cfg : Config.

Lemma step_keeps_Inv (f : Step) (s : State) :
  step_keeps control f -> Inv s -> Inv (fst (f s)).
Proof. intros Hf. apply Inv_control, Hf. Qed.

(** [connect_finish] clears the flag exactly when it returns. *)
Lemma connect_finish_effect child node s :
  match connect_finish child node s with
  | (s', _, Ok _) => pending s' = pending s /\ connecting s' = false
  | (s', _, Throw _) => pending s' = pending s /\ connecting s' = connecting s
  end.
Proof.
  unfold connect_finish, afterBooted, send, bind, modify, get, emit, throw.
  cbn. destruct (booted s); cbn; [destruct (mainWindow s) |]; cbn; auto.
Qed.

Lemma startProcess_eq cmd s :
  startProcess cfg cmd s =
    if spawn_throws cfg (next_pid s)
    then (set_next_pid (S (next_pid s)) s, [], Throw SpawnFailed)
    else (set_children (children s ++ [(next_pid s, cmd)])%list
            (set_next_pid (S (next_pid s)) s),
          [ASpawn (next_pid s) cmd], Ok (next_pid s)).
Proof.
  unfold startProcess, bind, modify, get, emit, throw, ret. cbn.
  now destruct (spawn_throws cfg (next_pid s)).
Qed.

Lemma connect_eq node s :
  connect cfg node s =
    if spawn_throws cfg (next_pid s)
    then match connect_finish LcdUndefined node (set_next_pid (S (next_pid s)) s) with
         | (s', acts, Ok _) => (s', acts, Ok None)
         | (s', acts, Throw e) => (s', acts, Throw e)
         end
    else (set_children
            (children s ++ [(next_pid s,
                             CmdRestServer (LCD_PORT cfg) (lcdHome cfg) node)])%list
            (set_next_pid (S (next_pid s)) s),
          [ASpawn (next_pid s) (CmdRestServer (LCD_PORT cfg) (lcdHome cfg) node)],
          Ok (Some (next_pid s))).
Proof.
  unfold connect, catch, startLCD. unfold bind at 1 2. rewrite startProcess_eq.
  destruct (spawn_throws cfg (next_pid s)); [| reflexivity].
  cbn [ret app]. unfold bind at 1.
  destruct (connect_finish LcdUndefined node (set_next_pid (S (next_pid s)) s))
    as [[s1 a1] [u|e]]; cbn; rewrite ?app_nil_r; reflexivity.
Qed.

Lemma connect_effect node s :
  match connect cfg node s with
  | (s', _, Ok None) => pending s' = pending s /\ connecting s' = false
  | (s', _, _) => pending s' = pending s /\ connecting s' = connecting s
  end.
Proof.
  rewrite connect_eq.
  destruct (spawn_throws cfg (next_pid s)); [| now cbn].
  pose proof (connect_finish_effect LcdUndefined node
                (set_next_pid (S (next_pid s)) s)) as H.
  destruct (connect_finish LcdUndefined node (set_next_pid (S (next_pid s)) s))
    as [[s1 a1] [u|e]]; exact H.
Qed.

Lemma bind_ret {A B} (a : A) (k : A -> M B) (s : State) :
  bind (ret a) k s = k a s.
Proof. unfold bind, ret. now destruct (k a s) as [[s2 a2] r]. Qed.

Lemma main_ok_keeps (m : M MainTask) : keeps control m -> main_ok m.
Proof.
  intros H s. specialize (H s). destruct (m s) as [[s' acts] r].
  unfold control in H. cbn in H. injection H as Hc Hr _. auto.
Qed.

Lemma main_ok_connect : main_ok (main_connect cfg).
Proof.
  intro s. unfold main_connect, bind, get. cbn.
  pose proof (connect_effect (nodeIP s) s) as H.
  destruct (connect cfg (nodeIP s) s) as [[s1 a1] [[p|]|e]]; cbn;
    unfold pending in H; destruct H as [Hp Hc]; injection Hp as Hr _; auto.
Qed.

Lemma main_ok_finish p node :
  main_ok (connect_finish (LcdChild p) node ;; ret MainDone).
Proof.
  intro s. unfold bind at 1.
  pose proof (connect_finish_effect (LcdChild p) node s) as H.
  destruct (connect_finish (LcdChild p) node s) as [[s1 a1] [u|e]]; cbn;
    unfold pending in H; destruct H as [Hp Hc]; injection Hp as Hr _; auto.
Qed.

Lemma keeps_main_after_ensureDir : keeps control (main_after_ensureDir cfg).
Proof.
  unfold main_after_ensureDir. frame.
Qed.

Lemma keeps_main_after_version init data :
  keeps control (main_after_version cfg init data).
Proof. unfold main_after_version. frame. Qed.

Lemma main_ok_after_initcheck init chainId data :
  main_ok (main_after_initcheck cfg init chainId data).
Proof.
  assert (Hinit : main_ok (node <- get nodeIP ;;
                           initLCD cfg chainId (lcdHome cfg) node ;;
                           ret MainAwaitInitLCD))
    by (apply main_ok_keeps; frame).
  unfold main_after_initcheck. intro s.
  destruct (lcdInitialized_settles data) as [[|]|e].
  - change (lift (Ok true)) with (@ret bool true). rewrite bind_ret.
    destruct init; cbn [orb negb]; [apply Hinit | apply main_ok_connect].
  - change (lift (Ok false)) with (@ret bool false). rewrite bind_ret.
    rewrite orb_true_r. apply Hinit.
  - cbn. auto.
Qed.

Lemma main_failed_Inv e s :
  connecting s = true -> reconnects s = [] -> Inv (fst (main_failed cfg e s)).
Proof.
  intros Hconn Hrec. unfold main_failed.
  apply step_keeps_Inv.
  - apply step_keeps_listener, keeps_handleCrash.
  - now apply Inv_waiting.
Qed.

Lemma run_main_Inv m s :
  main_ok m -> Inv s -> main_task s <> MainDone -> Inv (fst (run_main cfg m s)).
Proof.
  intros Hm HI Hrun. pose proof HI as (Hlen & Hc & Hmt).
  destruct (Hmt Hrun) as [Hconn Hrec].
  unfold run_main, run. specialize (Hm s).
  destruct (m s) as [[s1 a1] [t|e]]; destruct Hm as [Hr Hcases].
  - cbn. repeat split; cbn; rewrite ?Hr, ?Hrec; auto.
    cbn in H. destruct Hcases as [H'|[H' Heq]]; congruence.
  - destruct Hcases as [H|[_ Heq]]; [| discriminate Heq].
    pose proof (main_failed_Inv e s1) as HF.
    destruct (main_failed cfg e s1) as [s2 a2]. cbn in *.
    apply HF; congruence.
Qed.

Lemma settle_init_Inv r s : Inv s -> Inv (fst (settle_init cfg r s)).
Proof.
  intro HI. unfold settle_init.
  destruct (main_task s) eqn:Hmt; try exact HI.
  destruct r as [u|e].
  - apply run_main_Inv; [apply main_ok_connect | exact HI | congruence].
  - destruct HI as (_ & _ & H). destruct H as [Hc Hr]; [congruence |].
    now apply main_failed_Inv.
Qed.

Lemma and_then_Inv (f g : Step) s :
  (forall t, Inv t -> Inv (fst (f t))) -> (forall t, Inv t -> Inv (fst (g t))) ->
  Inv s -> Inv (fst (and_then f g s)).
Proof.
  intros Hf Hg HI. unfold and_then. specialize (Hf s HI).
  destruct (f s) as [s1 a1]. specialize (Hg s1 Hf).
  now destruct (g s1) as [s2 a2].
Qed.

Lemma settle_trust_Inv signal req s :
  Inv s -> Inv (fst (settle_trust cfg signal req s)).
Proof.
  intro HI. unfold settle_trust, run.
  set (m := if handleHashVerification (tr_hash req) signal
            then on_trust_approved req
            else on_trust_rejected cfg req).
  assert (Hk : keeps control m).
  { subst m. destruct (handleHashVerification (tr_hash req) signal);
      [apply keeps_on_trust_approved | apply keeps_on_trust_rejected]. }
  specialize (Hk s). destruct (m s) as [[s1 a1] [u|e]]; cbn in Hk.
  - cbn. eapply Inv_control; eassumption.
  - assert (HI1 : Inv s1) by (eapply Inv_control; eassumption).
    pose proof (settle_init_Inv (Throw e) s1 HI1) as H.
    now destruct (settle_init cfg (Throw e) s1).
Qed.

Lemma on_trust_signal_Inv signal s :
  Inv s -> Inv (fst (on_trust_signal cfg signal s)).
Proof.
  intro HI. unfold on_trust_signal.
  assert (H0 : Inv (set_trust_requests [] s)) by exact HI.
  revert H0. generalize (set_trust_requests [] s).
  induction (trust_requests s) as [|req l IH]; intros t Ht; cbn [for_each].
  - exact Ht.
  - apply and_then_Inv; auto. intros. now apply settle_trust_Inv.
Qed.

Lemma reconnect_ok_keeps m : keeps control m -> reconnect_ok m.
Proof.
  intros H s. specialize (H s). destruct (m s) as [[s' acts] r].
  unfold control in H. cbn in H. injection H as Hc Hr Hm.
  unfold pending. split; [congruence | auto].
Qed.

Lemma reconnect_ok_finish p node :
  reconnect_ok (connect_finish (LcdChild p) node ;; ret None).
Proof.
  intro s. unfold bind at 1.
  pose proof (connect_finish_effect (LcdChild p) node s) as H.
  destruct (connect_finish (LcdChild p) node s) as [[s1 a1] [u|e]]; cbn;
    destruct H as [Hp Hc]; split; auto; discriminate.
Qed.

Lemma reconnect_after_loop_eq s :
  reconnect_after_loop cfg s =
    match lcdProcess s with
    | LcdChild p =>
        match connect cfg (nodeIP s) s with
        | (s', acts, Ok (Some q)) =>
            (s', AKill p SIGKILL :: acts, Ok (Some (RcConnecting q (nodeIP s))))
        | (s', acts, Ok None) => (s', AKill p SIGKILL :: acts, Ok None)
        | (s', acts, Throw e) => (s', AKill p SIGKILL :: acts, Throw e)
        end
    | _ => (s, [], Throw TypeError)
    end.
Proof.
  unfold reconnect_after_loop, bind, get, emit, throw, ret.
  destruct (lcdProcess s); try reflexivity.
  destruct (connect cfg (nodeIP s) s) as [[s1 a1] [[q|]|e]]; cbn;
    rewrite ?app_nil_r; reflexivity.
Qed.

Lemma reconnect_ok_after_loop : reconnect_ok (reconnect_after_loop cfg).
Proof.
  intro s. rewrite reconnect_after_loop_eq.
  destruct (lcdProcess s); try (split; [reflexivity | discriminate]).
  pose proof (connect_effect (nodeIP s) s) as H.
  destruct (connect cfg (nodeIP s) s) as [[s1 a1] [[q|]|e]];
    destruct H as [Hp Hc]; split; auto; discriminate.
Qed.

Lemma keeps_reconnect_probe sd : keeps control (reconnect_probe cfg sd).
Proof. unfold reconnect_probe. frame. Qed.

Lemma replace_nth_single {A} (t : A) (x : option A) (i : nat) :
  nth_error [t] i <> None ->
  replace_nth i x [t] = match x with Some y => [y] | None => [] end.
Proof. destruct i as [|[|i]]; cbn; congruence. Qed.

Lemma resume_Inv i m s :
  reconnect_ok m -> nth_error (reconnects s) i <> None ->
  Inv s -> Inv (fst (resume cfg i m s)).
Proof.
  intros Hm Hnth HI. pose proof HI as (Hlen & Hc & Hmt).
  assert (Hdone : main_task s = MainDone).
  { destruct (main_task s) eqn:E; try reflexivity;
      (destruct Hmt as [_ Hr]; [discriminate | rewrite Hr in Hnth; now destruct i]). }
  assert (Hconn : connecting s = true).
  { destruct (connecting s); [reflexivity |].
    rewrite Hc in Hnth by reflexivity. now destruct i. }
  destruct (reconnects s) as [|t [|t' l]] eqn:Hrec;
    [now destruct i | | cbn in Hlen; lia].
  unfold resume, run. specialize (Hm s).
  destruct (m s) as [[s1 a1] [o|e]]; destruct Hm as [Hp Hsome];
    unfold pending in Hp; injection Hp as Hr1 Hm1.
  - cbn. rewrite Hr1, Hrec, replace_nth_single by exact Hnth.
    apply Inv_done; [cbn; congruence | destruct o; cbn; lia |].
    destruct o as [t1|]; cbn; [| reflexivity].
    specialize (Hsome t1 eq_refl). congruence.
  - set (s2 := set_reconnects (replace_nth i None (reconnects s1)) s1).
    assert (HI2 : Inv s2).
    { subst s2. rewrite Hr1, Hrec, replace_nth_single by exact Hnth.
      apply Inv_done; cbn; auto; congruence. }
    pose proof (step_keeps_uncaught cfg e s2) as Hk.
    destruct (uncaught cfg e s2) as [s3 a3]. cbn in *.
    eapply Inv_control; eassumption.
Qed.

Lemma find_connecting_nth p l i node :
  find_connecting p l = Some (i, node) -> nth_error l i <> None.
Proof.
  revert i. induction l as [|t l IH]; intros i H; cbn in H; [discriminate |].
  assert (Hrest : option_map (fun r => (S (fst r), snd r)) (find_connecting p l)
                  = Some (i, node) -> nth_error (t :: l) i <> None).
  { intro E. destruct (find_connecting p l) as [[j n]|]; [| discriminate].
    cbn in E. injection E as <- <-. cbn. now apply IH. }
  destruct t; auto.
  destruct (p0 =? p)%nat; auto. injection H as <- <-. cbn. discriminate.
Qed.

Lemma on_serving_Inv p s : Inv s -> Inv (fst (on_serving cfg p s)).
Proof.
  intro HI. unfold on_serving.
  assert (Hrc : Inv (fst (match find_connecting p (reconnects s) with
                          | Some (i, node) =>
                              resume cfg i
                                (connect_finish (LcdChild p) node ;; ret None) s
                          | None => (s, [])
                          end))).
  { destruct (find_connecting p (reconnects s)) as [[i node]|] eqn:E; [| exact HI].
    apply resume_Inv; [apply reconnect_ok_finish | | exact HI].
    eapply find_connecting_nth; eassumption. }
  destruct (main_task s) eqn:Hmt; try exact Hrc.
  destruct (p0 =? p)%nat; [| exact Hrc].
  apply run_main_Inv; [apply main_ok_finish | exact HI | congruence].
Qed.

Lemma on_reconnect_Inv s : Inv s -> Inv (fst (on_reconnect cfg s)).
Proof.
  intro HI. pose proof HI as (Hlen & Hc & Hmt).
  unfold on_reconnect. destruct (ipc_ready s); [| exact HI].
  unfold run, reconnect. unfold bind at 1. unfold get at 1.
  destruct (connecting s) eqn:Hconn; [exact HI |].
  specialize (Hc eq_refl).
  assert (Hdone : main_task s = MainDone).
  { destruct (main_task s) eqn:E; try reflexivity;
      (destruct Hmt as [H _]; [discriminate | discriminate H]). }
  unfold bind at 1. unfold modify at 1. unfold bind at 1. unfold get at 1.
  unfold bind at 1.
  pose proof (keeps_reconnect_probe (seeds (set_connecting true s))
                (set_connecting true s)) as Hk.
  destruct (reconnect_probe cfg (seeds (set_connecting true s))
              (set_connecting true s)) as [[s1 a1] [t|e]];
    unfold control in Hk; cbn in Hk; injection Hk as Hc1 Hr1 Hm1.
  - cbn. apply Inv_done; cbn; rewrite ?Hr1, ?Hc; cbn; auto; congruence.
  - pose proof (step_keeps_uncaught cfg e s1) as Hu.
    destruct (uncaught cfg e s1) as [s2 a2]. cbn in *.
    eapply Inv_control; [eassumption |].
    apply Inv_done; rewrite ?Hr1, ?Hc; cbn; auto; congruence.
Qed.

Lemma step_Inv e s : Inv s -> Inv (fst (step cfg e s)).
Proof.
  intro HI. destruct e; cbn [step].
  - exact HI.
  - destruct (mainWindow s); exact HI.
  - destruct (mainWindow s); try exact HI.
    apply step_keeps_Inv; [apply step_keeps_listener, keeps_shutdown | exact HI].
  - destruct (TEST cfg); [exact HI |].
    apply step_keeps_Inv; [apply step_keeps_listener, keeps_shutdown | exact HI].
  - destruct (main_task s) eqn:Hmt; try exact HI.
    apply run_main_Inv;
      [apply main_ok_keeps, keeps_main_after_ensureDir | exact HI | congruence].
  - unfold on_stdout. destruct (lookup_child p (children s)) as [[| | |]|];
      try exact HI.
    + destruct (main_task s) eqn:Hmt; try exact HI.
      destruct (p0 =? p)%nat; [| exact HI].
      apply run_main_Inv;
        [apply main_ok_keeps, keeps_main_after_version | exact HI | congruence].
    + apply step_keeps_Inv;
        [apply step_keeps_listener, keeps_on_init_stdout | exact HI].
    + destruct (includes data "Serving on"); [| exact HI].
      now apply on_serving_Inv.
  - unfold on_stderr. destruct (lookup_child p (children s)) as [[| | |]|];
      try exact HI; try (destruct (main_task s); exact HI).
    destruct (main_task s) eqn:Hmt; try exact HI.
    destruct (p0 =? p)%nat; [| exact HI].
    apply run_main_Inv;
      [apply main_ok_after_initcheck | exact HI | congruence].
  - unfold on_exit. destruct (lookup_child p (children s)) as [cmd|]; [| exact HI].
    apply and_then_Inv; [| | exact HI].
    + intros t Ht. destruct cmd; try exact Ht.
      apply step_keeps_Inv;
        [apply step_keeps_listener, keeps_afterBooted | exact Ht].
    + intros t Ht. destruct (existsb (Nat.eqb p) (exit_waits t)); [| exact Ht].
      now apply settle_init_Inv.
  - unfold on_child_error. destruct (lookup_child p (children s)); [| exact HI].
    destruct (negb (shuttingDown s && econnreset)); [| exact HI].
    apply step_keeps_Inv;
      [apply step_keeps_listener, keeps_handleCrash | exact HI].
  - unfold on_booted.
    apply step_keeps_Inv; [| exact HI].
    apply step_keeps_listener. frame. apply keeps_flush.
  - now apply on_reconnect_Inv.
  - now apply on_trust_signal_Inv.
  - now apply on_trust_signal_Inv.
  - unfold on_probe. destruct (nth_error (reconnects s) i) as [[sd n|sd|q n]|] eqn:E;
      try exact HI.
    apply resume_Inv; [| congruence | exact HI].
    destruct nodeAlive; cbn [negb].
    + apply reconnect_ok_after_loop.
    + apply reconnect_ok_keeps. frame.
  - unfold on_timer. destruct (nth_error (reconnects s) i) as [[sd n|sd|q n]|] eqn:E;
      try exact HI.
    apply resume_Inv; [| congruence | exact HI].
    apply reconnect_ok_keeps. frame.
Qed.

Lemma steps_Inv es s : Inv s -> Inv (fst (steps cfg es s)).
Proof.
  revert s. induction es as [|e es IH]; intros s HI; cbn [steps]; [exact HI |].
  apply and_then_Inv; auto. intros. now apply step_Inv.
Qed.

End Invariant.

Lemma reachable_Inv cfg d s : reachable cfg d s -> Inv s.
Proof. intros [es <-]. apply steps_Inv, Inv_initial. Qed.


(** ** The reconnect loop, step by step *)

Lemma steps_app (cfg : Config) (es1 es2 : list Event) (s : State) :
  steps cfg (es1 ++ es2) s =
    match steps cfg es1 s with
    | (s1, a1) =>
        match steps cfg es2 s1 with
        | (s2, a2) => (s2, (a1 ++ a2)%list)
        end
    end.
Proof.
  revert s. induction es1 as [|e es1 IH]; intro s; cbn [steps app].
  - unfold done. now destruct (steps cfg es2 s).
  - unfold and_then. destruct (step cfg e s) as [s1 a1]. rewrite IH.
    destruct (steps cfg es1 s1) as [s2 a2].
    destruct (steps cfg es2 s2) as [s3 a3]. now rewrite app_assoc.
Qed.

Lemma settle_init_idle (cfg : Config) (r : Result unit) (s : State) :
  main_task s <> MainAwaitInitLCD -> settle_init cfg r s = (s, []).
Proof. intro H. unfold settle_init. now destruct (main_task s). Qed.

(** When [main] does not wait for [initLCD], the exit of a child changes
    neither the flag nor who is suspended. *)
Lemma step_exit_control (cfg : Config) (s : State) (p : pid) (code : Z) :
  main_task s <> MainAwaitInitLCD ->
  control (fst (step cfg (EvExit p code) s)) = control s.
Proof.
  intro Hmain. unfold step, on_exit.
  destruct (lookup_child p (children s)) as [cmd|]; [| reflexivity].
  unfold and_then.
  set (reported := match cmd with
                   | CmdRestServer _ _ _ =>
                       listener cfg (afterBooted (MsgError lcd_exited))
                   | _ => done
                   end).
  assert (Hrep : step_keeps control reported).
  { subst reported. destruct cmd; try apply step_keeps_done.
    apply step_keeps_listener, keeps_afterBooted. }
  specialize (Hrep s). destruct (reported s) as [s1 a1]. cbn in Hrep.
  assert (Hm1 : main_task s1 <> MainAwaitInitLCD).
  { unfold control in Hrep. injection Hrep as _ _ Hm. congruence. }
  destruct (existsb (Nat.eqb p) (exit_waits s1)); [| exact Hrep].
  rewrite settle_init_idle by exact Hm1. exact Hrep.
Qed.

Section ReconnectLoop.

Variable cfg : Config.
Variable s : State.
Variable gateway : pid.
Variable node : nat -> string.

Hypothesis Hidle : connected_idle s gateway.

(** The [j]-th call of [pickNode] in the loop succeeds with [node j]. *)
Hypothesis Hpick : forall j,
  pickNode cfg (Math_random cfg (draw_ix cfg (rand_ix s) j)) (seeds s)
  = Some (node j).

Lemma pick_looping tasks j :
  pick cfg (seeds s) (looping cfg s tasks j)
  = (looping cfg s tasks (S j), [], Ok (node j)).
Proof.
  unfold pick, bind, get, modify, ret, throw.
  cbn [looping rand_ix set_reconnects set_rand_ix].
  rewrite Hpick. unfold looping, draw_ix.
  destruct (node_override cfg); cbn; [reflexivity |].
  now rewrite Nat.add_succ_r.
Qed.

Lemma looping_0 tasks :
  set_reconnects tasks (set_connecting true s) = looping cfg s tasks 0.
Proof.
  unfold looping, draw_ix. destruct (node_override cfg); [| rewrite Nat.add_0_r];
    now destruct s.
Qed.

Lemma step_reconnect_request :
  step cfg EvReconnect s =
    (looping cfg s [RcProbing (seeds s) (node 0)] 1,
     [AGet ("http://" ++ node 0) 3000]).
Proof.
  destruct Hidle as (Hipc & Hconn & Hrec & _).
  unfold step, on_reconnect. rewrite Hipc.
  unfold run, reconnect. unfold bind at 1. unfold get at 1. rewrite Hconn.
  unfold bind at 1. unfold modify at 1. unfold bind at 1. unfold get at 1.
  unfold bind at 1. unfold reconnect_probe. unfold bind at 1.
  change (seeds (set_connecting true s)) with (seeds s).
  replace (set_connecting true s) with (looping cfg s [] 0)
    by (rewrite <- looping_0; rewrite <- Hrec; now destruct s).
  rewrite pick_looping. cbn. reflexivity.
Qed.

Lemma step_probe_down sd n j :
  step cfg (EvProbe 0 false) (looping cfg s [RcProbing sd n] j) =
    (looping cfg s [RcSleeping sd] j, [ASleep 2000]).
Proof. reflexivity. Qed.

Lemma step_backoff_over j :
  step cfg (EvTimer 0) (looping cfg s [RcSleeping (seeds s)] j) =
    (looping cfg s [RcProbing (seeds s) (node j)] (S j),
     [AGet ("http://" ++ node j) 3000]).
Proof.
  unfold step, on_timer.
  change (reconnects (looping cfg s [RcSleeping (seeds s)] j))
    with [RcSleeping (seeds s)].
  cbn [nth_error].
  unfold resume, run, reconnect_probe. unfold bind at 1 2.
  rewrite pick_looping. reflexivity.
Qed.

Lemma retries_run k : forall j,
  steps cfg (retries k) (looping cfg s [RcProbing (seeds s) (node j)] (S j)) =
    (looping cfg s [RcProbing (seeds s) (node (j + k))] (S (j + k)),
     retry_actions node (S j) k).
Proof.
  induction k as [|k IH]; intro j.
  - now rewrite Nat.add_0_r.
  - cbn [retries steps]. unfold and_then at 1.
    rewrite step_probe_down. unfold and_then at 1.
    rewrite step_backoff_over, (IH (S j)).
    now rewrite Nat.add_succ_r.
Qed.

Hypothesis Hspawn : spawn_throws cfg (next_pid s) = false.

Lemma step_probe_alive sd n j :
  step cfg (EvProbe 0 true) (looping cfg s [RcProbing sd n] j) =
    (restarting cfg s j,
     [AKill gateway SIGKILL; ASpawn (next_pid s) (gateway_cmd cfg s)]).
Proof.
  destruct Hidle as (_ & _ & _ & _ & Hlcd & _).
  unfold step, on_probe. cbn [looping reconnects set_reconnects nth_error negb].
  unfold resume, run. rewrite reconnect_after_loop_eq, connect_eq.
  cbn [looping lcdProcess set_reconnects set_rand_ix set_connecting next_pid
       nodeIP children].
  rewrite Hlcd, Hspawn. reflexivity.
Qed.

Lemma lookup_child_fresh p cmd l :
  lookup_child p l = None -> lookup_child p (l ++ [(p, cmd)]) = Some cmd.
Proof.
  induction l as [|[q c] l IH]; cbn.
  - now rewrite Nat.eqb_refl.
  - destruct (q =? p)%nat; [discriminate | exact IH].
Qed.

Lemma step_gateway_serving data j :
  includes data "Serving on" = true ->
  step cfg (EvStdout (next_pid s) data) (restarting cfg s j) =
    (reconnected cfg s j, [ASend (MsgConnected (nodeIP s))]).
Proof.
  intro Hdata.
  destruct Hidle as (_ & _ & _ & Hmain & _ & Hbooted & Hwin & Hfresh).
  unfold step, on_stdout.
  cbn [restarting children set_children].
  rewrite (lookup_child_fresh _ (gateway_cmd cfg s) _ Hfresh). unfold gateway_cmd at 1.
  rewrite Hdata. unfold on_serving.
  cbn [restarting looping main_task set_children set_next_pid set_reconnects
       set_rand_ix set_connecting reconnects find_connecting].
  rewrite Hmain, Nat.eqb_refl.
  unfold resume, run, connect_finish, afterBooted, send, bind, modify, get, emit, ret.
  cbn. rewrite Hbooted. cbn. rewrite Hwin. reflexivity.
Qed.

End ReconnectLoop.


(** The whole run of a reconnect: [k] failed probes, a live one, and the new
    gateway serving.  The gateway is started for, and the renderer told,
    [nodeIP s]: the module-level variable as it was before the request, not
    the node the last probe found alive. *)
Lemma reconnect_run
    (cfg : Config) (s : State) (gateway : pid) (node : nat -> string)
    (k : nat) (data : string) :
  connected_idle s gateway ->
  (forall j,
     pickNode cfg (Math_random cfg (draw_ix cfg (rand_ix s) j)) (seeds s)
     = Some (node j)) ->
  spawn_throws cfg (next_pid s) = false ->
  includes data "Serving on" = true ->
  steps cfg (EvReconnect :: retries k
             ++ [EvProbe 0 true; EvStdout (next_pid s) data]) s
  = (reconnected cfg s (S k),
     (AGet ("http://" ++ node 0) 3000 :: retry_actions node 1 k
      ++ [AKill gateway SIGKILL;
          ASpawn (next_pid s) (gateway_cmd cfg s);
          ASend (MsgConnected (nodeIP s))])%list).
Proof.
  intros Hidle Hpick Hspawn Hdata.
  cbn [steps]. unfold and_then at 1.
  rewrite (step_reconnect_request cfg s gateway node Hidle Hpick).
  rewrite steps_app, (retries_run cfg s node Hpick k 0).
  cbn [steps Nat.add]. unfold and_then at 1.
  rewrite (step_probe_alive cfg s gateway Hidle Hspawn).
  unfold and_then at 1.
  rewrite (step_gateway_serving cfg s gateway Hidle data (S k) Hdata).
  cbn [done app]. reflexivity.
Qed.

(** C1 (amended).  From a connected, idle supervisor a reconnect request
    probes one picked node after the other, 3 seconds each and 2 seconds
    apart, until a probe succeeds; it then kills the running gateway, spawns a
    new one and, when that one serves, sends exactly one "connected" message.
    The exit of a gateway by itself leaves the flag and the suspended calls as
    they are: it starts no reconnect. *)
Theorem reconnect_on_request
    (cfg : Config) (s : State) (gateway : pid) (node : nat -> string)
    (k : nat) (data : string) :
  connected_idle s gateway ->
  (forall j,
     pickNode cfg (Math_random cfg (draw_ix cfg (rand_ix s) j)) (seeds s)
     = Some (node j)) ->
  spawn_throws cfg (next_pid s) = false ->
  includes data "Serving on" = true ->
  let r := steps cfg (EvReconnect :: retries k
                      ++ [EvProbe 0 true; EvStdout (next_pid s) data]) s in
  (exists target,
     snd r = (AGet ("http://" ++ node 0) 3000 :: retry_actions node 1 k
              ++ [AKill gateway SIGKILL;
                  ASpawn (next_pid s)
                    (CmdRestServer (LCD_PORT cfg) (lcdHome cfg) target);
                  ASend (MsgConnected target)])%list)
  /\ connecting (fst r) = false
  /\ lcdProcess (fst r) = LcdChild (next_pid s)
  /\ reconnects (fst r) = []
  /\ (forall p code, control (fst (step cfg (EvExit p code) s)) = control s).
Proof.
  intros Hidle Hpick Hspawn Hdata r. subst r.
  rewrite (reconnect_run cfg s gateway node k data Hidle Hpick Hspawn Hdata).
  cbn [fst snd].
  split; [exists (nodeIP s); reflexivity |].
  repeat split.
  intros p code. destruct Hidle as (_ & _ & _ & Hmain & _).
  apply step_exit_control. rewrite Hmain. discriminate.
Qed.

(** ** Gateway startup: waiting for "Serving on" *)

Section Startup.

Variable cfg : Config.
Variable p : pid.
Variable node : option string.

Lemma waiting_control s s' :
  control s' = control s -> waiting p node s -> waiting p node s'.
Proof. unfold control, waiting. intro H. injection H as _ _ Hm. congruence. Qed.

Lemma waiting_step_keeps (f : Step) s :
  step_keeps control f -> waiting p node s -> waiting p node (fst (f s)).
Proof. intro Hf. apply waiting_control, Hf. Qed.

Lemma waiting_settle_init r s : waiting p node s -> settle_init cfg r s = (s, []).
Proof. intro H. apply settle_init_idle. rewrite H. discriminate. Qed.

Lemma waiting_and_then (f g : Step) s :
  (forall t, waiting p node t -> waiting p node (fst (f t))) ->
  (forall t, waiting p node t -> waiting p node (fst (g t))) ->
  waiting p node s -> waiting p node (fst (and_then f g s)).
Proof.
  intros Hf Hg H. unfold and_then. specialize (Hf s H).
  destruct (f s) as [s1 a1]. specialize (Hg s1 Hf).
  now destruct (g s1) as [s2 a2].
Qed.

Lemma waiting_settle_trust signal req s :
  waiting p node s -> waiting p node (fst (settle_trust cfg signal req s)).
Proof.
  intro H. unfold settle_trust, run.
  set (m := if handleHashVerification (tr_hash req) signal
            then on_trust_approved req
            else on_trust_rejected cfg req).
  assert (Hk : keeps control m).
  { subst m. destruct (handleHashVerification (tr_hash req) signal);
      [apply keeps_on_trust_approved | apply keeps_on_trust_rejected]. }
  specialize (Hk s). destruct (m s) as [[s1 a1] [u|e]]; cbn in Hk.
  - cbn. eapply waiting_control; eassumption.
  - assert (H1 : waiting p node s1) by (eapply waiting_control; eassumption).
    now rewrite (waiting_settle_init (Throw e) s1 H1).
Qed.

Lemma waiting_trust_signal signal s :
  waiting p node s -> waiting p node (fst (on_trust_signal cfg signal s)).
Proof.
  intro H. unfold on_trust_signal.
  assert (H0 : waiting p node (set_trust_requests [] s)) by exact H.
  revert H0. generalize (set_trust_requests [] s).
  induction (trust_requests s) as [|req l IH]; intros t Ht; cbn [for_each].
  - exact Ht.
  - apply waiting_and_then; auto. intros. now apply waiting_settle_trust.
Qed.

Lemma waiting_resume i m s :
  reconnect_ok m -> waiting p node s -> waiting p node (fst (resume cfg i m s)).
Proof.
  intros Hm H. unfold resume, run. specialize (Hm s).
  destruct (m s) as [[s1 a1] [o|e]]; destruct Hm as [Hp _];
    unfold pending in Hp; injection Hp as _ Hm1.
  - cbn. unfold waiting in *. cbn. congruence.
  - set (s2 := set_reconnects (replace_nth i None (reconnects s1)) s1).
    pose proof (step_keeps_uncaught cfg e s2) as Hk.
    destruct (uncaught cfg e s2) as [s3 a3]. cbn in *.
    eapply waiting_control; [eassumption |].
    unfold waiting in *. subst s2. cbn. congruence.
Qed.

Lemma waiting_reconnect s : waiting p node s -> waiting p node (fst (on_reconnect cfg s)).
Proof.
  intro H. unfold on_reconnect. destruct (ipc_ready s); [| exact H].
  unfold run, reconnect. unfold bind at 1. unfold get at 1.
  destruct (connecting s); [exact H |].
  unfold bind at 1. unfold modify at 1. unfold bind at 1. unfold get at 1.
  unfold bind at 1.
  pose proof (keeps_reconnect_probe cfg (seeds (set_connecting true s))
                (set_connecting true s)) as Hk.
  destruct (reconnect_probe cfg (seeds (set_connecting true s))
              (set_connecting true s)) as [[s1 a1] [t|e]];
    unfold control in Hk; cbn in Hk; injection Hk as _ _ Hm1.
  - cbn. unfold waiting in *. cbn. congruence.
  - pose proof (step_keeps_uncaught cfg e s1) as Hu.
    destruct (uncaught cfg e s1) as [s2 a2]. cbn in *.
    eapply waiting_control; [eassumption |]. unfold waiting in *. congruence.
Qed.

(** Nothing but the marker ends the wait: no other output, no exit, no
    timer, no message from the renderer. *)
Lemma waiting_step e s :
  quiet p e = true -> waiting p node s -> waiting p node (fst (step cfg e s)).
Proof.
  intros Hq H. destruct e; cbn [step].
  - exact H.
  - destruct (mainWindow s); exact H.
  - destruct (mainWindow s); try exact H.
    apply waiting_step_keeps; [apply step_keeps_listener, keeps_shutdown | exact H].
  - destruct (TEST cfg); [exact H |].
    apply waiting_step_keeps; [apply step_keeps_listener, keeps_shutdown | exact H].
  - unfold waiting in H. now rewrite H.
  - unfold on_stdout. destruct (lookup_child p0 (children s)) as [[| | |]|];
      try exact H.
    + unfold waiting in H. now rewrite H.
    + apply waiting_step_keeps;
        [apply step_keeps_listener, keeps_on_init_stdout | exact H].
    + destruct (includes data "Serving on") eqn:Hinc; [| exact H].
      cbn in Hq. rewrite Hinc, andb_true_r in Hq.
      apply negb_true_iff in Hq.
      unfold on_serving. pose proof H as H'. unfold waiting in H'. rewrite H'.
      rewrite Nat.eqb_sym, Hq.
      destruct (find_connecting p0 (reconnects s)) as [[i n]|]; [| exact H].
      apply waiting_resume; [apply reconnect_ok_finish | exact H].
  - unfold on_stderr. unfold waiting in H. rewrite H.
    now destruct (lookup_child p0 (children s)) as [[| | |]|].
  - unfold on_exit. destruct (lookup_child p0 (children s)) as [cmd|]; [| exact H].
    apply waiting_and_then; [| | exact H].
    + intros t Ht. destruct cmd; try exact Ht.
      apply waiting_step_keeps;
        [apply step_keeps_listener, keeps_afterBooted | exact Ht].
    + intros t Ht. destruct (existsb (Nat.eqb p0) (exit_waits t)); [| exact Ht].
      now rewrite waiting_settle_init.
  - unfold on_child_error. destruct (lookup_child p0 (children s)); [| exact H].
    destruct (negb (shuttingDown s && econnreset)); [| exact H].
    apply waiting_step_keeps;
      [apply step_keeps_listener, keeps_handleCrash | exact H].
  - unfold on_booted.
    apply waiting_step_keeps; [| exact H].
    apply step_keeps_listener. frame. apply keeps_flush.
  - now apply waiting_reconnect.
  - now apply waiting_trust_signal.
  - now apply waiting_trust_signal.
  - unfold on_probe. destruct (nth_error (reconnects s) i) as [[sd n|sd|q n]|];
      try exact H.
    apply waiting_resume; [| exact H].
    destruct nodeAlive; cbn [negb].
    + apply reconnect_ok_after_loop.
    + apply reconnect_ok_keeps. frame.
  - unfold on_timer. destruct (nth_error (reconnects s) i) as [[sd n|sd|q n]|];
      try exact H.
    apply waiting_resume; [| exact H].
    apply reconnect_ok_keeps. frame.
Qed.

Lemma waiting_steps es s :
  forallb (quiet p) es = true ->
  waiting p node s -> waiting p node (fst (steps cfg es s)).
Proof.
  revert s. induction es as [|e es IH]; intros s Hq H; cbn [steps]; [exact H |].
  cbn in Hq. apply andb_true_iff in Hq as [He Hes].
  apply waiting_and_then; auto. intros. now apply waiting_step.
Qed.

(** The marker completes [connect] in [main]. *)
Lemma step_serving_main s data port home n :
  waiting p node s ->
  lookup_child p (children s) = Some (CmdRestServer port home n) ->
  includes data "Serving on" = true ->
  step cfg (EvStdout p data) s =
    if booted s then
      match mainWindow s with
      | WinOpen =>
          (set_main_task MainDone
             (set_connecting false (set_lcdProcess (LcdChild p) s)),
           [ASend (MsgConnected node)])
      | _ => main_failed cfg TypeError (set_lcdProcess (LcdChild p) s)
      end
    else
      (set_main_task MainDone
         (set_connecting false
            (set_booted_queue (booted_queue s ++ [MsgConnected node])%list
               (set_lcdProcess (LcdChild p) s))),
       []).
Proof.
  intros H Hchild Hdata. unfold waiting in H.
  unfold step, on_stdout. rewrite Hchild, Hdata.
  unfold on_serving. rewrite H, Nat.eqb_refl.
  unfold run_main, run, connect_finish, afterBooted, send, bind, modify, get,
    emit, ret, throw.
  cbn. destruct (booted s); cbn; [| reflexivity].
  destruct (mainWindow s); cbn; try reflexivity;
    now destruct (main_failed cfg TypeError (set_lcdProcess (LcdChild p) s)).
Qed.

(** The exit of the awaited gateway is reported to the renderer, nothing
    more. *)
Lemma step_exit_waiting s code port home n :
  waiting p node s ->
  lookup_child p (children s) = Some (CmdRestServer port home n) ->
  booted s = true -> mainWindow s = WinOpen ->
  snd (step cfg (EvExit p code) s) = [ASend (MsgError lcd_exited)].
Proof.
  intros H Hchild Hb Hw. unfold step, on_exit. rewrite Hchild.
  unfold and_then, listener, run, afterBooted, send, bind, get, emit, done.
  rewrite Hb. cbn. rewrite Hw. cbn.
  destruct (existsb (Nat.eqb p) (exit_waits s)); [| reflexivity].
  rewrite settle_init_idle; [reflexivity |].
  cbn. rewrite H. discriminate.
Qed.

End Startup.

(** C3 (amended).  While [main] waits in [connect] for the gateway [p], the
    wait ends only when a stdout chunk of [p] contains "Serving on": then
    [connect] completes (with the renderer up, the "connected" message is
    sent).  No other sequence of events ends it: there is no time-out, and the
    exit of the gateway only sends the error message to the renderer while
    [main] stays suspended, neither connected nor failed. *)
Theorem gateway_startup_waits_for_marker
    (cfg : Config) (s : State) (p : pid) (node : option string)
    (port : Z) (home : string) (n : option string) :
  main_task s = MainAwaitConnect p node ->
  lookup_child p (children s) = Some (CmdRestServer port home n) ->
  booted s = true -> mainWindow s = WinOpen ->
  (forall data, includes data "Serving on" = true ->
     step cfg (EvStdout p data) s =
       (set_main_task MainDone
          (set_connecting false (set_lcdProcess (LcdChild p) s)),
        [ASend (MsgConnected node)]))
  /\ (forall es, forallb (quiet p) es = true ->
        main_task (fst (steps cfg es s)) = MainAwaitConnect p node)
  /\ (forall code,
        snd (step cfg (EvExit p code) s) = [ASend (MsgError lcd_exited)]
        /\ main_task (fst (step cfg (EvExit p code) s)) = MainAwaitConnect p node).
Proof.
  intros Hmain Hchild Hb Hw. split; [| split].
  - intros data Hdata.
    rewrite (step_serving_main cfg p node s data port home n Hmain Hchild Hdata).
    now rewrite Hb, Hw.
  - intros es Hq. now apply waiting_steps.
  - intro code. split; [eapply step_exit_waiting; eassumption |].
    now apply waiting_step.
Qed.

(** C8.  In every reachable state at most one call of [reconnect] is
    suspended, and while one is, a further reconnect request changes nothing
    and does nothing. *)
Theorem single_reconnect_in_flight (cfg : Config) (d : Disk) (s : State) :
  reachable cfg d s ->
  (List.length (reconnects s) <= 1)%nat
  /\ (reconnects s <> [] -> step cfg EvReconnect s = (s, [])).
Proof.
  intro Hreach. destruct (reachable_Inv cfg d s Hreach) as (Hlen & Hc & _).
  split; [exact Hlen |]. intro Hne.
  assert (Hconn : connecting s = true).
  { destruct (connecting s); [reflexivity | now specialize (Hc eq_refl)]. }
  unfold step, on_reconnect, run, reconnect, bind, get, ret.
  rewrite Hconn. now destruct (ipc_ready s).
Qed.

(** C10.  [connecting] starts out true, and in every reachable state in which
    [main] has not yet returned from its [connect] it still is: a reconnect
    request then changes nothing and does nothing. *)
Theorem reconnect_ignored_before_first_connect
    (cfg : Config) (d : Disk) (s : State) :
  reachable cfg d s ->
  main_task s <> MainDone ->
  connecting (initial_state d) = true
  /\ connecting s = true
  /\ step cfg EvReconnect s = (s, []).
Proof.
  intros Hreach Hmain.
  destruct (reachable_Inv cfg d s Hreach) as (_ & _ & Hm).
  destruct (Hm Hmain) as [Hconn _].
  split; [reflexivity | split; [exact Hconn |]].
  unfold step, on_reconnect, run, reconnect, bind, get, ret.
  rewrite Hconn. now destruct (ipc_ready s).
Qed.


(** ** The trust handshake *)

Section Emissions.

Variable P : Action -> Prop.

Lemma emits_ret {A} (a : A) : emits P (ret a).
Proof. intro s. constructor. Qed.

Lemma emits_throw {A} (e : JsError) : emits P (@throw A e).
Proof. intro s. constructor. Qed.

Lemma emits_get {A} (f : State -> A) : emits P (get f).
Proof. intro s. constructor. Qed.

Lemma emits_modify (f : State -> State) : emits P (modify f).
Proof. intro s. constructor. Qed.

Lemma emits_emit (a : Action) : P a -> emits P (emit a).
Proof. intros H s. cbn. auto. Qed.

Lemma emits_bind {A B} (m : M A) (k : A -> M B) :
  emits P m -> (forall a, emits P (k a)) -> emits P (bind m k).
Proof.
  intros Hm Hk s. unfold bind. specialize (Hm s).
  destruct (m s) as [[s1 a1] [a|e]]; cbn in *; [| exact Hm].
  specialize (Hk a s1). destruct (k a s1) as [[s2 a2] r]; cbn in *.
  apply Forall_app. auto.
Qed.

Lemma step_emits_done : step_emits P done.
Proof. intro s. constructor. Qed.

Lemma step_emits_and_then (f g : Step) :
  step_emits P f -> step_emits P g -> step_emits P (and_then f g).
Proof.
  intros Hf Hg s. unfold and_then. specialize (Hf s).
  destruct (f s) as [s1 a1]. specialize (Hg s1).
  destruct (g s1) as [s2 a2]. cbn in *. apply Forall_app. auto.
Qed.

Lemma step_emits_run {A} (m : M A) (k : A -> Step) (h : JsError -> Step) :
  emits P m -> (forall a, step_emits P (k a)) -> (forall e, step_emits P (h e)) ->
  step_emits P (run m k h).
Proof.
  intros Hm Hk Hh s. unfold run. specialize (Hm s).
  destruct (m s) as [[s1 a1] [a|e]]; cbn in *.
  - specialize (Hk a s1). destruct (k a s1). cbn in *. apply Forall_app. auto.
  - specialize (Hh e s1). destruct (h e s1). cbn in *. apply Forall_app. auto.
Qed.

Lemma step_emits_for_each {A} (f : A -> Step) (l : list A) :
  (forall a, step_emits P (f a)) -> step_emits P (for_each f l).
Proof.
  intro Hf. induction l as [|a l IH]; cbn [for_each].
  - apply step_emits_done.
  - apply step_emits_and_then; auto.
Qed.

End Emissions.

Ltac emissions :=
  repeat first
    [ apply emits_ret | apply emits_throw | apply emits_get | apply emits_modify
    | apply emits_emit; exact I
    | apply emits_bind; [| intro]
    | match goal with
      | |- emits _ (match ?x with _ => _ end) => destruct x
      | |- emits _ (if ?x then _ else _) => destruct x
      end ].

Section Handshake.

Variable cfg : Config.

Lemma emits_on_trust_rejected req : emits no_stdin_write (on_trust_rejected cfg req).
Proof. unfold on_trust_rejected. emissions. Qed.

Lemma step_emits_uncaught e : step_emits no_stdin_write (uncaught cfg e).
Proof.
  intro s. unfold uncaught. destruct (TEST cfg); [repeat constructor |].
  assert (H : emits no_stdin_write (handleCrash e))
    by (unfold handleCrash, afterBooted; emissions).
  specialize (H s). destruct (handleCrash e s) as [[s1 a1] [u|e']]; cbn in *.
  - now constructor.
  - constructor; [exact I |]. apply Forall_app. split; [exact H |].
    now repeat constructor.
Qed.

Lemma step_emits_main_failed e : step_emits no_stdin_write (main_failed cfg e).
Proof.
  intro s. unfold main_failed, listener.
  apply step_emits_run.
  - unfold handleCrash, afterBooted. emissions.
  - intro. apply step_emits_done.
  - apply step_emits_uncaught.
Qed.

Lemma step_emits_settle_rejected req :
  step_emits no_stdin_write (settle_trust cfg None req).
Proof.
  unfold settle_trust. cbn [handleHashVerification]. apply step_emits_run.
  - apply emits_on_trust_rejected.
  - intro. apply step_emits_done.
  - intros e s. unfold settle_init.
    destruct (main_task s); try constructor. apply step_emits_main_failed.
Qed.

Lemma for_each_ext {A} (f g : A -> Step) (l : list A) :
  (forall a, In a l -> forall s, f a s = g a s) ->
  forall s, for_each f l s = for_each g l s.
Proof.
  induction l as [|a l IH]; intros H s; cbn [for_each]; [reflexivity |].
  unfold and_then. rewrite (H a (or_introl eq_refl) s).
  destruct (g a s) as [s1 a1]. rewrite IH; [reflexivity |].
  intros b Hb. apply H. now right.
Qed.

(** An approval that carries another hash settles every request the way a
    disapproval does. *)
Lemma wrong_hash_is_disapproval hash s :
  (forall req, In req (trust_requests s) -> tr_hash req <> hash) ->
  on_trust_signal cfg (Some hash) s = on_trust_signal cfg None s.
Proof.
  intro H. unfold on_trust_signal. apply for_each_ext.
  intros req Hin t. unfold settle_trust. cbn [handleHashVerification].
  destruct (String.eqb_spec hash (tr_hash req)) as [Heq|Hne]; [| reflexivity].
  exfalso. apply (H req Hin). now symmetry.
Qed.

Lemma pick_eq sd s :
  pick cfg sd s =
    (match node_override cfg with
     | Some _ => s
     | None => set_rand_ix (S (rand_ix s)) s
     end, [],
     match pickNode cfg (Math_random cfg (rand_ix s)) sd with
     | Some n => Ok n
     | None => Throw TypeError
     end).
Proof.
  unfold pick, bind, get, modify, ret, throw.
  destruct (node_override cfg); cbn;
    now destruct (pickNode cfg (Math_random cfg (rand_ix s)) sd).
Qed.

Lemma on_trust_rejected_eq req s :
  on_trust_rejected cfg req s =
    if shuttingDown s then (s, [AKill (tr_child req) SIGTERM], Ok tt)
    else
      match pickNode cfg (Math_random cfg (rand_ix s)) (seeds s) with
      | None => (drawn cfg s, [AKill (tr_child req) SIGTERM], Throw TypeError)
      | Some n =>
          if spawn_throws cfg (next_pid s)
          then (set_next_pid (S (next_pid s)) (set_nodeIP (Some n) (drawn cfg s)),
                [AKill (tr_child req) SIGTERM], Throw SpawnFailed)
          else (set_children
                  (children s ++ [(next_pid s,
                                   CmdInit (tr_home req) (tr_chainId req) (Some n))])%list
                  (set_next_pid (S (next_pid s)) (set_nodeIP (Some n) (drawn cfg s))),
                [AKill (tr_child req) SIGTERM;
                 ASpawn (next_pid s)
                   (CmdInit (tr_home req) (tr_chainId req) (Some n))],
                Ok tt)
      end.
Proof.
  unfold on_trust_rejected. unfold bind at 1 2. unfold emit at 1. unfold get at 1.
  destruct (shuttingDown s); [reflexivity |].
  unfold bind at 1. unfold get at 1. unfold bind at 1. rewrite pick_eq.
  fold (drawn cfg s).
  destruct (pickNode cfg (Math_random cfg (rand_ix s)) (seeds s)) as [n|];
    [| reflexivity].
  unfold bind at 1. unfold modify at 1. unfold bind at 1. unfold initLCD.
  rewrite startProcess_eq.
  assert (Hn : next_pid (set_nodeIP (Some n) (drawn cfg s)) = next_pid s)
    by (unfold drawn; now destruct (node_override cfg)).
  assert (Hc : children (set_nodeIP (Some n) (drawn cfg s)) = children s)
    by (unfold drawn; now destruct (node_override cfg)).
  rewrite Hn, Hc.
  now destruct (spawn_throws cfg (next_pid s)).
Qed.

(** The rejection of the only outstanding request. *)
Lemma step_disapproved req s :
  trust_requests s = [req] ->
  (shuttingDown s = true ->
   step cfg EvHashDisapproved s =
     (set_trust_requests [] s, [AKill (tr_child req) SIGTERM]))
  /\ (shuttingDown s = false ->
      forall n,
        pickNode cfg (Math_random cfg (rand_ix s)) (seeds s) = Some n ->
        spawn_throws cfg (next_pid s) = false ->
        snd (step cfg EvHashDisapproved s) =
          [AKill (tr_child req) SIGTERM;
           ASpawn (next_pid s)
             (CmdInit (tr_home req) (tr_chainId req) (Some n))]
        /\ nodeIP (fst (step cfg EvHashDisapproved s)) = Some n
        /\ trust_requests (fst (step cfg EvHashDisapproved s)) = []).
Proof.
  intro Hreq. unfold step, on_trust_signal. rewrite Hreq.
  cbn [for_each]. unfold and_then, done, settle_trust, run. cbn [handleHashVerification].
  rewrite on_trust_rejected_eq.
  cbn [shuttingDown seeds rand_ix next_pid children set_trust_requests].
  split; intro Hsd; rewrite Hsd.
  - reflexivity.
  - intros n Hpick Hspawn. rewrite Hpick, Hspawn. cbn [fst snd app].
    unfold drawn. now destruct (node_override cfg).
Qed.

End Handshake.

(** C2 (amended).  When the only outstanding trust request is disapproved,
    the init child gets SIGTERM first; if the app is shutting down nothing
    else happens; otherwise exactly one new init child is spawned, for the
    node [pickNode] returns (the override, or a random member of the pool:
    nothing keeps it from being the disapproved node), which also becomes
    [nodeIP]. *)
Theorem disapproval_restarts_handshake
    (cfg : Config) (s : State) (req : TrustRequest) :
  trust_requests s = [req] ->
  (shuttingDown s = true ->
   step cfg EvHashDisapproved s =
     (set_trust_requests [] s, [AKill (tr_child req) SIGTERM]))
  /\ (shuttingDown s = false ->
      forall n,
        pickNode cfg (Math_random cfg (rand_ix s)) (seeds s) = Some n ->
        spawn_throws cfg (next_pid s) = false ->
        snd (step cfg EvHashDisapproved s) =
          [AKill (tr_child req) SIGTERM;
           ASpawn (next_pid s)
             (CmdInit (tr_home req) (tr_chainId req) (Some n))]
        /\ nodeIP (fst (step cfg EvHashDisapproved s)) = Some n
        /\ trust_requests (fst (step cfg EvHashDisapproved s)) = []).
Proof. apply step_disapproved. Qed.

(** C9.  For an outstanding request with hash [tr_hash req], an approval that
    carries another hash settles the request exactly as a disapproval does:
    nothing is written to the stdin of the init child; and when the request is
    the only one outstanding the whole step is that of a disapproval, which
    (unless the app is shutting down) sends SIGTERM to the child and spawns a
    new init child for a freshly picked node. *)
Theorem approval_with_other_hash_rejects
    (cfg : Config) (req : TrustRequest) (hash : string) :
  tr_hash req <> hash ->
  (forall s, settle_trust cfg (Some hash) req s = settle_trust cfg None req s)
  /\ (forall s,
        Forall no_stdin_write (snd (settle_trust cfg (Some hash) req s)))
  /\ (forall s,
        trust_requests s = [req] ->
        step cfg (EvHashApproved hash) s = step cfg EvHashDisapproved s
        /\ (shuttingDown s = false ->
            forall n,
              pickNode cfg (Math_random cfg (rand_ix s)) (seeds s) = Some n ->
              spawn_throws cfg (next_pid s) = false ->
              snd (step cfg (EvHashApproved hash) s) =
                [AKill (tr_child req) SIGTERM;
                 ASpawn (next_pid s)
                   (CmdInit (tr_home req) (tr_chainId req) (Some n))])).
Proof.
  intro Hother.
  assert (Hsettle : forall s,
             settle_trust cfg (Some hash) req s = settle_trust cfg None req s).
  { intro s. unfold settle_trust. cbn [handleHashVerification].
    destruct (String.eqb_spec hash (tr_hash req)) as [Heq|Hne]; [| reflexivity].
    exfalso. apply Hother. now symmetry. }
  split; [exact Hsettle | split].
  - intro s. rewrite Hsettle. apply step_emits_settle_rejected.
  - intros s Hreq.
    assert (Heq : step cfg (EvHashApproved hash) s
                  = step cfg EvHashDisapproved s).
    { cbn [step]. apply wrong_hash_is_disapproval.
      rewrite Hreq. intros r [<-|[]]. exact Hother. }
    split; [exact Heq |].
    intros Hsd n Hpick Hspawn. rewrite Heq.
    destruct (step_disapproved cfg req s Hreq) as [_ H].
    now destruct (H Hsd n Hpick Hspawn).
Qed.

(** * Further properties of the supervisor *)

(** ** The data directory: what the checks never do and what they refuse *)

Lemma check_app_version_never_init (cfg : Config) (d : Disk) :
  check_app_version cfg d <> Ok true.
Proof.
  unfold check_app_version.
  destruct (consistentConfigDir d); [| discriminate].
  destruct (readFileSync (root_file d app_version)) as [text|e]; [| discriminate].
  destruct (semver_diff cfg (trim text) (pkg_version cfg)) as [diff|];
    [| discriminate].
  destruct (negb _); discriminate.
Qed.

(** X1.  An existing data directory is never written to by the directory
    phase of [main]: whatever the checks find, the disk afterwards is the disk
    before, and [init] is never set. *)
Theorem existing_directory_untouched (cfg : Config) (d : Disk) :
  root_exists d = true ->
  snd (prepare_directory cfg d) = d
  /\ fst (prepare_directory cfg d) <> Ok true.
Proof.
  intro Hroot. unfold prepare_directory.
  rewrite (ensureDir_existing d Hroot), Hroot.
  pose proof (check_app_version_never_init cfg d) as Hnever.
  destruct (check_app_version cfg d) as [[|]|e]; [congruence | |].
  - cbn [negb]. destruct (check_genesis cfg d); cbn; split;
      [reflexivity | discriminate | reflexivity | discriminate].
  - cbn. split; [reflexivity | discriminate].
Qed.

Lemma consistentConfigDir_all (d : Disk) :
  consistentConfigDir d = true <-> forall a, root_file d a <> None.
Proof.
  unfold consistentConfigDir, exists_. split.
  - intros H a.
    destruct (root_file d genesis_json) eqn:E1; [| discriminate H].
    destruct (root_file d app_version) eqn:E2; [| discriminate H].
    destruct (root_file d config_toml) eqn:E3; [| discriminate H].
    destruct (root_file d gaiaversion_txt) eqn:E4; [| discriminate H].
    destruct a; congruence.
  - intro H.
    pose proof (H genesis_json). pose proof (H app_version).
    pose proof (H config_toml). pose proof (H gaiaversion_txt).
    destruct (root_file d genesis_json); [| congruence].
    destruct (root_file d app_version); [| congruence].
    destruct (root_file d config_toml); [| congruence].
    destruct (root_file d gaiaversion_txt); [| congruence].
    reflexivity.
Qed.

(** X2.  In an existing data directory that lacks any one of the four files
    the directory phase throws "The data directory (...) has missing files",
    whatever the other files hold, and leaves the disk as it is. *)
Theorem missing_file_is_fatal (cfg : Config) (d : Disk) (a : Artifact) :
  root_exists d = true ->
  root_file d a = None ->
  prepare_directory cfg d = (Throw (Error (missing_files_message cfg)), d).
Proof.
  intros Hroot Hmiss.
  apply prepare_directory_version_error; [exact Hroot |].
  unfold check_app_version.
  destruct (consistentConfigDir d) eqn:Hc; [| reflexivity].
  pose proof (proj1 (consistentConfigDir_all d) Hc a) as Ha. congruence.
Qed.

(** X3.  First run and second run.  On a disk without the data directory,
    with the network directory holding its three files, the directory phase
    creates the directory, copies the network files, stamps it with the app
    version and sets [init].  Started again on the resulting disk (the genesis
    parses and [semver.diff] sees no major difference between the app version
    and itself), it accepts the directory and changes nothing. *)
Theorem first_run_then_restart
    (cfg : Config) (d : Disk) (genesis config gaia : string)
    (genesisJSON : Json) (diff : option string) :
  root_exists d = false ->
  network_exists d = true ->
  network_file d genesis_json = Some genesis ->
  network_file d config_toml = Some config ->
  network_file d gaiaversion_txt = Some gaia ->
  JSON_parse cfg genesis = Some genesisJSON ->
  get_prop genesisJSON "chain_id" <> PropThrows ->
  semver_diff cfg (trim (pkg_version cfg)) (pkg_version cfg) = Some diff ->
  diff <> Some "major" ->
  exists d',
    prepare_directory cfg d = (Ok true, d')
    /\ root_exists d' = true
    /\ root_file d' app_version = Some (pkg_version cfg)
    /\ root_file d' genesis_json = Some genesis
    /\ root_file d' config_toml = Some config
    /\ root_file d' gaiaversion_txt = Some gaia
    /\ prepare_directory cfg d' = (Ok false, d').
Proof.
  intros Hroot Hnet Hg Hc Hv Hparse Hprop Hdiff Hmajor.
  eexists. split.
  { unfold prepare_directory, ensureDir, initialize_directory.
    rewrite Hroot. cbn. rewrite Hnet. reflexivity. }
  cbn [root_exists root_file]. rewrite Hg, Hc, Hv.
  repeat (split; [reflexivity |]).
  rewrite prepare_directory_existing; [| reflexivity |].
  - unfold check_genesis, readFileSync. cbn [root_file network_file].
    rewrite Hg, Hparse.
    destruct (get_prop genesisJSON "chain_id") eqn:E; [congruence | |];
      destruct (negb _); rewrite ?String.eqb_refl; reflexivity.
  - unfold check_app_version, consistentConfigDir, exists_, readFileSync.
    cbn [root_file]. rewrite Hg, Hc, Hv. cbn. rewrite Hdiff.
    destruct diff as [kind|]; [| reflexivity].
    destruct (String.eqb_spec kind "major"); [congruence | reflexivity].
Qed.

(** ** The hash in the output of the init child *)

Lemma take_word_spec (n : nat) (s h : string) :
  take_word n s = Some h ->
  String.length h = n /\ all_word h = true /\ exists post, s = h ++ post.
Proof.
  revert s h. induction n as [|n IH]; intros s h H; cbn in H.
  - injection H as <-. repeat split. now exists s.
  - destruct s as [|c rest]; [discriminate |].
    destruct (is_word c) eqn:Hc; [| discriminate].
    destruct (take_word n rest) as [h'|] eqn:E; [| discriminate].
    injection H as <-. destruct (IH rest h' E) as (Hl & Hw & post & ->).
    cbn. rewrite Hc, Hl, Hw. repeat split. now exists post.
Qed.

Lemma take_word_complete (h post : string) :
  all_word h = true -> take_word (String.length h) (h ++ post) = Some h.
Proof.
  induction h as [|c h IH]; intro Hw; cbn in *; [reflexivity |].
  apply andb_true_iff in Hw as [Hc Hw]. now rewrite Hc, IH.
Qed.

Lemma length_append (a b : string) :
  String.length (a ++ b) = String.length a + String.length b.
Proof. induction a as [|c a IH]; cbn; [reflexivity | now rewrite IH]. Qed.

Lemma hash_exec_head (s h : string) :
  take_word 40 s = Some h -> hash_exec s = Some h.
Proof. intro H. destruct s; cbn [hash_exec]; now rewrite H. Qed.

(** X4.  What [/\w{40}/g.exec(data)] finds is a piece of [data] of exactly
    forty word characters, and it finds one whenever [data] contains forty
    word characters in a row; in particular never in less than forty
    characters of output. *)
Theorem hash_exec_sound_and_complete (data : string) :
  (forall h, hash_exec data = Some h ->
     String.length h = 40 /\ all_word h = true
     /\ exists pre post, data = pre ++ h ++ post)
  /\ (forall pre h post,
        data = pre ++ h ++ post -> String.length h = 40 -> all_word h = true ->
        hash_exec data <> None)
  /\ (String.length data < 40 -> hash_exec data = None).
Proof.
  assert (Hsound : forall d h, hash_exec d = Some h ->
            String.length h = 40 /\ all_word h = true
            /\ exists pre post, d = pre ++ h ++ post).
  { induction d as [|c d IH]; intros h H.
    - cbn in H. discriminate.
    - cbn [hash_exec] in H.
      destruct (take_word 40 (String c d)) as [h'|] eqn:E.
      + injection H as <-. destruct (take_word_spec _ _ _ E) as (Hl & Hw & post & Hd).
        repeat split; auto. exists EmptyString, post. exact Hd.
      + destruct (IH h H) as (Hl & Hw & pre & post & ->).
        repeat split; auto. now exists (String c pre), post. }
  split; [apply Hsound | split].
  - intros pre h post -> Hl Hw. clear Hsound.
    induction pre as [|c pre IH].
    + cbn [append]. rewrite (hash_exec_head (h ++ post) h); [discriminate |].
      rewrite <- Hl. now apply take_word_complete.
    + cbn [append hash_exec].
      destruct (take_word 40 (String c (pre ++ h ++ post))); [discriminate |].
      exact IH.
  - intro Hshort. destruct (hash_exec data) as [h|] eqn:E; [| reflexivity].
    destruct (Hsound data h E) as (Hl & _ & pre & post & ->).
    rewrite !length_append in Hshort. lia.
Qed.

(** ** Splitting at a separator: the seed list and the host of an address *)

Lemma has_char_cons (sep c : ascii) (s : string) :
  has_char sep (String c s) = Ascii.eqb c sep || has_char sep s.
Proof.
  unfold has_char. cbn [includes prefix].
  destruct (ascii_dec sep c) as [<-|Hne].
  - rewrite Ascii.eqb_refl. now destruct s.
  - assert (H : Ascii.eqb c sep = false)
      by (apply Ascii.eqb_neq; congruence).
    rewrite H. cbn [orb]. now destruct s.
Qed.

Lemma split_nonempty (sep : ascii) (s : string) : split sep s <> [].
Proof.
  induction s as [|c s IH]; cbn [split]; [discriminate |].
  destruct (Ascii.eqb c sep); [discriminate |].
  destruct (split sep s); [congruence | discriminate].
Qed.

(** No piece of a split contains the separator. *)
Lemma split_pieces (sep : ascii) (s x : string) :
  In x (split sep s) -> has_char sep x = false.
Proof.
  revert x. induction s as [|c s IH]; intros x Hin; cbn [split] in Hin.
  - destruct Hin as [<-|[]]. reflexivity.
  - destruct (Ascii.eqb c sep) eqn:Hc.
    + destruct Hin as [<-|Hin]; [reflexivity | now apply IH].
    + destruct (split sep s) as [|h t] eqn:E.
      * destruct Hin as [<-|[]]. now rewrite has_char_cons, Hc.
      * destruct Hin as [<-|Hin].
        -- rewrite has_char_cons, Hc. apply IH. now left.
        -- apply IH. now right.
Qed.

(** A string without the separator is one piece. *)
Lemma split_plain (sep : ascii) (x : string) :
  has_char sep x = false -> split sep x = [x].
Proof.
  induction x as [|c x IH]; intro H; cbn [split]; [reflexivity |].
  rewrite has_char_cons in H. apply orb_false_iff in H as [Hc Hx].
  now rewrite Hc, (IH Hx).
Qed.

Lemma split_first (sep : ascii) (x rest : string) :
  has_char sep x = false ->
  split sep (x ++ String sep rest) = x :: split sep rest.
Proof.
  induction x as [|c x IH]; intro H; cbn [append split].
  - now rewrite Ascii.eqb_refl.
  - rewrite has_char_cons in H. apply orb_false_iff in H as [Hc Hx].
    now rewrite Hc, (IH Hx).
Qed.

(** X5.  The seed list read from config.toml: no entry is empty and none
    contains a comma; and the list is read back as written, that is, a list of
    non-empty comma-free entries joined by commas is parsed into itself (the
    empty text into the empty list, on which [main] stops). *)
Theorem parse_seeds_round_trip (l : list string) :
  Forall plain_seed l ->
  parse_seeds (join_commas l) = l
  /\ (forall text x, In x (parse_seeds text) -> plain_seed x).
Proof.
  intro Hl. split.
  - unfold parse_seeds. induction Hl as [|x l [Hne Hc] Hl IH]; [reflexivity |].
    assert (Hkeep : negb (x =? EmptyString)%string = true).
    { destruct (String.eqb_spec x EmptyString); [congruence | reflexivity]. }
    destruct l as [|y l].
    + cbn [join_commas]. rewrite (split_plain "," x Hc). cbn [filter].
      now rewrite Hkeep.
    + change (join_commas (x :: y :: l))
        with (x ++ String "," (join_commas (y :: l))).
      rewrite (split_first "," x _ Hc). cbn [filter].
      now rewrite Hkeep, IH.
  - intros text x Hin. unfold parse_seeds in Hin.
    apply filter_In in Hin as [Hin Hne]. split.
    + intros ->. discriminate Hne.
    + exact (split_pieces "," text x Hin).
Qed.

(** ** pickNode: the address it returns and when it throws *)

Lemma host_has_no_colon (s : string) :
  has_colon (hd EmptyString (split ":" s)) = false.
Proof.
  apply (split_pieces ":" s).
  pose proof (split_nonempty ":" s) as H.
  destruct (split ":" s); [congruence | now left].
Qed.

(** X6.  The address [pickNode] builds is already in its final form: building
    it again from the result changes nothing, so a node that was picked can be
    fed back (as a seed or as COSMOS_NODE) and is picked as itself.  Its host
    part is free of colons. *)
Theorem rpc_address_idempotent (nodeIP : string) :
  rpc_address (rpc_address nodeIP) = rpc_address nodeIP
  /\ exists host,
       rpc_address nodeIP = host ++ ":46657" /\ has_colon host = false.
Proof.
  pose proof (host_has_no_colon nodeIP) as Hhost.
  split.
  - unfold rpc_address at 2 3.
    apply (rpc_address_replaces_port _ "46657" Hhost).
  - exists (hd EmptyString (split ":" nodeIP)). now split.
Qed.

Lemma random_seed_empty (r : Q) : random_seed r (Some []) = None.
Proof.
  unfold random_seed. destruct (_ <? 0)%Z; [reflexivity |].
  now destruct (Z.to_nat _).
Qed.

(** X7.  With [Math.random()] in [0, 1), [pickNode] throws exactly when no
    override is set and the seed list is null or empty: the case [main] rules
    out by checking [seeds.length] before its first call. *)
Theorem pickNode_throws_iff
    (cfg : Config) (r : Q) (pool : option (list string)) :
  (0 <= r)%Q -> (r < 1)%Q ->
  (pickNode cfg r pool = None
   <-> node_override cfg = None /\ (pool = None \/ pool = Some [])).
Proof.
  intros H0 H1. unfold pickNode. split.
  - destruct (node_override cfg) as [n|]; [discriminate |].
    intro H. split; [reflexivity |].
    destruct pool as [[|x l]|]; auto.
    destruct (random_seed_member r (x :: l) ltac:(discriminate) H0 H1)
      as (s & _ & Hs).
    rewrite Hs in H. discriminate.
  - intros [Hov [-> | ->]]; rewrite Hov; [reflexivity |].
    now rewrite random_seed_empty.
Qed.

(** ** Reports to the renderer *)

Section Reports.

Variable cfg : Config.
Variable P : Action -> Prop.
Hypothesis HP : admits_reports P.

Lemma emits_send (m : UiMessage) : emits P (send m).
Proof.
  intro s. unfold send, bind, get, emit, throw. cbn.
  destruct (mainWindow s); cbn; repeat constructor. apply HP.
Qed.

Lemma emits_afterBooted (m : UiMessage) : emits P (afterBooted m).
Proof.
  unfold afterBooted. apply emits_bind; [apply emits_get | intro b].
  destruct b; [apply emits_send | apply emits_modify].
Qed.

Lemma step_emits_uncaught_reports (e : JsError) : step_emits P (uncaught cfg e).
Proof.
  intro s. unfold uncaught. destruct (TEST cfg).
  - repeat constructor. apply HP.
  - pose proof (emits_afterBooted (MsgError e) s) as H.
    unfold handleCrash.
    destruct (afterBooted (MsgError e) s) as [[s1 a1] [u|e']]; cbn in *.
    + constructor; [apply HP | exact H].
    + constructor; [apply HP |]. apply Forall_app. split; [exact H |].
      repeat constructor. apply HP.
Qed.

Lemma step_emits_listener (m : M unit) :
  emits P m -> step_emits P (listener cfg m).
Proof.
  intro Hm. unfold listener. apply step_emits_run; [exact Hm | |].
  - intro. apply step_emits_done.
  - apply step_emits_uncaught_reports.
Qed.

Lemma step_emits_main_failed_reports (e : JsError) :
  step_emits P (main_failed cfg e).
Proof.
  intro s. unfold main_failed.
  apply step_emits_listener. apply emits_afterBooted.
Qed.

End Reports.

Lemma no_gateway_spawn_reports : admits_reports no_gateway_spawn.
Proof. split; intros; exact I. Qed.

(** ** A supervisor that can no longer connect *)

Section Locked.

Variable cfg : Config.

Lemma locked_control s s' : control s' = control s -> locked s -> locked s'.
Proof.
  unfold control, locked. intro H. injection H as Hc Hr Hm.
  now rewrite Hc, Hr, Hm.
Qed.

Lemma locked_not_init s : locked s -> main_task s <> MainAwaitInitLCD.
Proof. intros (_ & _ & [H|[e H]]); rewrite H; discriminate. Qed.

Lemma quiet_listener (m : M unit) s :
  keeps control m -> emits no_gateway_spawn m -> quiet_step (listener cfg m) s.
Proof.
  intros Hk He. split.
  - now apply step_keeps_listener.
  - apply step_emits_listener; [apply no_gateway_spawn_reports | exact He].
Qed.

Lemma quiet_and_then (f g : Step) s :
  locked s ->
  (forall t, locked t -> quiet_step f t) ->
  (forall t, locked t -> quiet_step g t) ->
  quiet_step (and_then f g) s.
Proof.
  intros Hl Hf Hg. unfold quiet_step, and_then in *.
  destruct (Hf s Hl) as [Hc1 He1]. destruct (f s) as [s1 a1]. cbn in *.
  assert (Hl1 : locked s1) by (eapply locked_control; eassumption).
  destruct (Hg s1 Hl1) as [Hc2 He2]. destruct (g s1) as [s2 a2]. cbn in *.
  split; [congruence | apply Forall_app; auto].
Qed.

Lemma quiet_settle_trust signal req s :
  locked s -> quiet_step (settle_trust cfg signal req) s.
Proof.
  intro Hl. unfold quiet_step, settle_trust, run.
  set (m := if handleHashVerification (tr_hash req) signal
            then on_trust_approved req
            else on_trust_rejected cfg req).
  assert (Hk : keeps control m).
  { subst m. destruct (handleHashVerification (tr_hash req) signal);
      [apply keeps_on_trust_approved | apply keeps_on_trust_rejected]. }
  assert (He : emits no_gateway_spawn m).
  { subst m. destruct (handleHashVerification (tr_hash req) signal).
    - unfold on_trust_approved. emissions.
    - unfold on_trust_rejected. emissions. }
  specialize (Hk s). specialize (He s).
  destruct (m s) as [[s1 a1] [u|e]]; cbn in Hk, He.
  - cbn. rewrite app_nil_r. now split.
  - assert (Hl1 : locked s1) by (eapply locked_control; eassumption).
    rewrite (settle_init_idle cfg (Throw e) s1 (locked_not_init s1 Hl1)).
    cbn. rewrite app_nil_r. now split.
Qed.

Lemma quiet_trust_signal signal s :
  locked s -> quiet_step (on_trust_signal cfg signal) s.
Proof.
  intro Hl. unfold quiet_step, on_trust_signal.
  assert (H0 : locked (set_trust_requests [] s)) by exact Hl.
  change (control s) with (control (set_trust_requests [] s)).
  revert H0. generalize (set_trust_requests [] s).
  induction (trust_requests s) as [|req l IH]; intros t Ht; cbn [for_each].
  - split; [reflexivity | constructor].
  - apply quiet_and_then; [exact Ht | |].
    + intros. now apply quiet_settle_trust.
    + intros u Hu. apply IH. exact Hu.
Qed.

(** In a locked state no event changes the control state or spawns a
    gateway. *)
Lemma locked_step e s : locked s -> quiet_step (step cfg e) s.
Proof.
  intro Hl. pose proof Hl as (Hconn & Hrec & Hmain).
  assert (Hidle : forall t : State * list Action,
             t = (s, []) -> control (fst t) = control s
                            /\ Forall no_gateway_spawn (snd t)).
  { intros t ->. split; [reflexivity | constructor]. }
  unfold quiet_step.
  destruct e; cbn [step].
  - split; [reflexivity | constructor].
  - destruct (mainWindow s); split; try reflexivity; constructor.
  - destruct (mainWindow s); try (now apply Hidle).
    apply quiet_listener; [apply keeps_shutdown | unfold shutdown; emissions].
  - destruct (TEST cfg); [now apply Hidle |].
    apply quiet_listener; [apply keeps_shutdown | unfold shutdown; emissions].
  - apply Hidle. destruct Hmain as [H|[e H]]; now rewrite H.
  - unfold on_stdout.
    destruct (lookup_child p (children s)) as [[| | |]|]; try (now apply Hidle).
    + apply Hidle. destruct Hmain as [H|[e H]]; now rewrite H.
    + apply quiet_listener; [apply keeps_on_init_stdout |].
      unfold on_init_stdout. destruct (hash_exec data); [| apply emits_ret].
      apply emits_bind; [| intro; apply emits_modify].
      apply emits_afterBooted, no_gateway_spawn_reports.
    + destruct (includes data "Serving on"); [| now apply Hidle].
      apply Hidle. unfold on_serving. rewrite Hrec. cbn [find_connecting].
      destruct Hmain as [H|[e H]]; now rewrite H.
  - apply Hidle. unfold on_stderr.
    destruct (lookup_child p (children s)) as [[| | |]|]; try reflexivity;
      destruct Hmain as [H|[e H]]; now rewrite H.
  - unfold on_exit.
    destruct (lookup_child p (children s)) as [cmd|]; [| now apply Hidle].
    apply quiet_and_then; [exact Hl | |].
    + intros t Ht. destruct cmd;
        try (split; [reflexivity | constructor]).
      apply quiet_listener; [apply keeps_afterBooted |].
      apply emits_afterBooted, no_gateway_spawn_reports.
    + intros t Ht. unfold quiet_step.
      destruct (existsb (Nat.eqb p) (exit_waits t));
        [| split; [reflexivity | constructor]].
      rewrite settle_init_idle; [split; [reflexivity | constructor] |].
      cbn. now apply locked_not_init.
  - unfold on_child_error.
    destruct (lookup_child p (children s)); [| now apply Hidle].
    destruct (negb (shuttingDown s && econnreset)); [| now apply Hidle].
    apply quiet_listener; [apply keeps_handleCrash |].
    apply emits_afterBooted, no_gateway_spawn_reports.
  - unfold on_booted. apply quiet_listener.
    + frame. apply keeps_flush.
    + apply emits_bind; [destruct (ipc_ready s); [apply emits_modify | apply emits_ret] |].
      intro. apply emits_bind; [apply emits_get |]. intro q.
      induction q as [|m q IH]; cbn [flush]; [apply emits_ret |].
      apply emits_bind; [apply emits_modify | intro].
      apply emits_bind; [apply emits_send, no_gateway_spawn_reports | intro].
      exact IH.
  - apply Hidle. unfold on_reconnect, run, reconnect, bind, get, ret.
    rewrite Hconn. now destruct (ipc_ready s).
  - now apply quiet_trust_signal.
  - now apply quiet_trust_signal.
  - apply Hidle. unfold on_probe. rewrite Hrec. now destruct i.
  - apply Hidle. unfold on_timer. rewrite Hrec. now destruct i.
Qed.

Lemma locked_steps es s :
  locked s ->
  control (fst (steps cfg es s)) = control s
  /\ Forall no_gateway_spawn (snd (steps cfg es s)).
Proof.
  revert s. induction es as [|e es IH]; intros s Hl; cbn [steps].
  - split; [reflexivity | constructor].
  - unfold and_then. destruct (locked_step e s Hl) as [Hc He].
    destruct (step cfg e s) as [s1 a1]. cbn in *.
    assert (Hl1 : locked s1) by (eapply locked_control; eassumption).
    destruct (IH s1 Hl1) as [Hc' He'].
    destruct (steps cfg es s1) as [s2 a2]. cbn in *.
    split; [congruence | apply Forall_app; auto].
Qed.

Lemma locked_ignores_reconnect s :
  locked s -> step cfg EvReconnect s = (s, []).
Proof.
  intros (Hconn & _). unfold step, on_reconnect, run, reconnect, bind, get, ret.
  rewrite Hconn. now destruct (ipc_ready s).
Qed.

End Locked.

(** X8.  A failed start-up is final.  Once [main] has failed, whatever
    happens afterwards, it stays failed, [connecting] stays set, no call of
    [reconnect] is ever started (requests are ignored), and no gateway is ever
    spawned. *)
Theorem failed_startup_is_final
    (cfg : Config) (d : Disk) (s : State) (e : JsError) :
  reachable cfg d s ->
  main_task s = MainFailed e ->
  forall es,
    main_task (fst (steps cfg es s)) = MainFailed e
    /\ connecting (fst (steps cfg es s)) = true
    /\ reconnects (fst (steps cfg es s)) = []
    /\ Forall no_gateway_spawn (snd (steps cfg es s))
    /\ step cfg EvReconnect (fst (steps cfg es s)) = (fst (steps cfg es s), []).
Proof.
  intros Hreach Hfail es.
  destruct (reachable_Inv cfg d s Hreach) as (_ & _ & Hm).
  destruct Hm as [Hconn Hrec]; [rewrite Hfail; discriminate |].
  assert (Hl : locked s) by (repeat split; eauto).
  destruct (locked_steps cfg es s Hl) as [Hc He].
  assert (Hl' : locked (fst (steps cfg es s)))
    by (eapply locked_control; eassumption).
  unfold control in Hc. injection Hc as Hc1 Hc2 Hc3.
  split; [congruence |]. split; [congruence |]. split; [congruence |].
  split; [exact He | now apply locked_ignores_reconnect].
Qed.

(** X9.  A reconnect without a gateway handle.  If [lcdProcess] is not a
    child when the probe finds a node alive (the handle is undefined after a
    failed spawn, null after a shutdown), [reconnect] throws on
    [lcdProcess.kill] before it restarts anything: nothing is killed or
    spawned, and since [connecting] is never cleared again every later
    reconnect request is ignored. *)
Theorem reconnect_without_gateway_locks
    (cfg : Config) (s : State) (sd : option (list string)) (node : string) :
  reconnects s = [RcProbing sd node] ->
  connecting s = true ->
  main_task s = MainDone ->
  (forall p, lcdProcess s <> LcdChild p) ->
  hd_error (snd (step cfg (EvProbe 0 true) s)) = Some (AUncaught TypeError)
  /\ children (fst (step cfg (EvProbe 0 true) s)) = children s
  /\ (forall a, In a (snd (step cfg (EvProbe 0 true) s)) ->
        match a with ASpawn _ _ | AKill _ _ => False | _ => True end)
  /\ forall es,
       let s' := fst (steps cfg es (fst (step cfg (EvProbe 0 true) s))) in
       connecting s' = true /\ reconnects s' = []
       /\ step cfg EvReconnect s' = (s', []).
Proof.
  intros Hrec Hconn Hmain Hlcd.
  assert (Hstep : step cfg (EvProbe 0 true) s
                  = uncaught cfg TypeError (set_reconnects [] s)).
  { unfold step, on_probe. rewrite Hrec. cbn [nth_error negb].
    unfold resume, run. rewrite reconnect_after_loop_eq.
    destruct (lcdProcess s) as [| |p] eqn:E; [| | now destruct (Hlcd p)];
      rewrite Hrec; cbn [replace_nth];
      now destruct (uncaught cfg TypeError (set_reconnects [] s)). }
  rewrite Hstep.
  assert (Hshape : exists t acts,
             uncaught cfg TypeError (set_reconnects [] s)
             = (t, AUncaught TypeError :: acts)
             /\ control t = control (set_reconnects [] s)
             /\ children t = children s
             /\ forall a, In a acts ->
                  match a with ASpawn _ _ | AKill _ _ => False | _ => True end).
  { unfold uncaught. destruct (TEST cfg).
    - exists (set_reconnects [] s), []. repeat split. intros a [].
    - unfold handleCrash, afterBooted, send, bind, get, modify, emit, throw.
      cbn. destruct (booted s); cbn; [destruct (mainWindow s) |]; cbn;
        eexists; eexists; (split; [reflexivity |]); repeat split;
        intros a Hin; cbn in Hin;
        repeat (destruct Hin as [<-|Hin]; [exact I |]); destruct Hin. }
  destruct Hshape as (t & acts & -> & Hc & Hch & Hacts). cbn [fst snd hd_error].
  split; [reflexivity | split; [exact Hch | split]].
  - intros a [<-|Hin]; [exact I | now apply Hacts].
  - intro es. cbv zeta. set (s' := fst (steps cfg es t)).
    assert (Hl : locked t).
    { apply (locked_control (set_reconnects [] s) t Hc).
      repeat split; cbn; auto. }
    destruct (locked_steps cfg es t Hl) as [Hc' _].
    assert (Hl' : locked s') by (eapply locked_control; eassumption).
    destruct Hl' as (H1 & H2 & H3).
    repeat split; auto.
    apply locked_ignores_reconnect. repeat split; auto.
Qed.

(** ** The queue of [afterBooted] *)

Lemma flush_open (q : list UiMessage) (s : State) :
  mainWindow s = WinOpen ->
  exists s',
    flush q s = (s', map ASend q, Ok tt)
    /\ booted_queue s' = match q with [] => booted_queue s | _ => [] end
    /\ mainWindow s' = WinOpen
    /\ booted s' = booted s
    /\ ipc_ready s' = ipc_ready s.
Proof.
  revert s. induction q as [|m q IH]; intros s Hw; cbn [flush map].
  - exists s. now repeat split.
  - destruct (IH (set_booted_queue q s) Hw) as (s' & Hf & Hq & Hw' & Hb & Hi).
    exists s'. unfold bind, modify, send, get, emit. cbn. rewrite Hw. cbn.
    rewrite Hf. cbn. repeat split; auto.
    rewrite Hq. now destruct q.
Qed.

Lemma on_booted_open (cfg : Config) (s : State) :
  mainWindow s = WinOpen ->
  exists s',
    step cfg EvBooted s = (s', map ASend (booted_queue s))
    /\ booted_queue s' = []
    /\ mainWindow s' = WinOpen
    /\ booted s' = (ipc_ready s || booted s)
    /\ ipc_ready s' = ipc_ready s.
Proof.
  intro Hw. cbn [step]. unfold on_booted, listener, run, bind, get, modify, ret.
  destruct (ipc_ready s) eqn:Hi; cbn.
  - destruct (flush_open (booted_queue s) (set_booted true s) Hw)
      as (s' & Hf & Hq & Hw' & Hb & Hi').
    cbn in Hf. rewrite Hf. cbn. exists s'. rewrite app_nil_r.
    repeat split; auto.
    + rewrite Hq. cbn. now destruct (booted_queue s).
    + cbn in Hi'. congruence.
  - destruct (flush_open (booted_queue s) s Hw)
      as (s' & Hf & Hq & Hw' & Hb & Hi').
    rewrite Hf. cbn. exists s'. rewrite app_nil_r.
    repeat split; auto.
    + rewrite Hq. now destruct (booted_queue s).
    + congruence.
Qed.

(** X10.  What [afterBooted] queued is delivered once.  With a window open,
    the "booted" message of the renderer makes the supervisor send the queued
    messages, in the order in which they were queued, and empties the queue: a
    second "booted" sends nothing.  Once [handleIPC] has run, [booted] is set
    and [afterBooted] sends at once from then on. *)
Theorem booted_delivers_queue_once (cfg : Config) (s : State) (m : UiMessage) :
  mainWindow s = WinOpen ->
  let s' := fst (step cfg EvBooted s) in
  snd (step cfg EvBooted s) = map ASend (booted_queue s)
  /\ booted_queue s' = []
  /\ snd (step cfg EvBooted s') = []
  /\ (ipc_ready s = true -> afterBooted m s' = (s', [ASend m], Ok tt)).
Proof.
  intros Hw s'. subst s'.
  destruct (on_booted_open cfg s Hw) as (s' & Hs & Hq & Hw' & Hb & Hi).
  rewrite Hs. cbn [fst snd].
  destruct (on_booted_open cfg s' Hw') as (s'' & Hs' & _).
  rewrite Hs', Hq. cbn.
  repeat split; auto.
  intro Hr. unfold afterBooted, send, bind, get, emit. cbn.
  rewrite Hb, Hr. cbn. rewrite Hw'. reflexivity.
Qed.

(** ** The steps of [main] *)

Lemma no_spawn_no_gateway a : no_spawn a -> no_gateway_spawn a.
Proof. now destruct a. Qed.

Lemma no_spawn_reports : admits_reports no_spawn.
Proof. split; intros; exact I. Qed.

Lemma main_failed_shape (cfg : Config) (e : JsError) (s : State) :
  main_task (fst (main_failed cfg e s)) = MainFailed e
  /\ connecting (fst (main_failed cfg e s)) = connecting s
  /\ reconnects (fst (main_failed cfg e s)) = reconnects s
  /\ children (fst (main_failed cfg e s)) = children s
  /\ Forall no_spawn (snd (main_failed cfg e s))
  /\ (booted s = true -> mainWindow s = WinOpen ->
      snd (main_failed cfg e s) = [ASend (MsgError e)]).
Proof.
  pose proof (step_keeps_listener cfg (handleCrash e) (keeps_handleCrash e)
                (set_main_task (MainFailed e) s)) as Hc.
  pose proof (step_emits_main_failed_reports cfg no_spawn no_spawn_reports e s)
    as He.
  unfold control in Hc. cbn in Hc. injection Hc as Hc1 Hc2 Hc3.
  unfold main_failed in *.
  split; [exact Hc3 |]. split; [exact Hc1 |]. split; [exact Hc2 |].
  split; [| split; [exact He |]].
  - unfold listener, run, uncaught, handleCrash, afterBooted, send, bind, get,
      modify, emit, throw, done.
    destruct s as [? w ? ? ? ? b]; cbn.
    destruct b, w, (TEST cfg); reflexivity.
  - intros Hb Hw.
    unfold listener, run, handleCrash, afterBooted, send, bind, get, emit, done.
    cbn. rewrite Hb. cbn. rewrite Hw. reflexivity.
Qed.

(** X11.  A gaia binary of another version stops the start-up for good.
    When the output of [gaia version], trimmed, differs from the trimmed
    content of the stored gaiaversion.txt, [main] fails with the "requires
    gaia" message, which is reported to the renderer, and neither then nor at
    any later event is a gateway spawned. *)
Theorem gaia_version_mismatch_is_fatal
    (cfg : Config) (d : Disk) (s : State) (p : pid) (init : bool)
    (data expected : string) :
  reachable cfg d s ->
  main_task s = MainAwaitVersion p init ->
  lookup_child p (children s) = Some CmdVersion ->
  root_file (disk s) gaiaversion_txt = Some expected ->
  trim data <> trim expected ->
  let failure := Error (gaia_version_message (trim expected) (trim data)) in
  main_task (fst (step cfg (EvStdout p data) s)) = MainFailed failure
  /\ Forall no_spawn (snd (step cfg (EvStdout p data) s))
  /\ (booted s = true -> mainWindow s = WinOpen ->
      snd (step cfg (EvStdout p data) s) = [ASend (MsgError failure)])
  /\ forall es,
       Forall no_gateway_spawn (snd (steps cfg (EvStdout p data :: es) s)).
Proof.
  intros Hreach Hmain Hchild Hfile Hneq failure.
  destruct (reachable_Inv cfg d s Hreach) as (_ & _ & Hm).
  destruct Hm as [Hconn Hrec]; [rewrite Hmain; discriminate |].
  assert (Hstep : step cfg (EvStdout p data) s = main_failed cfg failure s).
  { cbn [step]. unfold on_stdout. rewrite Hchild, Hmain, Nat.eqb_refl.
    unfold run_main, run, main_after_version, bind, get, lift, readFileSync,
      throw.
    rewrite Hfile. cbn.
    destruct (String.eqb_spec (trim data) (trim expected)) as [E|_];
      [contradiction |].
    cbn. now destruct (main_failed cfg _ s). }
  destruct (main_failed_shape cfg failure s)
    as (Hm' & Hc' & Hr' & _ & Hsp & Hsend).
  rewrite Hstep. split; [exact Hm' |]. split; [exact Hsp |].
  split; [exact Hsend |].
  intro es. cbn [steps]. unfold and_then. rewrite Hstep.
  destruct (main_failed cfg failure s) as [s1 a1] eqn:E. cbn in *.
  assert (Hl : locked s1).
  { repeat split; [congruence | congruence | right; eauto]. }
  destruct (locked_steps cfg es s1 Hl) as [_ He].
  destruct (steps cfg es s1) as [s2 a2]. cbn in *.
  apply Forall_app. split; [| exact He].
  eapply Forall_impl; [| exact Hsp]. apply no_spawn_no_gateway.
Qed.

(** X12.  The decision after [lcdInitialized].  The first stderr output of
    the probing child decides: "already is initialized" on a directory that
    was not just created starts the gateway without any init; a fresh
    directory, or the complaint about the missing chain id, starts
    [gaia client init] for the picked node; any other output fails the
    start-up, also on a fresh directory, and spawns nothing. *)
Theorem lcd_initialized_decides
    (cfg : Config) (s : State) (p : pid) (init : bool) (chainId : JsProperty)
    (home data : string) :
  main_task s = MainAwaitInitCheck p init chainId ->
  lookup_child p (children s) = Some (CmdInitCheck home) ->
  spawn_throws cfg (next_pid s) = false ->
  let already := includes data "already is initialized" in
  let required :=
    includes data (dquote ++ "--chain-id" ++ dquote ++ " required") in
  let r := step cfg (EvStderr p data) s in
  (already = true -> init = false ->
     snd r = [ASpawn (next_pid s)
                (CmdRestServer (LCD_PORT cfg) (lcdHome cfg) (nodeIP s))]
     /\ main_task (fst r) = MainAwaitConnect (next_pid s) (nodeIP s))
  /\ ((already = true /\ init = true) \/ (already = false /\ required = true) ->
      snd r = [ASpawn (next_pid s) (CmdInit (lcdHome cfg) chainId (nodeIP s))]
      /\ main_task (fst r) = MainAwaitInitLCD)
  /\ (already = false -> required = false ->
      main_task (fst r)
        = MainFailed
            (Reason ("Unknown state for Gaia initialization: " ++ data))
      /\ Forall no_spawn (snd r)).
Proof.
  intros Hmain Hchild Hspawn already required r.
  assert (Hstep : r = run_main cfg (main_after_initcheck cfg init chainId data) s).
  { subst r. cbn [step]. unfold on_stderr.
    now rewrite Hchild, Hmain, Nat.eqb_refl. }
  rewrite Hstep. clear Hstep r.
  unfold run_main, run, main_after_initcheck, lcdInitialized_settles.
  fold already. fold required.
  split; [| split].
  - intros Ha Hi. rewrite Ha, Hi. cbv iota.
    change (lift (Ok true)) with (@ret bool true).
    rewrite bind_ret. cbn [orb negb].
    unfold main_connect, bind at 1, get. cbn. unfold bind.
    rewrite connect_eq, Hspawn. cbn. now split.
  - intros [[Ha Hi]|[Ha Hr]].
    + rewrite Ha, Hi. cbv iota.
      change (lift (Ok true)) with (@ret bool true).
      rewrite bind_ret. cbn [orb negb].
      unfold bind at 1, get. cbn. unfold bind, initLCD.
      rewrite startProcess_eq, Hspawn. cbn. now split.
    + rewrite Ha, Hr. cbv iota.
      change (lift (Ok false)) with (@ret bool false).
      rewrite bind_ret. cbn [negb]. rewrite orb_true_r.
      unfold bind at 1, get. cbn. unfold bind, initLCD.
      rewrite startProcess_eq, Hspawn. cbn. now split.
  - intros Ha Hr. rewrite Ha, Hr. cbv iota. unfold bind, lift. cbn.
    destruct (main_failed_shape cfg
                (Reason ("Unknown state for Gaia initialization: " ++ data)) s)
      as (Hm' & _ & _ & _ & Hsp & _).
    destruct (main_failed cfg _ s) as [s1 a1]. cbn in *. now split.
Qed.

(** X13.  An approved hash completes the handshake.  While [main] waits for
    [initLCD], the approval of the hash of the outstanding request answers the
    prompt of the init child with "y"; when that child then exits with code 0
    the gateway is spawned for the node in [nodeIP], and when it exits with
    any other code the start-up fails with "gaia init exited unplanned" and
    nothing is spawned. *)
Theorem approved_hash_completes_handshake
    (cfg : Config) (s : State) (req : TrustRequest) (cmd : Command) :
  trust_requests s = [req] ->
  shuttingDown s = false ->
  main_task s = MainAwaitInitLCD ->
  exit_waits s = [] ->
  lookup_child (tr_child req) (children s) = Some cmd ->
  (forall port home node, cmd <> CmdRestServer port home node) ->
  spawn_throws cfg (next_pid s) = false ->
  let s1 := fst (step cfg (EvHashApproved (tr_hash req)) s) in
  snd (step cfg (EvHashApproved (tr_hash req)) s)
    = [AStdinWrite (tr_child req) ("y" ++ newline)]
  /\ main_task s1 = MainAwaitInitLCD
  /\ trust_requests s1 = []
  /\ snd (step cfg (EvExit (tr_child req) 0) s1)
     = [ASpawn (next_pid s)
          (CmdRestServer (LCD_PORT cfg) (lcdHome cfg) (nodeIP s))]
  /\ main_task (fst (step cfg (EvExit (tr_child req) 0) s1))
     = MainAwaitConnect (next_pid s) (nodeIP s)
  /\ forall code, code <> 0%Z ->
       main_task (fst (step cfg (EvExit (tr_child req) code) s1))
         = MainFailed (Error "gaia init exited unplanned")
       /\ Forall no_spawn (snd (step cfg (EvExit (tr_child req) code) s1)).
Proof.
  intros Hreq Hsd Hmain Hwaits Hchild Hcmd Hspawn s1.
  assert (Hs1 : step cfg (EvHashApproved (tr_hash req)) s
                = (set_exit_waits [tr_child req] (set_trust_requests [] s),
                   [AStdinWrite (tr_child req) ("y" ++ newline)])).
  { cbn [step]. unfold on_trust_signal. rewrite Hreq. cbn [for_each].
    unfold and_then, settle_trust, handleHashVerification.
    rewrite String.eqb_refl.
    unfold run, on_trust_approved, bind, get, emit, modify, done. cbn.
    rewrite Hsd. cbn. now rewrite Hwaits. }
  subst s1. rewrite Hs1. cbn [fst snd].
  set (s1 := set_exit_waits [tr_child req] (set_trust_requests [] s)).
  split; [reflexivity |]. split; [exact Hmain |]. split; [reflexivity |].
  assert (Hexit : forall code,
            step cfg (EvExit (tr_child req) code) s1
            = settle_init cfg
                (expectCleanExit "gaia init exited unplanned" code false)
                (set_exit_waits [] s1)).
  { intro code. cbn [step]. unfold on_exit. subst s1. cbn [children set_exit_waits
      set_trust_requests]. rewrite Hchild.
    unfold and_then.
    assert (Hrep : match cmd with
                   | CmdRestServer _ _ _ =>
                       listener cfg (afterBooted (MsgError lcd_exited))
                   | _ => done
                   end = done).
    { destruct cmd as [| | |port home node]; try reflexivity.
      now destruct (Hcmd port home node). }
    rewrite Hrep. unfold done. cbn [exit_waits set_exit_waits existsb].
    rewrite Nat.eqb_refl. cbn [orb filter negb shuttingDown set_exit_waits
      set_trust_requests]. rewrite Hsd, Nat.eqb_refl. cbn [negb].
    now destruct (settle_init cfg _ _). }
  split; [| split].
  - rewrite Hexit. unfold settle_init, expectCleanExit. cbn.
    rewrite Hmain. unfold run_main, run, main_connect, bind, get. cbn.
    rewrite connect_eq. cbn. rewrite Hspawn. reflexivity.
  - rewrite Hexit. unfold settle_init, expectCleanExit. cbn.
    rewrite Hmain. unfold run_main, run, main_connect, bind, get. cbn.
    rewrite connect_eq. cbn. rewrite Hspawn. reflexivity.
  - intros code Hcode. rewrite Hexit. unfold settle_init, expectCleanExit.
    destruct (Z.eqb_spec code 0) as [E|_]; [contradiction |]. cbn.
    rewrite Hmain.
    destruct (main_failed_shape cfg (Error "gaia init exited unplanned")
                (set_exit_waits [] s1)) as (Hm' & _ & _ & _ & Hsp & _).
    now split.
Qed.

(** ** Shutting down *)

Lemma emits_lift (P : Action -> Prop) {A} (r : Result A) : emits P (lift r).
Proof. intro s. constructor. Qed.

Lemma emits_lift_option (P : Action -> Prop) {A} (e : JsError) (o : option A) :
  emits P (lift_option e o).
Proof. destruct o; intro s; constructor. Qed.

Ltac tame_body :=
  split;
  [ frame
  | repeat first [ apply emits_lift | apply emits_lift_option
                 | progress emissions ] ].

Section Shutdown.

Variable cfg : Config.

Lemma tame_afterBooted m : tame (afterBooted m).
Proof. unfold afterBooted, send. tame_body. Qed.

Lemma tame_startProcess cmd : tame (startProcess cfg cmd).
Proof. unfold startProcess. tame_body. Qed.

Lemma tame_pick sd : tame (pick cfg sd).
Proof. unfold pick. tame_body. Qed.

Lemma tame_bind {A B} (m : M A) (k : A -> M B) :
  tame m -> (forall a, tame (k a)) -> tame (bind m k).
Proof.
  intros [Hk He] H. split.
  - apply keeps_bind; [exact Hk | intro a; apply H].
  - apply emits_bind; [exact He | intro a; apply H].
Qed.

Lemma tame_ret {A} (a : A) : tame (ret a).
Proof. tame_body. Qed.

Lemma tame_connect_finish child node : tame (connect_finish child node).
Proof.
  unfold connect_finish.
  apply tame_bind; [tame_body | intro].
  apply tame_bind; [apply tame_afterBooted | intro]. tame_body.
Qed.

Lemma tame_connect node : tame (connect cfg node).
Proof.
  unfold connect. apply tame_bind.
  - split.
    + apply keeps_catch; [| intro; apply keeps_ret].
      apply keeps_bind; [apply tame_startProcess | intro; apply keeps_ret].
    + intro s. unfold catch, startLCD, bind. rewrite startProcess_eq.
      destruct (spawn_throws cfg (next_pid s)); cbn; repeat constructor.
  - intros [p|]; [apply tame_ret |].
    apply tame_bind; [apply tame_connect_finish | intro; apply tame_ret].
Qed.

Lemma tame_main_connect : tame (main_connect cfg).
Proof.
  unfold main_connect. apply tame_bind; [tame_body | intro node].
  apply tame_bind; [apply tame_connect | intros [p|]; apply tame_ret].
Qed.

Lemma tame_main_after_ensureDir : tame (main_after_ensureDir cfg).
Proof.
  unfold main_after_ensureDir.
  apply tame_bind; [tame_body | intro].
  apply tame_bind; [tame_body | intro d].
  destruct (prepare_directory cfg d) as [r d'].
  apply tame_bind; [tame_body | intro].
  apply tame_bind; [tame_body | intro].
  apply tame_bind; [apply tame_startProcess | intro; apply tame_ret].
Qed.

Lemma tame_main_after_version init data :
  tame (main_after_version cfg init data).
Proof.
  unfold main_after_version.
  apply tame_bind; [tame_body | intro d].
  apply tame_bind; [tame_body | intro].
  match goal with |- tame (if ?b then _ else _) => destruct b end;
    [tame_body |].
  apply tame_bind; [tame_body | intro].
  apply tame_bind; [tame_body | intro genesis].
  apply tame_bind; [destruct (get_prop genesis "chain_id"); tame_body | intro].
  apply tame_bind; [tame_body | intro].
  apply tame_bind; [tame_body | intro].
  apply tame_bind; [tame_body | intro].
  match goal with |- tame (if ?b then _ else _) => destruct b end;
    [tame_body |].
  apply tame_bind; [apply tame_pick | intro].
  apply tame_bind; [tame_body | intro].
  apply tame_bind; [apply tame_startProcess | intro; apply tame_ret].
Qed.

Lemma tame_main_after_initcheck init chainId data :
  tame (main_after_initcheck cfg init chainId data).
Proof.
  unfold main_after_initcheck.
  apply tame_bind; [tame_body | intro initialized].
  destruct (init || negb initialized); [| apply tame_main_connect].
  apply tame_bind; [tame_body | intro].
  apply tame_bind; [apply tame_startProcess | intro; apply tame_ret].
Qed.

Lemma tame_on_init_stdout p home chainId data :
  tame (on_init_stdout p home chainId data).
Proof.
  unfold on_init_stdout. destruct (hash_exec data); [| apply tame_ret].
  apply tame_bind; [apply tame_afterBooted | intro]. tame_body.
Qed.

Lemma tame_on_trust_rejected req : tame (on_trust_rejected cfg req).
Proof.
  unfold on_trust_rejected.
  apply tame_bind; [tame_body | intro].
  apply tame_bind; [tame_body | intros [|]]; [apply tame_ret |].
  apply tame_bind; [tame_body | intro].
  apply tame_bind; [apply tame_pick | intro].
  apply tame_bind; [tame_body | intro].
  apply tame_bind; [apply tame_startProcess | intro; apply tame_ret].
Qed.

Lemma tame_flush q : tame (flush q).
Proof.
  induction q as [|m q IH]; cbn [flush]; [apply tame_ret |].
  apply tame_bind; [tame_body | intro].
  apply tame_bind; [unfold send; tame_body | intro]. exact IH.
Qed.

Lemma tame_reconnect_probe sd : tame (reconnect_probe cfg sd).
Proof.
  unfold reconnect_probe.
  apply tame_bind; [apply tame_pick | intro].
  apply tame_bind; [tame_body | intro; apply tame_ret].
Qed.

Lemma tame_reconnect : tame (reconnect cfg).
Proof.
  unfold reconnect.
  apply tame_bind; [tame_body | intros [|]]; [apply tame_ret |].
  apply tame_bind; [tame_body | intro].
  apply tame_bind; [tame_body | intro].
  apply tame_bind; [apply tame_reconnect_probe | intro; apply tame_ret].
Qed.

Lemma tame_reconnect_after_loop : tame (reconnect_after_loop cfg).
Proof.
  unfold reconnect_after_loop.
  apply tame_bind; [tame_body | intro lcd].
  apply tame_bind; [destruct lcd; tame_body | intro].
  apply tame_bind; [tame_body | intro].
  apply tame_bind; [apply tame_connect | intros [p|]; apply tame_ret].
Qed.

Lemma step_tame_done : step_tame done.
Proof. split; [apply step_keeps_done | apply step_emits_done]. Qed.

Lemma step_tame_run {A} (m : M A) (k : A -> Step) (h : JsError -> Step) :
  tame m -> (forall a, step_tame (k a)) -> (forall e, step_tame (h e)) ->
  step_tame (run m k h).
Proof.
  intros [Hk He] Hr Ht. split.
  - apply step_keeps_run; [exact Hk | intro; apply Hr | intro; apply Ht].
  - apply step_emits_run; [exact He | intro; apply Hr | intro; apply Ht].
Qed.

Lemma step_tame_uncaught e : step_tame (uncaught cfg e).
Proof.
  split; [| apply step_emits_uncaught].
  intro s. unfold uncaught. destruct (TEST cfg); [reflexivity |].
  pose proof (proj1 (tame_afterBooted (MsgError e)) s) as H.
  unfold handleCrash.
  now destruct (afterBooted (MsgError e) s) as [[s1 a1] [u|e']].
Qed.

Lemma step_tame_listener m : tame m -> step_tame (listener cfg m).
Proof.
  intro H. apply step_tame_run; [exact H | |].
  - intro. apply step_tame_done.
  - apply step_tame_uncaught.
Qed.

Lemma step_tame_main_failed e : step_tame (main_failed cfg e).
Proof.
  destruct (step_tame_listener _ (tame_afterBooted (MsgError e))) as [Hk He].
  split; intro s; unfold main_failed, handleCrash;
    [now rewrite Hk | apply He].
Qed.

Lemma step_tame_run_main m : tame m -> step_tame (run_main cfg m).
Proof.
  intro H. apply step_tame_run; [exact H | |].
  - intro t. split; intro s; [reflexivity | constructor].
  - apply step_tame_main_failed.
Qed.

Lemma step_tame_resume i m : tame m -> step_tame (resume cfg i m).
Proof.
  intro H. apply step_tame_run; [exact H | |].
  - intro t. split; intro s; [reflexivity | constructor].
  - intro e. destruct (step_tame_uncaught e) as [Hk He].
    split; intro s; [now rewrite Hk | apply He].
Qed.

Lemma step_tame_settle_init r : step_tame (settle_init cfg r).
Proof.
  destruct (step_tame_run_main _ tame_main_connect) as [Hk He].
  split; intro s; unfold settle_init;
    destruct (main_task s); try reflexivity; try constructor;
    destruct r as [u|e];
    first [ apply Hk | apply He
          | apply (proj1 (step_tame_main_failed e))
          | apply (proj2 (step_tame_main_failed e)) ].
Qed.

Lemma shut_tame (f : Step) (s : State) :
  step_tame f -> shuttingDown s = true -> shut_step f s.
Proof. intros [Hk He] Hs. split; [now rewrite Hk | apply He]. Qed.

Lemma shut_and_then (f g : Step) s :
  shut_step f s ->
  (forall t, shuttingDown t = true -> shut_step g t) ->
  shut_step (and_then f g) s.
Proof.
  unfold shut_step, and_then. intros [Hf He] Hg.
  destruct (f s) as [s1 a1]. cbn in *.
  destruct (Hg s1 Hf) as [Hg1 Hg2]. destruct (g s1) as [s2 a2]. cbn in *.
  split; [exact Hg1 | apply Forall_app; auto].
Qed.

Lemma shutdown_again s : shuttingDown s = true -> shutdown s = (s, [], Ok tt).
Proof. intro H. unfold shutdown, bind, get, ret. cbn. now rewrite H. Qed.

Lemma listener_shutdown_again s :
  shuttingDown s = true -> listener cfg shutdown s = (s, []).
Proof.
  intro H. unfold listener, run. now rewrite (shutdown_again s H).
Qed.

Lemma shut_settle_trust signal req s :
  shuttingDown s = true -> shut_step (settle_trust cfg signal req) s.
Proof.
  intro Hs. unfold settle_trust.
  destruct (handleHashVerification (tr_hash req) signal).
  - unfold shut_step, run, on_trust_approved, bind, get, ret, done. cbn.
    rewrite Hs. cbn. split; [exact Hs | constructor].
  - apply shut_tame; [| exact Hs].
    apply step_tame_run; [apply tame_on_trust_rejected | |].
    + intro. apply step_tame_done.
    + intro. apply step_tame_settle_init.
Qed.

Lemma shut_trust_signal signal s :
  shuttingDown s = true -> shut_step (on_trust_signal cfg signal) s.
Proof.
  intro Hs. unfold shut_step, on_trust_signal.
  assert (H0 : shuttingDown (set_trust_requests [] s) = true) by exact Hs.
  revert H0. generalize (set_trust_requests [] s).
  induction (trust_requests s) as [|req l IH]; intros t Ht; cbn [for_each].
  - split; [exact Ht | constructor].
  - apply shut_and_then; [now apply shut_settle_trust | exact IH].
Qed.

Lemma shut_one_step e s : shuttingDown s = true -> shut_step (step cfg e) s.
Proof.
  intro Hs.
  assert (Hidle : forall t : State * list Action,
             t = (s, []) ->
             shuttingDown (fst t) = true /\ Forall no_stdin_write (snd t)).
  { intros t ->. split; [exact Hs | constructor]. }
  unfold shut_step. destruct e; cbn [step].
  - split; [exact Hs | constructor].
  - destruct (mainWindow s); split; try exact Hs; constructor.
  - destruct (mainWindow s); try (now apply Hidle).
    apply Hidle. now apply listener_shutdown_again.
  - destruct (TEST cfg); [now apply Hidle |].
    apply Hidle. now apply listener_shutdown_again.
  - destruct (main_task s); try (now apply Hidle).
    apply shut_tame; [| exact Hs].
    apply step_tame_run_main, tame_main_after_ensureDir.
  - unfold on_stdout.
    destruct (lookup_child p (children s)) as [[| | |]|]; try (now apply Hidle).
    + destruct (main_task s); try (now apply Hidle).
      match goal with |- context [(?q =? p)%nat] => destruct (q =? p)%nat end; [| now apply Hidle].
      apply shut_tame; [| exact Hs].
      apply step_tame_run_main, tame_main_after_version.
    + apply shut_tame; [| exact Hs].
      apply step_tame_listener, tame_on_init_stdout.
    + destruct (includes data "Serving on"); [| now apply Hidle].
      assert (Hrec : shut_step
                (fun s => match find_connecting p (reconnects s) with
                          | Some (i, nd) =>
                              resume cfg i
                                (connect_finish (LcdChild p) nd ;; ret None) s
                          | None => (s, [])
                          end) s).
      { unfold shut_step.
        destruct (find_connecting p (reconnects s)) as [[i nd]|];
          [| now apply Hidle].
        apply shut_tame; [| exact Hs]. apply step_tame_resume.
        apply tame_bind; [apply tame_connect_finish | intro; apply tame_ret]. }
      unfold on_serving.
      destruct (main_task s); try exact Hrec.
      match goal with |- context [(?q =? p)%nat] => destruct (q =? p)%nat end; [| exact Hrec].
      apply shut_tame; [| exact Hs]. apply step_tame_run_main.
      apply tame_bind; [apply tame_connect_finish | intro; apply tame_ret].
  - unfold on_stderr.
    destruct (lookup_child p (children s)) as [[| | |]|]; try (now apply Hidle).
    destruct (main_task s); try (now apply Hidle).
    match goal with |- context [(?q =? p)%nat] => destruct (q =? p)%nat end; [| now apply Hidle].
    apply shut_tame; [| exact Hs].
    apply step_tame_run_main, tame_main_after_initcheck.
  - unfold on_exit.
    destruct (lookup_child p (children s)) as [cmd|]; [| now apply Hidle].
    apply shut_and_then.
    + apply shut_tame; [| exact Hs].
      destruct cmd; try apply step_tame_done.
      apply step_tame_listener, tame_afterBooted.
    + intros t Ht. unfold shut_step.
      destruct (existsb (Nat.eqb p) (exit_waits t));
        [| split; [exact Ht | constructor]].
      apply shut_tame; [apply step_tame_settle_init | exact Ht].
  - unfold on_child_error.
    destruct (lookup_child p (children s)); [| now apply Hidle].
    destruct (negb (shuttingDown s && econnreset)); [| now apply Hidle].
    apply shut_tame; [| exact Hs].
    apply step_tame_listener, tame_afterBooted.
  - unfold on_booted. apply shut_tame; [| exact Hs].
    apply step_tame_listener.
    apply tame_bind; [destruct (ipc_ready s); tame_body | intro].
    apply tame_bind; [tame_body | intro q]. apply tame_flush.
  - unfold on_reconnect. destruct (ipc_ready s); [| now apply Hidle].
    apply shut_tame; [| exact Hs].
    apply step_tame_run; [apply tame_reconnect | |].
    + intros [t|]; split; intro u; try reflexivity; constructor.
    + apply step_tame_uncaught.
  - now apply shut_trust_signal.
  - now apply shut_trust_signal.
  - unfold on_probe.
    destruct (nth_error (reconnects s) i) as [[sd node|sd|q node]|];
      try (now apply Hidle).
    apply shut_tame; [| exact Hs]. apply step_tame_resume.
    destruct (negb nodeAlive); [| apply tame_reconnect_after_loop].
    apply tame_bind; [tame_body | intro; apply tame_ret].
  - unfold on_timer.
    destruct (nth_error (reconnects s) i) as [[sd node|sd|q node]|];
      try (now apply Hidle).
    apply shut_tame; [| exact Hs]. apply step_tame_resume.
    apply tame_bind; [apply tame_reconnect_probe | intro; apply tame_ret].
Qed.

Lemma shut_steps es s : shuttingDown s = true -> shut_step (steps cfg es) s.
Proof.
  revert s. induction es as [|e es IH]; intros s Hs; cbn [steps].
  - split; [exact Hs | constructor].
  - apply shut_and_then; [now apply shut_one_step | exact IH].
Qed.

End Shutdown.

(** X14.  Shutting down is final.  Closing the window sets [shuttingDown],
    drops the window and kills the gateway, if one is held, with SIGKILL.
    From then on [shuttingDown] stays set whatever happens, an approval is
    never answered on the stdin of an init child, and a further shutdown
    request (the exit of the process) does nothing. *)
Theorem shutdown_is_final (cfg : Config) (s : State) (es : list Event) :
  mainWindow s = WinOpen ->
  shuttingDown s = false ->
  let s0 := fst (step cfg EvWindowClosed s) in
  snd (step cfg EvWindowClosed s)
    = match lcdProcess s with
      | LcdChild p => [AKill p SIGKILL]
      | _ => []
      end
  /\ mainWindow s0 = WinNull
  /\ (forall p, lcdProcess s0 <> LcdChild p)
  /\ shuttingDown (fst (steps cfg es s0)) = true
  /\ Forall no_stdin_write (snd (steps cfg es s0))
  /\ step cfg EvProcessExit (fst (steps cfg es s0)) = (fst (steps cfg es s0), []).
Proof.
  intros Hw Hs s0.
  assert (H0 : step cfg EvWindowClosed s
               = (match lcdProcess s with
                  | LcdChild p =>
                      set_lcdProcess LcdNull
                        (set_shuttingDown true (set_mainWindow WinNull s))
                  | _ => set_shuttingDown true (set_mainWindow WinNull s)
                  end,
                  match lcdProcess s with
                  | LcdChild p => [AKill p SIGKILL]
                  | _ => []
                  end)).
  { cbn [step]. rewrite Hw.
    unfold listener, run, shutdown, bind, get, modify, emit, ret, done. cbn.
    rewrite Hs. cbn. now destruct (lcdProcess s). }
  subst s0. rewrite H0. cbn [fst snd].
  set (s0 := match lcdProcess s with
             | LcdChild _ =>
                 set_lcdProcess LcdNull
                   (set_shuttingDown true (set_mainWindow WinNull s))
             | _ => set_shuttingDown true (set_mainWindow WinNull s)
             end).
  assert (Hs0 : shuttingDown s0 = true) by (subst s0; now destruct (lcdProcess s)).
  split; [reflexivity |].
  split; [subst s0; now destruct (lcdProcess s) |].
  split; [subst s0; intro p; destruct (lcdProcess s) eqn:E; cbn; congruence |].
  destruct (shut_steps cfg es s0 Hs0) as [Hfin Hw'].
  split; [exact Hfin |]. split; [exact Hw' |].
  cbn [step]. destruct (TEST cfg); [reflexivity |].
  now apply listener_shutdown_again.
Qed.

(** X15.  A gateway that cannot be spawned still counts as connected.  When
    [spawn] throws in [startLCD], [connect] swallows the rejection: the
    renderer is told "connected", [connecting] is cleared and [main] returns,
    although no gateway runs and [lcdProcess] is undefined. *)
Theorem failed_gateway_spawn_reports_connected
    (cfg : Config) (s : State) (p : pid) (chainId : JsProperty)
    (home data : string) :
  main_task s = MainAwaitInitCheck p false chainId ->
  lookup_child p (children s) = Some (CmdInitCheck home) ->
  includes data "already is initialized" = true ->
  spawn_throws cfg (next_pid s) = true ->
  booted s = true ->
  mainWindow s = WinOpen ->
  let r := step cfg (EvStderr p data) s in
  snd r = [ASend (MsgConnected (nodeIP s))]
  /\ main_task (fst r) = MainDone
  /\ connecting (fst r) = false
  /\ lcdProcess (fst r) = LcdUndefined
  /\ children (fst r) = children s.
Proof.
  intros Hmain Hchild Hdata Hspawn Hb Hw r.
  assert (Hstep : r = (set_main_task MainDone
                         (set_connecting false
                            (set_lcdProcess LcdUndefined
                               (set_next_pid (S (next_pid s)) s))),
                       [ASend (MsgConnected (nodeIP s))])).
  { subst r. cbn [step]. unfold on_stderr. rewrite Hchild, Hmain, Nat.eqb_refl.
    unfold run_main, run, main_after_initcheck, lcdInitialized_settles.
    rewrite Hdata. change (lift (Ok true)) with (@ret bool true).
    rewrite bind_ret. cbn [orb negb].
    unfold main_connect, bind at 1, get. cbn. unfold bind at 1.
    rewrite connect_eq, Hspawn.
    unfold connect_finish, afterBooted, send, bind, get, modify, emit, ret. cbn.
    rewrite Hb. cbn. rewrite Hw. reflexivity. }
  rewrite Hstep. now repeat split.
Qed.

(** ** A verdict is used up *)

Section Verdict.

Variable cfg : Config.

Lemma keeps_requests_afterBooted m : keeps trust_requests (afterBooted m).
Proof. unfold afterBooted, send. frame. Qed.

Lemma keeps_requests_connect node : keeps trust_requests (connect cfg node).
Proof.
  unfold connect, connect_finish, startLCD, startProcess. frame;
    apply keeps_requests_afterBooted.
Qed.

Lemma step_keeps_requests_uncaught e :
  step_keeps trust_requests (uncaught cfg e).
Proof.
  intro s. unfold uncaught. destruct (TEST cfg); [reflexivity |].
  pose proof (keeps_requests_afterBooted (MsgError e) s) as H.
  unfold handleCrash.
  now destruct (afterBooted (MsgError e) s) as [[s1 a1] [u|e']].
Qed.

Lemma step_keeps_requests_main_failed e :
  step_keeps trust_requests (main_failed cfg e).
Proof.
  assert (H : step_keeps trust_requests (listener cfg (handleCrash e))).
  { apply step_keeps_run; [apply keeps_requests_afterBooted | |].
    - intro. apply step_keeps_done.
    - apply step_keeps_requests_uncaught. }
  intro s. unfold main_failed. now rewrite H.
Qed.

Lemma step_keeps_requests_settle_init r :
  step_keeps trust_requests (settle_init cfg r).
Proof.
  assert (H : step_keeps trust_requests (run_main cfg (main_connect cfg))).
  { apply step_keeps_run.
    - unfold main_connect. frame; apply keeps_requests_connect.
    - intros t u. reflexivity.
    - apply step_keeps_requests_main_failed. }
  intro s. unfold settle_init. destruct (main_task s); try reflexivity.
  destruct r; [apply H | apply step_keeps_requests_main_failed].
Qed.

Lemma step_keeps_requests_settle_trust signal req :
  step_keeps trust_requests (settle_trust cfg signal req).
Proof.
  unfold settle_trust. apply step_keeps_run.
  - destruct (handleHashVerification (tr_hash req) signal).
    + unfold on_trust_approved. frame.
    + unfold on_trust_rejected, initLCD, startProcess, pick. frame.
  - intro. apply step_keeps_done.
  - intro. apply step_keeps_requests_settle_init.
Qed.

Lemma trust_signal_retires signal s :
  trust_requests (fst (on_trust_signal cfg signal s)) = [].
Proof.
  unfold on_trust_signal.
  now rewrite (step_keeps_for_each trust_requests (settle_trust cfg signal)
                 (trust_requests s)
                 (step_keeps_requests_settle_trust signal)).
Qed.

End Verdict.

(** X16.  A verdict is used up.  Whatever the renderer answers, approval with
    any hash or disapproval, all outstanding trust requests are retired by it:
    a second answer that arrives before an init child has printed a new hash
    makes the supervisor do nothing, whatever it is. *)
Theorem verdict_is_used_up
    (cfg : Config) (s : State) (first second : option string) :
  trust_requests (fst (step cfg (verdict first) s)) = []
  /\ snd (step cfg (verdict second) (fst (step cfg (verdict first) s))) = [].
Proof.
  assert (Hsig : forall answer t,
            step cfg (verdict answer) t = on_trust_signal cfg answer t).
  { intros [h|] t; reflexivity. }
  rewrite !Hsig.
  pose proof (trust_signal_retires cfg first s) as Hr.
  split; [exact Hr |].
  unfold on_trust_signal at 1. rewrite Hr. reflexivity.
Qed.

(** ** The node of every gateway *)

Lemma bind_get {A B} (f : State -> A) (k : A -> M B) (s : State) :
  bind (get f) k s = k (f s) s.
Proof. unfold bind, get. cbn. now destruct (k (f s) s) as [[s2 a2] r]. Qed.

Lemma random_seed_In (r : Q) (pool : option (list string)) (x : string) :
  random_seed r pool = Some x -> exists l, pool = Some l /\ In x l.
Proof.
  unfold random_seed. destruct pool as [l|]; [| discriminate].
  destruct (_ <? 0)%Z; [discriminate |].
  intro H. exists l. split; [reflexivity |]. eapply nth_error_In, H.
Qed.

Lemma pickNode_from_pool cfg r pool n :
  pickNode cfg r pool = Some n -> from_pool cfg pool (Some n).
Proof.
  unfold pickNode, from_pool.
  destruct (node_override cfg) as [o|] eqn:Ho; cbn.
  - intros [= <-]. exists o. auto.
  - destruct (random_seed r pool) as [x|] eqn:Hr; [| discriminate].
    cbn. intros [= <-]. exists x. split; [reflexivity |].
    right. eapply random_seed_In, Hr.
Qed.

Section Nodes.

Variable cfg : Config.

Lemma known_heading s s' :
  heading s' = heading s -> node_known cfg s -> node_known cfg s'.
Proof.
  unfold heading, node_known. intro H. injection H as H1 H2 H3.
  now rewrite H1, H2, H3.
Qed.

Lemma known_step (f : Step) s :
  step_keeps heading f -> node_known cfg s -> node_known cfg (fst (f s)).
Proof. intros Hf. apply known_heading, Hf. Qed.

Lemma keeps_picking {A} (m : M A) : keeps heading m -> keeps picking m.
Proof.
  intros H s. specialize (H s). unfold heading, picking in *. congruence.
Qed.

Lemma heading_afterBooted m : keeps heading (afterBooted m).
Proof. unfold afterBooted, send. frame. Qed.

Lemma heading_shutdown : keeps heading shutdown.
Proof. unfold shutdown. frame. Qed.

Lemma heading_on_init_stdout p home chainId data :
  keeps heading (on_init_stdout p home chainId data).
Proof. unfold on_init_stdout, afterBooted, send. frame. Qed.

Lemma heading_flush q : keeps heading (flush q).
Proof.
  induction q as [|m q IH]; cbn [flush]; [apply keeps_ret |].
  unfold send. frame; try exact IH.
Qed.

Lemma heading_connect_finish child node :
  keeps heading (connect_finish child node).
Proof. unfold connect_finish, afterBooted, send. frame. Qed.

Lemma heading_connect node : keeps heading (connect cfg node).
Proof.
  unfold connect, startLCD, startProcess. frame; try apply heading_connect_finish.
Qed.

Lemma heading_reconnect_probe sd : keeps heading (reconnect_probe cfg sd).
Proof. unfold reconnect_probe, pick. frame. Qed.

Lemma heading_reconnect : keeps heading (reconnect cfg).
Proof. unfold reconnect. frame; try apply heading_reconnect_probe. Qed.

Lemma heading_reconnect_after_loop : keeps heading (reconnect_after_loop cfg).
Proof. unfold reconnect_after_loop. frame; try apply heading_connect. Qed.

Lemma heading_on_trust_approved req : keeps heading (on_trust_approved req).
Proof. unfold on_trust_approved. frame. Qed.

Lemma picking_main_after_ensureDir : keeps picking (main_after_ensureDir cfg).
Proof. unfold main_after_ensureDir, getGaiaVersion, startProcess. frame. Qed.

Lemma picking_main_connect : keeps picking (main_connect cfg).
Proof. unfold main_connect. frame; try apply keeps_picking, heading_connect. Qed.

Lemma picking_main_after_initcheck init chainId data :
  keeps picking (main_after_initcheck cfg init chainId data).
Proof.
  unfold main_after_initcheck, initLCD, startProcess.
  frame; try apply picking_main_connect.
Qed.

Lemma step_heading_uncaught e : step_keeps heading (uncaught cfg e).
Proof.
  intro s. unfold uncaught. destruct (TEST cfg); [reflexivity |].
  pose proof (heading_afterBooted (MsgError e) s) as H.
  unfold handleCrash.
  now destruct (afterBooted (MsgError e) s) as [[s1 a1] [u|e']].
Qed.

Lemma step_heading_listener m :
  keeps heading m -> step_keeps heading (listener cfg m).
Proof.
  intro H. apply step_keeps_run; [exact H | |].
  - intro. apply step_keeps_done.
  - apply step_heading_uncaught.
Qed.

Lemma step_heading_resume i m :
  keeps heading m -> step_keeps heading (resume cfg i m).
Proof.
  intro H. apply step_keeps_run; [exact H | |].
  - intros t s. reflexivity.
  - intros e s. now rewrite step_heading_uncaught.
Qed.

Lemma known_run_main m s :
  (forall s1 a1 t, m s = (s1, a1, Ok t) -> node_known cfg (set_main_task t s1)) ->
  node_known cfg (fst (run_main cfg m s)).
Proof.
  intro H. unfold run_main, run.
  destruct (m s) as [[s1 a1] [t|e]] eqn:E.
  - cbn. eapply H. reflexivity.
  - pose proof (main_failed_shape cfg e s1) as (Hm & _).
    destruct (main_failed cfg e s1) as [s2 a2]. cbn in *.
    right. now rewrite Hm.
Qed.

Lemma known_run_main_picking m s :
  keeps picking m -> from_pool cfg (seeds s) (nodeIP s) ->
  node_known cfg (fst (run_main cfg m s)).
Proof.
  intros Hk Hp. apply known_run_main. intros s1 a1 t E.
  specialize (Hk s). rewrite E in Hk. cbn in Hk.
  unfold picking in Hk. injection Hk as H1 H2.
  left. cbn. now rewrite H1, H2.
Qed.

Lemma known_settle_throw e s :
  node_known cfg s -> node_known cfg (fst (settle_init cfg (Throw e) s)).
Proof.
  intro H. unfold settle_init. destruct (main_task s); try exact H.
  pose proof (main_failed_shape cfg e s) as (Hm & _).
  right. now rewrite Hm.
Qed.

Lemma main_after_version_picks init data s s1 a1 t :
  main_after_version cfg init data s = (s1, a1, Ok t) ->
  from_pool cfg (seeds s1) (nodeIP s1).
Proof.
  unfold main_after_version. rewrite bind_get.
  destruct (readFileSync (root_file (disk s) gaiaversion_txt)) as [x1|e1];
    [change (lift (Ok x1)) with (ret x1); rewrite bind_ret
    | cbn; discriminate].
  destruct (negb _); [cbn; discriminate |].
  destruct (readFileSync (root_file (disk s) genesis_json)) as [x2|e2];
    [change (lift (Ok x2)) with (ret x2); rewrite bind_ret
    | cbn; discriminate].
  destruct (JSON_parse cfg x2) as [genesis|];
    [cbn [lift_option]; rewrite bind_ret | cbn; discriminate].
  assert (Hprop : forall k : JsProperty -> M MainTask,
            bind (match get_prop genesis "chain_id" with
                  | PropThrows => throw TypeError
                  | v => ret v
                  end) k s = (s1, a1, Ok t) ->
            exists v, k v s = (s1, a1, Ok t)).
  { intro k. destruct (get_prop genesis "chain_id") as [| |v] eqn:Ep.
    - cbn. discriminate.
    - rewrite bind_ret. eauto.
    - rewrite bind_ret. eauto. }
  intro H. apply Hprop in H. destruct H as [chainId H]. revert H.
  destruct (readFileSync (root_file (disk s) config_toml)) as [x3|e3];
    [change (lift (Ok x3)) with (ret x3); rewrite bind_ret
    | cbn; discriminate].
  destruct (toml_p2p_seeds cfg x3) as [seedsText|];
    [cbn [lift_option]; rewrite bind_ret | cbn; discriminate].
  set (sd := parse_seeds seedsText).
  unfold bind at 1, modify at 1.
  destruct (List.length sd =? 0)%nat; [cbn; discriminate |].
  unfold bind at 1. rewrite pick_eq.
  destruct (pickNode cfg (Math_random cfg (rand_ix (set_seeds (Some sd) s)))
              (Some sd)) as [n|] eqn:Epick; [| cbn; discriminate].
  apply pickNode_from_pool in Epick.
  unfold bind at 1, modify at 1. unfold bind at 1, lcdInitialized.
  rewrite startProcess_eq.
  destruct (spawn_throws cfg _); cbn; [discriminate |].
  intros [= <- _ _]. cbn.
  now destruct (node_override cfg).
Qed.

(** *** What a step spawns *)

Lemma gateway_ok_reports pool : admits_reports (gateway_ok cfg pool).
Proof. split; intros; exact I. Qed.

Lemma emits_connect_finish (P : Action -> Prop) child node :
  admits_reports P -> emits P (connect_finish child node).
Proof.
  intro HP. unfold connect_finish.
  apply emits_bind; [apply emits_modify | intro].
  apply emits_bind; [now apply emits_afterBooted | intro; apply emits_modify].
Qed.

Lemma emits_connect pool node :
  from_pool cfg pool node -> emits (gateway_ok cfg pool) (connect cfg node).
Proof.
  intros Hn s. rewrite connect_eq.
  destruct (spawn_throws cfg (next_pid s)).
  - pose proof (emits_connect_finish _ LcdUndefined node
                  (gateway_ok_reports pool)
                  (set_next_pid (S (next_pid s)) s)) as H.
    now destruct (connect_finish LcdUndefined node _) as [[s' acts] [u|e]].
  - cbn. repeat constructor; auto.
Qed.

Lemma main_connect_emits pool s :
  from_pool cfg pool (nodeIP s) ->
  Forall (gateway_ok cfg pool) (snd (fst (main_connect cfg s))).
Proof.
  intro Hn. unfold main_connect. rewrite bind_get.
  apply emits_bind; [now apply emits_connect |].
  intros [p|]; apply emits_ret.
Qed.

Lemma main_after_initcheck_emits pool init chainId data s :
  from_pool cfg pool (nodeIP s) ->
  Forall (gateway_ok cfg pool)
    (snd (fst (main_after_initcheck cfg init chainId data s))).
Proof.
  intro Hn. unfold main_after_initcheck.
  destruct (lcdInitialized_settles data) as [b|e]; [| constructor].
  change (lift (Ok b)) with (ret b). rewrite bind_ret.
  destruct (init || negb b); [| now apply main_connect_emits].
  rewrite bind_get.
  apply emits_bind; [| intro; apply emits_ret].
  unfold initLCD, startProcess. emissions.
Qed.

Lemma reconnect_after_loop_emits pool s :
  from_pool cfg pool (nodeIP s) ->
  Forall (gateway_ok cfg pool) (snd (fst (reconnect_after_loop cfg s))).
Proof.
  intro Hn. rewrite reconnect_after_loop_eq.
  destruct (lcdProcess s); try constructor.
  pose proof (emits_connect pool (nodeIP s) Hn s) as H.
  destruct (connect cfg (nodeIP s) s) as [[s' acts] [[q|]|e]]; cbn in *;
    constructor; auto; exact I.
Qed.

Lemma run_main_emits (P : Action -> Prop) m s :
  admits_reports P ->
  Forall P (snd (fst (m s))) -> Forall P (snd (run_main cfg m s)).
Proof.
  intros HP H. unfold run_main, run.
  destruct (m s) as [[s1 a1] [t|e]]; cbn in *.
  - now rewrite app_nil_r.
  - pose proof (step_emits_main_failed_reports cfg P HP e s1) as Hf.
    destruct (main_failed cfg e s1). cbn in *. apply Forall_app. auto.
Qed.

Lemma resume_emits (P : Action -> Prop) i m s :
  admits_reports P ->
  Forall P (snd (fst (m s))) -> Forall P (snd (resume cfg i m s)).
Proof.
  intros HP H. unfold resume, run.
  destruct (m s) as [[s1 a1] [t|e]]; cbn in *.
  - now rewrite app_nil_r.
  - pose proof (step_emits_uncaught_reports cfg P HP e
                  (set_reconnects (replace_nth i None (reconnects s1)) s1))
      as Hf.
    destruct (uncaught cfg e _). cbn in *. apply Forall_app. auto.
Qed.

Lemma emits_settle_trust pool signal req :
  step_emits (gateway_ok cfg pool) (settle_trust cfg signal req).
Proof.
  unfold settle_trust. apply step_emits_run.
  - destruct (handleHashVerification (tr_hash req) signal).
    + unfold on_trust_approved. emissions.
    + unfold on_trust_rejected, initLCD, startProcess, pick. emissions.
  - intro. apply step_emits_done.
  - intros e s. unfold settle_init.
    destruct (main_task s); try constructor.
    apply step_emits_main_failed_reports, gateway_ok_reports.
Qed.

Lemma known_settle_trust signal req s :
  node_known cfg s -> node_known cfg (fst (settle_trust cfg signal req s)).
Proof.
  intro H. unfold settle_trust, run.
  destruct (handleHashVerification (tr_hash req) signal).
  - pose proof (heading_on_trust_approved req s) as Hk.
    destruct (on_trust_approved req s) as [[s1 a1] [u|e]]; cbn in Hk.
    + cbn. eapply known_heading; eassumption.
    + assert (H1 : node_known cfg s1) by (eapply known_heading; eassumption).
      pose proof (known_settle_throw e s1 H1) as H2.
      now destruct (settle_init cfg (Throw e) s1).
  - rewrite on_trust_rejected_eq.
    assert (Hd : node_known cfg (drawn cfg s)).
    { unfold drawn. now destruct (node_override cfg). }
    destruct (shuttingDown s); [exact H |].
    destruct (pickNode cfg (Math_random cfg (rand_ix s)) (seeds s)) as [n|]
      eqn:Epick.
    + apply pickNode_from_pool in Epick.
      assert (Hn : forall t, seeds t = seeds s -> nodeIP t = Some n ->
                             node_known cfg t).
      { intros t Ht1 Ht2. left. now rewrite Ht1, Ht2. }
      assert (Hseeds : seeds (drawn cfg s) = seeds s).
      { unfold drawn. now destruct (node_override cfg). }
      destruct (spawn_throws cfg (next_pid s)).
      * pose proof (known_settle_throw SpawnFailed
                      (set_next_pid (S (next_pid s))
                         (set_nodeIP (Some n) (drawn cfg s)))
                      (Hn (set_next_pid (S (next_pid s))
                             (set_nodeIP (Some n) (drawn cfg s)))
                          Hseeds eq_refl)) as H2.
        now destruct (settle_init cfg (Throw SpawnFailed) _).
      * cbn. now apply Hn.
    + pose proof (known_settle_throw TypeError (drawn cfg s) Hd) as H2.
      now destruct (settle_init cfg (Throw TypeError) (drawn cfg s)).
Qed.

Lemma known_trust_signal signal s :
  node_known cfg s -> node_known cfg (fst (on_trust_signal cfg signal s)).
Proof.
  intro H. unfold on_trust_signal.
  assert (H0 : node_known cfg (set_trust_requests [] s)) by exact H.
  revert H0. generalize (set_trust_requests [] s).
  induction (trust_requests s) as [|req l IH]; intros t Ht; cbn [for_each];
    [exact Ht |].
  unfold and_then.
  pose proof (known_settle_trust signal req t Ht) as H1.
  destruct (settle_trust cfg signal req t) as [t1 a1]. cbn in H1.
  specialize (IH t1 H1).
  now destruct (for_each (settle_trust cfg signal) l t1).
Qed.

Lemma known_picked s :
  node_known cfg s -> ~ early (main_task s) ->
  from_pool cfg (seeds s) (nodeIP s).
Proof. intros [H|H] Hn; [exact H | contradiction]. Qed.

Lemma reconnecting_is_done s i t :
  Inv s -> nth_error (reconnects s) i = Some t -> main_task s = MainDone.
Proof.
  intros (_ & _ & H) Hn.
  destruct (main_task s) eqn:E; try reflexivity;
    (destruct H as [_ Hr]; [discriminate |]);
    rewrite Hr in Hn; now destruct i.
Qed.

(** One step keeps the node known and spawns gateways only for it. *)
Lemma known_one_step e s :
  Inv s -> node_known cfg s ->
  node_known cfg (fst (step cfg e s))
  /\ Forall (gateway_ok cfg (seeds s)) (snd (step cfg e s)).
Proof.
  intros HI HJ. set (P := gateway_ok cfg (seeds s)).
  assert (HP : admits_reports P) by apply gateway_ok_reports.
  assert (Hidle : forall t : State * list Action,
             t = (s, []) -> node_known cfg (fst t) /\ Forall P (snd t)).
  { intros t ->. split; [exact HJ | constructor]. }
  assert (Hlisten : forall m, keeps heading m -> emits P m ->
             node_known cfg (fst (listener cfg m s))
             /\ Forall P (snd (listener cfg m s))).
  { intros m Hk He. split.
    - apply known_step; [now apply step_heading_listener | exact HJ].
    - now apply step_emits_listener. }
  assert (Hresume : forall i m, keeps heading m -> Forall P (snd (fst (m s))) ->
             node_known cfg (fst (resume cfg i m s))
             /\ Forall P (snd (resume cfg i m s))).
  { intros i m Hk He. split.
    - apply known_step; [now apply step_heading_resume | exact HJ].
    - now apply resume_emits. }
  destruct e; cbn [step].
  - split; [exact HJ | constructor].
  - destruct (mainWindow s); split; try exact HJ; constructor.
  - destruct (mainWindow s); try (now apply Hidle).
    apply Hlisten; [apply heading_shutdown | unfold shutdown; emissions].
  - destruct (TEST cfg); [now apply Hidle |].
    apply Hlisten; [apply heading_shutdown | unfold shutdown; emissions].
  - destruct (main_task s) eqn:Hmt; try (now apply Hidle).
    split.
    + apply known_run_main. intros s1 a1 t E. right. cbn.
      revert E. unfold main_after_ensureDir.
      unfold bind at 1, modify at 1. rewrite bind_get.
      destruct (prepare_directory cfg _) as [[init|e] d'].
      * unfold bind at 1, modify at 1.
        change (lift (Ok init)) with (ret init). rewrite bind_ret.
        unfold bind, getGaiaVersion. rewrite startProcess_eq.
        destruct (spawn_throws cfg _); cbn; [discriminate |].
        now intros [= _ _ <-].
      * cbn. discriminate.
    + apply run_main_emits; [exact HP |].
      apply (emits_bind P); [apply emits_modify | intro].
      apply (emits_bind P); [apply emits_get | intro d].
      destruct (prepare_directory cfg d) as [r d'].
      apply (emits_bind P); [apply emits_modify | intro].
      apply (emits_bind P); [apply emits_lift | intro].
      unfold getGaiaVersion, startProcess. emissions.
  - unfold on_stdout.
    destruct (lookup_child p (children s)) as [[| | |]|]; try (now apply Hidle).
    + destruct (main_task s) eqn:Hmt; try (now apply Hidle).
      match goal with |- context [(?q =? p)%nat] => destruct (q =? p)%nat end;
        [| now apply Hidle].
      split.
      * apply known_run_main. intros s1 a1 t E. left. cbn.
        eapply main_after_version_picks, E.
      * apply run_main_emits; [exact HP |].
        unfold main_after_version, lcdInitialized, startProcess, pick.
        repeat first [ apply emits_lift | apply emits_lift_option
                     | progress emissions ].
    + apply Hlisten; [apply heading_on_init_stdout |].
      unfold on_init_stdout. destruct (hash_exec data); [| apply emits_ret].
      apply emits_bind; [now apply emits_afterBooted | intro; apply emits_modify].
    + destruct (includes data "Serving on"); [| now apply Hidle].
      assert (Hrec : let r := match find_connecting p (reconnects s) with
                              | Some (i, nd) =>
                                  resume cfg i
                                    (connect_finish (LcdChild p) nd ;; ret None) s
                              | None => (s, [])
                              end in
                     node_known cfg (fst r) /\ Forall P (snd r)).
      { destruct (find_connecting p (reconnects s)) as [[i nd]|];
          [| now apply Hidle].
        apply Hresume.
        - apply keeps_bind; [apply heading_connect_finish | intro; apply keeps_ret].
        - apply emits_bind; [now apply emits_connect_finish | intro; apply emits_ret]. }
      unfold on_serving.
      destruct (main_task s) eqn:Hmt; try exact Hrec.
      match goal with |- context [(?q =? p)%nat] => destruct (q =? p)%nat end;
        [| exact Hrec].
      split.
      * apply known_run_main_picking.
        -- apply keeps_picking, keeps_bind;
             [apply heading_connect_finish | intro; apply keeps_ret].
        -- apply known_picked; [exact HJ | now rewrite Hmt].
      * apply run_main_emits; [exact HP |].
        apply emits_bind; [now apply emits_connect_finish | intro; apply emits_ret].
  - unfold on_stderr.
    destruct (lookup_child p (children s)) as [[| | |]|]; try (now apply Hidle).
    destruct (main_task s) eqn:Hmt; try (now apply Hidle).
    match goal with |- context [(?q =? p)%nat] => destruct (q =? p)%nat end;
      [| now apply Hidle].
    assert (Hp : from_pool cfg (seeds s) (nodeIP s))
      by (apply known_picked; [exact HJ | now rewrite Hmt]).
    split.
    + apply known_run_main_picking;
        [apply picking_main_after_initcheck | exact Hp].
    + apply run_main_emits; [exact HP |].
      now apply main_after_initcheck_emits.
  - unfold on_exit.
    destruct (lookup_child p (children s)) as [cmd|]; [| now apply Hidle].
    unfold and_then.
    assert (Hrep : let r := match cmd with
                            | CmdRestServer _ _ _ =>
                                listener cfg (afterBooted (MsgError lcd_exited))
                            | _ => done
                            end s in
                   heading (fst r) = heading s /\ Forall P (snd r)).
    { destruct cmd; try (split; [reflexivity | constructor]).
      split.
      - apply step_heading_listener, heading_afterBooted.
      - apply step_emits_listener; [exact HP | now apply emits_afterBooted]. }
    cbv zeta in Hrep.
    destruct (match cmd with CmdRestServer _ _ _ => _ | _ => done end s)
      as [s1 a1]. cbn [fst snd] in Hrep. destruct Hrep as [Hh Ha].
    assert (HJ1 : node_known cfg s1) by (eapply known_heading; eassumption).
    assert (Hpool : seeds s1 = seeds s).
    { unfold heading in Hh. congruence. }
    destruct (existsb (Nat.eqb p) (exit_waits s1)).
    + set (s2 := set_exit_waits _ s1).
      assert (HJ2 : node_known cfg s2) by exact HJ1.
      unfold settle_init.
      destruct (main_task s2) eqn:Hmt;
        try (cbn; rewrite app_nil_r; now split).
      assert (Hp : from_pool cfg (seeds s2) (nodeIP s2))
        by (apply known_picked; [exact HJ2 | now rewrite Hmt]).
      destruct (expectCleanExit _ code (shuttingDown s1)) as [u|e].
      * pose proof (known_run_main_picking (main_connect cfg) s2
                      picking_main_connect Hp) as H1.
        pose proof (run_main_emits P (main_connect cfg) s2 HP) as H2.
        assert (H3 : Forall P (snd (fst (main_connect cfg s2)))).
        { subst P. rewrite <- Hpool. now apply main_connect_emits. }
        specialize (H2 H3).
        destruct (run_main cfg (main_connect cfg) s2) as [s3 a3].
        cbn [fst snd] in *.
        split; [exact H1 |]. apply Forall_app. now split.
      * pose proof (main_failed_shape cfg e s2) as (Hm & _).
        pose proof (step_emits_main_failed_reports cfg P HP e s2) as H2.
        destruct (main_failed cfg e s2) as [s3 a3]. cbn [fst snd] in *.
        split; [right; now rewrite Hm | apply Forall_app; auto].
    + cbn. rewrite app_nil_r. now split.
  - unfold on_child_error.
    destruct (lookup_child p (children s)); [| now apply Hidle].
    destruct (negb (shuttingDown s && econnreset)); [| now apply Hidle].
    apply Hlisten; [apply heading_afterBooted | now apply emits_afterBooted].
  - unfold on_booted. apply Hlisten.
    + frame; try apply heading_flush.
    + apply emits_bind;
        [destruct (ipc_ready s); [apply emits_modify | apply emits_ret] |].
      intro. apply emits_bind; [apply emits_get |]. intro q.
      induction q as [|m q IH]; cbn [flush]; [apply emits_ret |].
      apply emits_bind; [apply emits_modify | intro].
      apply emits_bind; [now apply emits_send | intro]. exact IH.
  - unfold on_reconnect. destruct (ipc_ready s); [| now apply Hidle].
    split.
    + apply known_step; [| exact HJ].
      apply step_keeps_run; [apply heading_reconnect | |].
      * intros [t|] u; reflexivity.
      * apply step_heading_uncaught.
    + apply step_emits_run.
      * unfold reconnect, reconnect_probe, pick. emissions.
      * intros [t|] u; constructor.
      * now apply step_emits_uncaught_reports.
  - split; [now apply known_trust_signal |].
    unfold on_trust_signal. apply step_emits_for_each.
    intro. apply emits_settle_trust.
  - split; [now apply known_trust_signal |].
    unfold on_trust_signal. apply step_emits_for_each.
    intro. apply emits_settle_trust.
  - unfold on_probe.
    destruct (nth_error (reconnects s) i) as [[sd node|sd|q node]|] eqn:Hn;
      try (now apply Hidle).
    assert (Hp : from_pool cfg (seeds s) (nodeIP s)).
    { apply known_picked; [exact HJ |].
      rewrite (reconnecting_is_done s i _ HI Hn). exact (fun H => H). }
    apply Hresume.
    + destruct (negb nodeAlive); [frame | apply heading_reconnect_after_loop].
    + destruct (negb nodeAlive); [repeat constructor |].
      now apply reconnect_after_loop_emits.
  - unfold on_timer.
    destruct (nth_error (reconnects s) i) as [[sd node|sd|q node]|] eqn:Hn;
      try (now apply Hidle).
    apply Hresume.
    + apply keeps_bind; [apply heading_reconnect_probe | intro; apply keeps_ret].
    + apply emits_bind; [| intro; apply emits_ret].
      unfold reconnect_probe, pick. emissions.
Qed.

Lemma known_steps es s :
  Inv s -> node_known cfg s -> node_known cfg (fst (steps cfg es s)).
Proof.
  revert s. induction es as [|e es IH]; intros s HI HJ; cbn [steps];
    [exact HJ |].
  unfold and_then.
  pose proof (step_Inv cfg e s HI) as HI1.
  destruct (known_one_step e s HI HJ) as [HJ1 _].
  destruct (step cfg e s) as [s1 a1]. cbn in *.
  specialize (IH s1 HI1 HJ1).
  now destruct (steps cfg es s1).
Qed.

End Nodes.

(** X17.  Every gateway gets a picked node.  In every state the supervisor
    can reach, whatever happens next, a gateway is spawned only with the
    configured port and home directory and with a node address that
    [pickNode] built, [host:46657], from the override or from a member of the
    seeds read from config.toml; in particular never with a missing node. *)
Theorem gateway_node_is_picked
    (cfg : Config) (d : Disk) (s : State) (e : Event)
    (p : pid) (port : Z) (home : string) (node : option string) :
  reachable cfg d s ->
  In (ASpawn p (CmdRestServer port home node)) (snd (step cfg e s)) ->
  port = LCD_PORT cfg /\ home = lcdHome cfg
  /\ exists x host,
       node = Some (host ++ ":46657") /\ has_colon host = false
       /\ host = hd EmptyString (split ":" x)
       /\ (node_override cfg = Some x
           \/ exists l, seeds s = Some l /\ In x l).
Proof.
  intros [es <-] Hin.
  set (s := fst (steps cfg es (initial_state d))) in *.
  assert (HI : Inv s) by apply steps_Inv, Inv_initial.
  assert (HJ : node_known cfg s).
  { apply known_steps; [apply Inv_initial | right; exact I]. }
  destruct (known_one_step cfg e s HI HJ) as [_ Hall].
  rewrite Forall_forall in Hall. specialize (Hall _ Hin).
  destruct Hall as (Hport & Hhome & x & Hx & Hfrom).
  split; [exact Hport |]. split; [exact Hhome |].
  exists x, (hd EmptyString (split ":" x)).
  split; [exact Hx |]. split; [apply host_has_no_colon |].
  split; [reflexivity | exact Hfrom].
Qed.

(** ** A start-up that fails on the data directory *)

Section Dormant.

Variable cfg : Config.

Lemma offspring_afterBooted m : keeps offspring (afterBooted m).
Proof. unfold afterBooted, send. frame. Qed.

Lemma offspring_shutdown : keeps offspring shutdown.
Proof. unfold shutdown. frame. Qed.

Lemma offspring_flush q : keeps offspring (flush q).
Proof.
  induction q as [|m q IH]; cbn [flush]; [apply keeps_ret |].
  unfold send. frame; try exact IH.
Qed.

Lemma step_offspring_listener m :
  keeps offspring m -> step_keeps offspring (listener cfg m).
Proof.
  intro H. apply step_keeps_run; [exact H | |].
  - intro. apply step_keeps_done.
  - intros e s. unfold uncaught. destruct (TEST cfg); [reflexivity |].
    pose proof (offspring_afterBooted (MsgError e) s) as Ha.
    unfold handleCrash.
    now destruct (afterBooted (MsgError e) s) as [[s1 a1] [u|e']].
Qed.

Lemma dormant_same s s' :
  control s' = control s -> offspring s' = offspring s ->
  dormant s -> dormant s'.
Proof.
  unfold offspring, dormant. intros Hc Ho (Hl & Hch & Htr).
  injection Ho as H1 H2.
  split; [eapply locked_control; eassumption |]. split; congruence.
Qed.

Lemma still_listener (m : M unit) s :
  keeps control m -> keeps offspring m -> emits no_spawn m ->
  still_step (listener cfg m) s.
Proof.
  intros Hc Ho He. split; [| split].
  - now apply step_keeps_listener.
  - now apply step_offspring_listener.
  - apply step_emits_listener; [apply no_spawn_reports | exact He].
Qed.

Lemma dormant_step e s : dormant s -> still_step (step cfg e) s.
Proof.
  intros (Hl & Hch & Htr). pose proof Hl as (Hconn & Hrec & Hmain).
  assert (Hidle : forall t : State * list Action,
             t = (s, []) ->
             control (fst t) = control s /\ offspring (fst t) = offspring s
             /\ Forall no_spawn (snd t)).
  { intros t ->. repeat split. constructor. }
  unfold still_step. destruct e; cbn [step].
  - repeat split. constructor.
  - destruct (mainWindow s); repeat split; constructor.
  - destruct (mainWindow s); try (now apply Hidle).
    apply still_listener;
      [apply keeps_shutdown | apply offspring_shutdown
      | unfold shutdown; emissions].
  - destruct (TEST cfg); [now apply Hidle |].
    apply still_listener;
      [apply keeps_shutdown | apply offspring_shutdown
      | unfold shutdown; emissions].
  - apply Hidle. destruct Hmain as [H|[e H]]; now rewrite H.
  - apply Hidle. unfold on_stdout. now rewrite Hch.
  - apply Hidle. unfold on_stderr. now rewrite Hch.
  - apply Hidle. unfold on_exit. now rewrite Hch.
  - apply Hidle. unfold on_child_error. now rewrite Hch.
  - unfold on_booted. apply still_listener.
    + frame. apply keeps_flush.
    + frame; try apply offspring_flush.
    + apply emits_bind;
        [destruct (ipc_ready s); [apply emits_modify | apply emits_ret] |].
      intro. apply emits_bind; [apply emits_get |]. intro q.
      induction q as [|m q IH]; cbn [flush]; [apply emits_ret |].
      apply emits_bind; [apply emits_modify | intro].
      apply emits_bind; [apply emits_send, no_spawn_reports | intro].
      exact IH.
  - apply Hidle. now apply locked_ignores_reconnect.
  - unfold on_trust_signal. rewrite Htr. cbn [for_each]. unfold done. cbn.
    unfold offspring. cbn. rewrite Htr. repeat split. constructor.
  - unfold on_trust_signal. rewrite Htr. cbn [for_each]. unfold done. cbn.
    unfold offspring. cbn. rewrite Htr. repeat split. constructor.
  - apply Hidle. unfold on_probe. rewrite Hrec. now destruct i.
  - apply Hidle. unfold on_timer. rewrite Hrec. now destruct i.
Qed.

Lemma dormant_steps es s :
  dormant s ->
  control (fst (steps cfg es s)) = control s
  /\ Forall no_spawn (snd (steps cfg es s)).
Proof.
  revert s. induction es as [|e es IH]; intros s Hd; cbn [steps].
  - split; [reflexivity | constructor].
  - unfold and_then. destruct (dormant_step e s Hd) as (Hc & Ho & He).
    destruct (step cfg e s) as [s1 a1]. cbn [fst snd] in *.
    assert (Hd1 : dormant s1) by (eapply dormant_same; eassumption).
    destruct (IH s1 Hd1) as [Hc' He'].
    destruct (steps cfg es s1) as [s2 a2]. cbn [fst snd] in *.
    split; [congruence | apply Forall_app; auto].
Qed.

End Dormant.

(** X18.  A start-up that fails on the data directory fails safe.  When the
    checks of the data directory throw, [main] fails with that error and,
    whatever happens afterwards, no process is ever spawned; the error is
    held back until the renderer has booted and is then sent to it. *)
Theorem directory_error_fails_safe
    (cfg : Config) (d d' : Disk) (e : JsError) (es : list Event) :
  prepare_directory cfg d = (Throw e, d') ->
  main_task (fst (steps cfg (EvDirReady :: es) (initial_state d)))
    = MainFailed e
  /\ Forall no_spawn (snd (steps cfg (EvDirReady :: es) (initial_state d)))
  /\ snd (step cfg EvDirReady (initial_state d)) = []
  /\ snd (steps cfg [EvDirReady; EvAppReady; EvBooted] (initial_state d))
     = [ASend (MsgError e)].
Proof.
  intro Hprep.
  assert (Hstep : step cfg EvDirReady (initial_state d)
                  = (set_booted_queue [MsgError e]
                       (set_main_task (MainFailed e)
                          (set_disk d' (set_ipc_ready true (initial_state d)))),
                     [])).
  { cbn [step initial_state main_task].
    unfold run_main, run, main_after_ensureDir, bind, modify, get, lift.
    cbn [initial_state disk set_ipc_ready]. rewrite Hprep. reflexivity. }
  split; [| split; [| split]].
  - cbn [steps]. unfold and_then. rewrite Hstep.
    set (s1 := set_booted_queue _ _).
    assert (Hd : dormant s1).
    { repeat split; cbn; auto. right. eauto. }
    destruct (dormant_steps cfg es s1 Hd) as [Hc _].
    destruct (steps cfg es s1) as [s2 a2]. cbn [fst] in *.
    unfold control in Hc. now injection Hc as _ _ ->.
  - cbn [steps]. unfold and_then. rewrite Hstep.
    set (s1 := set_booted_queue _ _).
    assert (Hd : dormant s1).
    { repeat split; cbn; auto. right. eauto. }
    destruct (dormant_steps cfg es s1 Hd) as [_ He].
    now destruct (steps cfg es s1) as [s2 a2].
  - now rewrite Hstep.
  - cbn [steps]. unfold and_then. rewrite Hstep. reflexivity.
Qed.

(** X19.  While the app shuts down every exit of the init child is a clean
    one.  If [shuttingDown] is set when the init child that [main] waits for
    exits, [expectCleanExit] resolves whatever the exit code is, and [main]
    goes on to [connect]: it spawns the gateway for the node in [nodeIP]. *)
Theorem init_exit_during_shutdown_is_clean
    (cfg : Config) (s : State) (p : pid) (cmd : Command) (code : Z) :
  shuttingDown s = true ->
  main_task s = MainAwaitInitLCD ->
  exit_waits s = [p] ->
  lookup_child p (children s) = Some cmd ->
  (forall port home node, cmd <> CmdRestServer port home node) ->
  spawn_throws cfg (next_pid s) = false ->
  snd (step cfg (EvExit p code) s)
    = [ASpawn (next_pid s)
         (CmdRestServer (LCD_PORT cfg) (lcdHome cfg) (nodeIP s))]
  /\ main_task (fst (step cfg (EvExit p code) s))
     = MainAwaitConnect (next_pid s) (nodeIP s)
  /\ exit_waits (fst (step cfg (EvExit p code) s)) = [].
Proof.
  intros Hsd Hmain Hwaits Hchild Hcmd Hspawn.
  assert (Hstep : step cfg (EvExit p code) s
                  = (set_main_task (MainAwaitConnect (next_pid s) (nodeIP s))
                       (set_children
                          (children s
                           ++ [(next_pid s,
                                CmdRestServer (LCD_PORT cfg) (lcdHome cfg)
                                  (nodeIP s))])%list
                          (set_next_pid (S (next_pid s))
                             (set_exit_waits [] s))),
                     [ASpawn (next_pid s)
                        (CmdRestServer (LCD_PORT cfg) (lcdHome cfg) (nodeIP s))])).
  { cbn [step]. unfold on_exit. rewrite Hchild. unfold and_then.
    assert (Hrep : match cmd with
                   | CmdRestServer _ _ _ =>
                       listener cfg (afterBooted (MsgError lcd_exited))
                   | _ => done
                   end = done).
    { destruct cmd as [| | |port home node]; try reflexivity.
      now destruct (Hcmd port home node). }
    rewrite Hrep. unfold done. rewrite Hwaits. cbn [existsb filter].
    rewrite Nat.eqb_refl. cbn [orb negb]. rewrite Hsd.
    unfold expectCleanExit. rewrite andb_false_r.
    unfold settle_init. cbn [main_task set_exit_waits]. rewrite Hmain.
    unfold run_main, run, main_connect. rewrite bind_get. unfold bind.
    rewrite connect_eq. cbn [next_pid set_exit_waits]. rewrite Hspawn.
    reflexivity. }
  rewrite Hstep. now repeat split.
Qed.

(** * The properties on the example configurations *)

(** Closed equations between values of the model are decided by evaluation. *)
Ltac evaluate := vm_compute; first [reflexivity | discriminate | repeat split].

(** The claim of C1 fails for the exit of the gateway: in the connected
    state of the example the exit of the gateway, child 2, is reported to the
    renderer and that is all; nothing is probed, killed or spawned and no
    call of [reconnect] is started. *)
Lemma gateway_exit_starts_no_reconnect :
  connected_idle Sample.connected 2
  /\ step Sample.cfg (EvExit 2 1) Sample.connected
     = (Sample.connected, [ASend (MsgError lcd_exited)]).
Proof. vm_compute. repeat split. Qed.

(** On which node the restarted gateway is pointed: in the example the probe
    finds [node_b] alive, but line 474 reads the module-level [nodeIP], which
    still is [node_a]. *)
Lemma reconnect_sample_uses_module_nodeIP :
  snd (steps Sample.cfg
         [EvReconnect; EvProbe 0 true; EvStdout 3 "Serving on"]
         Sample.connected)
  = [AGet ("http://" ++ Sample.node_b) 3000; AKill 2 SIGKILL;
     ASpawn 3 (CmdRestServer 8998 (lcdHome Sample.cfg) (Some Sample.node_a));
     ASend (MsgConnected (Some Sample.node_a))].
Proof. vm_compute. reflexivity. Qed.

Lemma reconnect_on_request_witness :
  connected_idle Sample.connected_zero 2
  /\ exists target,
       snd (steps Sample.cfg_zero
              (EvReconnect :: retries 1
               ++ [EvProbe 0 true; EvStdout 3 "Serving on"])
              Sample.connected_zero)
       = [AGet ("http://" ++ Sample.node_a) 3000; ASleep 2000;
          AGet ("http://" ++ Sample.node_a) 3000; AKill 2 SIGKILL;
          ASpawn 3 (CmdRestServer 8998 (lcdHome Sample.cfg_zero) target);
          ASend (MsgConnected target)].
Proof.
  assert (Hidle : connected_idle Sample.connected_zero 2)
    by (vm_compute; repeat split).
  split; [exact Hidle |].
  destruct (reconnect_on_request Sample.cfg_zero Sample.connected_zero 2
              (fun _ => Sample.node_a) 1 "Serving on" Hidle
              (fun _ => eq_refl) ltac:(evaluate) ltac:(evaluate)) as [H _].
  exact H.
Defined.

(** The claim of C2 fails on the node: with two seeds in the pool and
    [Math.random] returning 0 twice, the handshake disapproved for [node_a]
    is restarted for [node_a]. *)
Lemma disapproved_node_picked_again :
  seeds Sample.awaiting_trust = Some ["a.example:46656"; "b.example:46656"]
  /\ snd (steps Sample.cfg_zero (Sample.handshake ++ [EvHashDisapproved])
            (initial_state Sample.disk))
     = [ASpawn 0 CmdVersion; ASpawn 1 (CmdInitCheck (lcdHome Sample.cfg_zero));
        ASpawn 2 (Sample.init_cmd Sample.node_a);
        AKill 2 SIGTERM;
        ASpawn 3 (Sample.init_cmd Sample.node_a)].
Proof. vm_compute. split; reflexivity. Qed.

Lemma disapproval_restarts_handshake_witness :
  trust_requests Sample.awaiting_trust = [Sample.request]
  /\ snd (step Sample.cfg_zero EvHashDisapproved Sample.awaiting_trust)
     = [AKill 2 SIGTERM; ASpawn 3 (Sample.init_cmd Sample.node_a)].
Proof.
  assert (Hreq : trust_requests Sample.awaiting_trust = [Sample.request])
    by evaluate.
  split; [exact Hreq |].
  destruct (disapproval_restarts_handshake Sample.cfg_zero
              Sample.awaiting_trust Sample.request Hreq) as [_ H].
  destruct (H ltac:(evaluate) Sample.node_a ltac:(evaluate) ltac:(evaluate))
    as [Hacts _].
  exact Hacts.
Defined.

(** The claim of C3 fails when the gateway exits early: after its exit
    [main] is still suspended in [connect], neither connected nor failed, and
    [connecting] is still set; the renderer got the error message. *)
Lemma gateway_exit_leaves_startup_pending :
  main_task (fst Sample.early_exit)
  = MainAwaitConnect 2 (Some Sample.node_a)
  /\ connecting (fst Sample.early_exit) = true
  /\ lcdProcess (fst Sample.early_exit) = LcdUndefined
  /\ snd Sample.early_exit
     = [ASpawn 0 CmdVersion; ASpawn 1 (CmdInitCheck (lcdHome Sample.cfg));
        ASpawn 2 (CmdRestServer 8998 (lcdHome Sample.cfg)
                    (Some Sample.node_a));
        ASend (MsgError lcd_exited)].
Proof. vm_compute. repeat split. Qed.

Lemma gateway_startup_waits_for_marker_witness :
  main_task Sample.awaiting_gateway = MainAwaitConnect 2 (Some Sample.node_a)
  /\ main_task
       (fst (steps Sample.cfg [EvStdout 2 "starting"; EvExit 2 1; EvTimer 0]
               Sample.awaiting_gateway))
     = MainAwaitConnect 2 (Some Sample.node_a).
Proof.
  assert (Hmain : main_task Sample.awaiting_gateway
                  = MainAwaitConnect 2 (Some Sample.node_a)) by evaluate.
  split; [exact Hmain |].
  destruct (gateway_startup_waits_for_marker Sample.cfg
              Sample.awaiting_gateway 2 (Some Sample.node_a)
              8998 (lcdHome Sample.cfg) (Some Sample.node_a)
              Hmain ltac:(evaluate) ltac:(evaluate) ltac:(evaluate))
    as (_ & H & _).
  apply H. evaluate.
Defined.

(** The claim of C4 fails on the order: with an empty seed list [main] does
    fail with the missing-seeds error, but the [gaia version] child has been
    spawned by then, and the error is only reached once that child has
    answered. *)
Lemma version_query_precedes_seed_check :
  toml_p2p_seeds Sample.cfg "seeds = " = Some EmptyString
  /\ parse_seeds EmptyString = []
  /\ snd (step Sample.cfg EvDirReady (initial_state Sample.disk_no_seeds))
     = [ASpawn 0 CmdVersion]
  /\ main_task (fst (step Sample.cfg EvDirReady
                       (initial_state Sample.disk_no_seeds)))
     = MainAwaitVersion 0 false
  /\ main_task (fst Sample.no_seeds_run) = MainFailed no_seeds
  /\ snd Sample.no_seeds_run = [ASpawn 0 CmdVersion].
Proof. vm_compute. repeat split. Qed.

Lemma empty_seeds_fail_after_version_query_witness :
  main_task (fst Sample.no_seeds_run) = MainFailed no_seeds
  /\ snd Sample.no_seeds_run = [ASpawn 0 CmdVersion].
Proof.
  destruct (empty_seeds_fail_after_version_query Sample.cfg
              Sample.disk_no_seeds Sample.disk_no_seeds false
              "0.17.0" "0.17.0" "{ chain_id: gaia-6002 }" "seeds = " EmptyString
              (JObject [("chain_id", JString "gaia-6002")])
              ltac:(evaluate) ltac:(evaluate) ltac:(evaluate) ltac:(evaluate)
              ltac:(evaluate) ltac:(evaluate) ltac:(discriminate)
              ltac:(evaluate) ltac:(evaluate) ltac:(evaluate))
    as (_ & _ & Hfail & Hacts & _).
  split; [exact Hfail | exact Hacts].
Defined.

Lemma pickNode_override_or_member_witness :
  exists s,
    In s ["a.example:46656"; "b.example:46656"]
    /\ pickNode Sample.cfg (1 # 2)%Q
         (Some ["a.example:46656"; "b.example:46656"])
       = Some (rpc_address s).
Proof.
  destruct (pickNode_override_or_member Sample.cfg (1 # 2)%Q
              ["a.example:46656"; "b.example:46656"]
              ltac:(discriminate) ltac:(discriminate) ltac:(reflexivity))
    as (_ & H & _).
  apply H. evaluate.
Defined.

Lemma genesis_check_witness :
  prepare_directory Sample.cfg Sample.disk = (Ok false, Sample.disk)
  /\ prepare_directory Sample.cfg Sample.disk_local
     = (Ok false, Sample.disk_local).
Proof.
  split.
  - destruct (genesis_check Sample.cfg Sample.disk
                "{ chain_id: gaia-6002 } "
                (JObject [("chain_id", JString "gaia-6002")])
                ltac:(evaluate) ltac:(evaluate) ltac:(evaluate) ltac:(evaluate)
                ltac:(discriminate))
      as [_ H].
    destruct (H ltac:(evaluate) "{ chain_id: gaia-6002 }" ltac:(evaluate))
      as [Hsame _].
    apply Hsame. evaluate.
  - destruct (genesis_check Sample.cfg Sample.disk_local
                "{ chain_id: local }"
                (JObject [("chain_id", JString "local")])
                ltac:(evaluate) ltac:(evaluate) ltac:(evaluate) ltac:(evaluate)
                ltac:(discriminate))
      as [H _].
    exact (H ltac:(evaluate) true Sample.network).
Defined.


Lemma single_reconnect_in_flight_witness :
  reconnects Sample.reconnecting
  = [RcProbing (seeds Sample.connected) Sample.node_b]
  /\ step Sample.cfg EvReconnect Sample.reconnecting
     = (Sample.reconnecting, []).
Proof.
  split; [evaluate |].
  assert (Hreach : reachable Sample.cfg Sample.disk Sample.reconnecting).
  { exists (Sample.startup ++ [Sample.serving; EvReconnect])%list.
    evaluate. }
  destruct (single_reconnect_in_flight Sample.cfg Sample.disk
              Sample.reconnecting Hreach) as [_ H].
  apply H. evaluate.
Defined.

Lemma reconnect_ignored_before_first_connect_witness :
  step Sample.cfg EvReconnect Sample.awaiting_gateway
  = (Sample.awaiting_gateway, []).
Proof.
  assert (Hreach : reachable Sample.cfg Sample.disk Sample.awaiting_gateway)
    by (exists Sample.startup; evaluate).
  destruct (reconnect_ignored_before_first_connect Sample.cfg Sample.disk
              Sample.awaiting_gateway Hreach ltac:(evaluate))
    as (_ & _ & H).
  exact H.
Defined.

Lemma approval_with_other_hash_rejects_witness :
  step Sample.cfg_zero (EvHashApproved "ffff") Sample.awaiting_trust
  = step Sample.cfg_zero EvHashDisapproved Sample.awaiting_trust
  /\ snd (step Sample.cfg_zero (EvHashApproved "ffff") Sample.awaiting_trust)
     = [AKill 2 SIGTERM; ASpawn 3 (Sample.init_cmd Sample.node_a)].
Proof.
  destruct (approval_with_other_hash_rejects Sample.cfg_zero Sample.request
              "ffff" ltac:(evaluate)) as (_ & _ & H).
  destruct (H Sample.awaiting_trust ltac:(evaluate)) as [Heq Hacts].
  split; [exact Heq |].
  exact (Hacts ltac:(evaluate) Sample.node_a ltac:(evaluate) ltac:(evaluate)).
Defined.

(** ** The further properties on the example configurations *)

Lemma existing_directory_untouched_witness :
  snd (prepare_directory Sample.cfg Sample.disk_old) = Sample.disk_old
  /\ fst (prepare_directory Sample.cfg Sample.disk_old) <> Ok true.
Proof.
  exact (existing_directory_untouched Sample.cfg Sample.disk_old eq_refl).
Defined.

Lemma missing_file_is_fatal_witness :
  prepare_directory Sample.cfg Cases.disk_missing
  = (Throw (Error (missing_files_message Sample.cfg)), Cases.disk_missing).
Proof.
  exact (missing_file_is_fatal Sample.cfg Cases.disk_missing app_version
           eq_refl eq_refl).
Defined.

Lemma first_run_then_restart_witness :
  exists d',
    prepare_directory Sample.cfg Cases.disk_fresh = (Ok true, d')
    /\ root_file d' app_version = Some "0.6.2"
    /\ prepare_directory Sample.cfg d' = (Ok false, d').
Proof.
  destruct (first_run_then_restart Sample.cfg Cases.disk_fresh
              "{ chain_id: gaia-6002 }"
              "seeds = a.example:46656,b.example:46656" "0.17.0"
              (JObject [("chain_id", JString "gaia-6002")]) None
              eq_refl eq_refl eq_refl eq_refl eq_refl
              ltac:(evaluate) ltac:(evaluate) ltac:(evaluate)
              ltac:(discriminate))
    as (d' & H1 & _ & H2 & _ & _ & _ & H3).
  exists d'. split; [exact H1 |]. split; [exact H2 | exact H3].
Defined.

Lemma parse_seeds_round_trip_witness :
  parse_seeds "a.example:46656,b.example:46656" = Cases.pool.
Proof.
  destruct (parse_seeds_round_trip Cases.pool) as [H _].
  - repeat constructor; evaluate.
  - exact H.
Defined.

Lemma pickNode_throws_iff_witness :
  pickNode Sample.cfg (1 # 2)%Q (Some []) = None
  /\ pickNode Sample.cfg (1 # 2)%Q None = None.
Proof.
  destruct (pickNode_throws_iff Sample.cfg (1 # 2)%Q (Some [])
              ltac:(discriminate) ltac:(reflexivity)) as [_ H1].
  destruct (pickNode_throws_iff Sample.cfg (1 # 2)%Q None
              ltac:(discriminate) ltac:(reflexivity)) as [_ H2].
  split; [apply H1 | apply H2]; (split; [reflexivity | auto]).
Defined.

Lemma failed_startup_is_final_witness :
  main_task
    (fst (steps Sample.cfg [EvAppReady; EvBooted; EvReconnect] Cases.failed))
  = MainFailed no_seeds
  /\ step Sample.cfg EvReconnect
       (fst (steps Sample.cfg [EvAppReady; EvBooted; EvReconnect] Cases.failed))
     = (fst (steps Sample.cfg [EvAppReady; EvBooted; EvReconnect] Cases.failed),
        []).
Proof.
  assert (Hreach : reachable Sample.cfg Sample.disk_no_seeds Cases.failed)
    by (exists [EvDirReady; EvStdout 0 "0.17.0"]; evaluate).
  destruct (failed_startup_is_final Sample.cfg Sample.disk_no_seeds
              Cases.failed no_seeds Hreach ltac:(evaluate)
              [EvAppReady; EvBooted; EvReconnect])
    as (H1 & _ & _ & _ & H2).
  split; [exact H1 | exact H2].
Defined.

Lemma reconnect_without_gateway_locks_witness :
  lcdProcess Cases.reconnecting_no_gateway = LcdUndefined
  /\ hd_error (snd (step Cases.cfg_no_gateway (EvProbe 0 true)
                      Cases.reconnecting_no_gateway))
     = Some (AUncaught TypeError)
  /\ children (fst (step Cases.cfg_no_gateway (EvProbe 0 true)
                      Cases.reconnecting_no_gateway))
     = children Cases.reconnecting_no_gateway.
Proof.
  split; [evaluate |].
  destruct (reconnect_without_gateway_locks Cases.cfg_no_gateway
              Cases.reconnecting_no_gateway
              (Some Cases.pool) Sample.node_a
              ltac:(evaluate) ltac:(evaluate) ltac:(evaluate)
              ltac:(intro; evaluate))
    as (H1 & H2 & _).
  split; [exact H1 | exact H2].
Defined.

Lemma booted_delivers_queue_once_witness :
  snd (step Sample.cfg EvBooted Cases.unbooted)
  = [ASend (MsgConnected (Some Sample.node_a));
     ASend (MsgError lcd_exited)]
  /\ snd (step Sample.cfg EvBooted (fst (step Sample.cfg EvBooted Cases.unbooted)))
     = [].
Proof.
  destruct (booted_delivers_queue_once Sample.cfg Cases.unbooted
              (MsgError lcd_exited) ltac:(evaluate))
    as (H1 & _ & H2 & _).
  split; [| exact H2].
  rewrite H1. evaluate.
Defined.

Lemma gaia_version_mismatch_is_fatal_witness :
  main_task (fst (step Sample.cfg (EvStdout 0 "0.16.0") Cases.awaiting_version))
  = MainFailed (Error (gaia_version_message "0.17.0" "0.16.0"))
  /\ Forall no_spawn
       (snd (step Sample.cfg (EvStdout 0 "0.16.0") Cases.awaiting_version)).
Proof.
  assert (Hreach : reachable Sample.cfg Sample.disk Cases.awaiting_version)
    by (exists [EvDirReady]; evaluate).
  destruct (gaia_version_mismatch_is_fatal Sample.cfg Sample.disk
              Cases.awaiting_version 0 false "0.16.0" "0.17.0"
              Hreach ltac:(evaluate) ltac:(evaluate) ltac:(evaluate)
              ltac:(evaluate))
    as (H1 & H2 & _).
  split; [exact H1 | exact H2].
Defined.

Lemma lcd_initialized_decides_witness :
  snd (step Sample.cfg (EvStderr 1 "ERROR: already is initialized")
         Cases.awaiting_initcheck)
  = [ASpawn 2 (CmdRestServer 8998 (lcdHome Sample.cfg) (Some Sample.node_a))]
  /\ main_task (fst (step Sample.cfg (EvStderr 1 "gaia: not found")
                       Cases.awaiting_initcheck))
     = MainFailed
         (Reason "Unknown state for Gaia initialization: gaia: not found").
Proof.
  split.
  - destruct (lcd_initialized_decides Sample.cfg Cases.awaiting_initcheck
                1 false (PropValue (JString "gaia-6002")) (lcdHome Sample.cfg)
                "ERROR: already is initialized"
                ltac:(evaluate) ltac:(evaluate) ltac:(evaluate)) as [H _].
    destruct (H ltac:(evaluate) eq_refl) as [Hacts _].
    rewrite Hacts. evaluate.
  - destruct (lcd_initialized_decides Sample.cfg Cases.awaiting_initcheck
                1 false (PropValue (JString "gaia-6002")) (lcdHome Sample.cfg)
                "gaia: not found"
                ltac:(evaluate) ltac:(evaluate) ltac:(evaluate))
      as (_ & _ & H).
    destruct (H ltac:(evaluate) ltac:(evaluate)) as [Hfail _].
    exact Hfail.
Defined.

Lemma approved_hash_completes_handshake_witness :
  snd (step Sample.cfg_zero (EvHashApproved Sample.hash) Sample.awaiting_trust)
  = [AStdinWrite 2 ("y" ++ newline)]
  /\ snd (step Sample.cfg_zero (EvExit 2 0)
            (fst (step Sample.cfg_zero (EvHashApproved Sample.hash)
                    Sample.awaiting_trust)))
     = [ASpawn 3
          (CmdRestServer 8998 (lcdHome Sample.cfg_zero) (Some Sample.node_a))].
Proof.
  destruct (approved_hash_completes_handshake Sample.cfg_zero
              Sample.awaiting_trust Sample.request
              (Sample.init_cmd Sample.node_a)
              ltac:(evaluate) ltac:(evaluate) ltac:(evaluate) ltac:(evaluate)
              ltac:(evaluate) ltac:(intros; discriminate) ltac:(evaluate))
    as (H1 & _ & _ & H2 & _).
  split; [exact H1 |].
  etransitivity; [exact H2 | evaluate].
Defined.

Lemma shutdown_is_final_witness :
  snd (step Sample.cfg EvWindowClosed Sample.connected) = [AKill 2 SIGKILL]
  /\ shuttingDown
       (fst (steps Sample.cfg [EvReconnect; EvActivate; EvProcessExit]
               (fst (step Sample.cfg EvWindowClosed Sample.connected))))
     = true.
Proof.
  destruct (shutdown_is_final Sample.cfg Sample.connected
              [EvReconnect; EvActivate; EvProcessExit]
              ltac:(evaluate) ltac:(evaluate))
    as (H1 & _ & _ & H2 & _).
  split; [| exact H2].
  rewrite H1. evaluate.
Defined.

Lemma failed_gateway_spawn_reports_connected_witness :
  snd (step Cases.cfg_no_gateway (EvStderr 1 "ERROR: already is initialized")
         Cases.awaiting_initcheck_no_gateway)
  = [ASend (MsgConnected (Some Sample.node_a))]
  /\ lcdProcess
       (fst (step Cases.cfg_no_gateway
               (EvStderr 1 "ERROR: already is initialized")
               Cases.awaiting_initcheck_no_gateway))
     = LcdUndefined.
Proof.
  destruct (failed_gateway_spawn_reports_connected Cases.cfg_no_gateway
              Cases.awaiting_initcheck_no_gateway 1
              (PropValue (JString "gaia-6002")) (lcdHome Cases.cfg_no_gateway)
              "ERROR: already is initialized"
              ltac:(evaluate) ltac:(evaluate) ltac:(evaluate) ltac:(evaluate)
              ltac:(evaluate) ltac:(evaluate))
    as (H1 & _ & _ & H2 & _).
  split; [| exact H2].
  rewrite H1. evaluate.
Defined.

Lemma gateway_node_is_picked_witness :
  exists x host,
    Some Sample.node_a = Some (host ++ ":46657")
    /\ has_colon host = false
    /\ host = hd EmptyString (split ":" x)
    /\ (node_override Sample.cfg = Some x
        \/ exists l, seeds Cases.awaiting_initcheck = Some l /\ In x l).
Proof.
  assert (Hreach : reachable Sample.cfg Sample.disk Cases.awaiting_initcheck)
    by (exists [EvDirReady; EvStdout 0 "0.17.0"]; evaluate).
  destruct (gateway_node_is_picked Sample.cfg Sample.disk
              Cases.awaiting_initcheck
              (EvStderr 1 "ERROR: already is initialized")
              2 8998 (lcdHome Sample.cfg) (Some Sample.node_a)
              Hreach ltac:(left; evaluate))
    as (_ & _ & H).
  exact H.
Defined.

Lemma directory_error_fails_safe_witness :
  main_task
    (fst (steps Sample.cfg [EvDirReady; EvAppReady; EvBooted; EvReconnect]
            (initial_state Sample.disk_old)))
  = MainFailed (Error (incompatible_message "1.0.0" "0.6.2"))
  /\ snd (steps Sample.cfg [EvDirReady; EvAppReady; EvBooted]
            (initial_state Sample.disk_old))
     = [ASend (MsgError (Error (incompatible_message "1.0.0" "0.6.2")))].
Proof.
  destruct (directory_error_fails_safe Sample.cfg Sample.disk_old
              Sample.disk_old (Error (incompatible_message "1.0.0" "0.6.2"))
              [EvAppReady; EvBooted; EvReconnect] ltac:(evaluate))
    as (H1 & _ & _ & H2).
  split; [exact H1 | exact H2].
Defined.

Lemma init_exit_during_shutdown_is_clean_witness :
  snd (step Sample.cfg_zero (EvExit 2 1) Cases.approved_shutting_down)
  = [ASpawn 3
       (CmdRestServer 8998 (lcdHome Sample.cfg_zero) (Some Sample.node_a))].
Proof.
  destruct (init_exit_during_shutdown_is_clean Sample.cfg_zero
              Cases.approved_shutting_down 2 (Sample.init_cmd Sample.node_a) 1
              ltac:(evaluate) ltac:(evaluate) ltac:(evaluate) ltac:(evaluate)
              ltac:(intros; discriminate) ltac:(evaluate))
    as [H _].
  etransitivity; [exact H | evaluate].
Defined.
